(** * Attribute translation layer of midea-local: devices A1, B1 and EC

    A shallow embedding of [midealocal/devices/a1], [b1] and [ec]
    ([__init__.py] of each package) and the properties of their decode
    ([process_message]) and encode ([make_message_set], [set_attribute])
    paths.

    The Python objects are modelled as follows.
    - A Python value is one of [None], a [bool], an [int] or a [str].
    - [self._attributes] is a dict whose key set is fixed by [__init__] and
      never changes afterwards; it is a total map from the variant's
      [DeviceAttributes] to values, iterated in the order of the dict literal
      of [__init__].
    - The message classes ([MessageA1Response], [MessageSet], [MessageQuery],
      ...) live in the [message] modules, which are not part of the sources
      considered here.  An inbound message is the object the codec produced:
      a protocol version and a finite map of named fields ([hasattr] and
      [getattr]).  An outbound message records its class, its protocol
      version and the fields assigned to it.  What [MessageSet] makes of
      [setattr] with a name it declares itself (a property, with or without
      a setter) is a parameter of the model of A1.
    - A method is a function from the device to the device after the call
      and either the returned value or the raised exception: what was
      assigned before an exception stays assigned. *)

From Stdlib Require Import ZArith String Ascii List Lia.
From stdpp Require Import base functions gmap strings list.

Open Scope string_scope.
Open Scope Z_scope.

(** ** Python values and the built-in operations the devices use *)

Module Py.

Inductive value : Type :=
| VNone
| VBool (b : bool)
| VInt (z : Z)
| VStr (s : string).

#[global] Instance value_eq_dec : EqDecision value.
Proof. solve_decision. Defined.

Inductive exn : Type := TypeError | ValueError | IndexError | AttributeError.

Inductive outcome (A : Type) : Type :=
| Return (a : A)
| Raise (e : exn).
Arguments Return {A} a.
Arguments Raise {A} e.

(** [bool] is a subclass of [int]: [True] is [1] and [False] is [0]. *)
Definition as_number (v : value) : option Z :=
  match v with
  | VBool b => Some (Z.b2z b)
  | VInt z => Some z
  | _ => None
  end.

(** [bool(v)] *)
Definition truth (v : value) : bool :=
  match v with
  | VNone => false
  | VBool b => b
  | VInt z => negb (z =? 0)
  | VStr s => negb (String.eqb s "")
  end.

(** [a == b] *)
Definition equal (a b : value) : bool :=
  match a, b with
  | VNone, VNone => true
  | VStr s, VStr t => String.eqb s t
  | _, _ =>
      match as_number a, as_number b with
      | Some x, Some y => x =? y
      | _, _ => false
      end
  end.

(** [v <= n], [v < n] and [v >= n] for an [int] [n]; ordering a [str] or
    [None] against an [int] raises [TypeError]. *)
Definition le_int (v : value) (n : Z) : outcome bool :=
  match as_number v with
  | Some x => Return (x <=? n)
  | None => Raise TypeError
  end.

Definition lt_int (v : value) (n : Z) : outcome bool :=
  match as_number v with
  | Some x => Return (x <? n)
  | None => Raise TypeError
  end.

Definition ge_int (v : value) (n : Z) : outcome bool :=
  match as_number v with
  | Some x => Return (x >=? n)
  | None => Raise TypeError
  end.

(** [v - n] for an [int] [n] *)
Definition sub_int (v : value) (n : Z) : outcome Z :=
  match as_number v with
  | Some x => Return (x - n)
  | None => Raise TypeError
  end.

Definition len {A : Type} (l : list A) : Z := Z.of_nat (length l).

(** [l[i]]: a negative index counts from the end of the list. *)
Definition getitem {A : Type} (l : list A) (i : Z) : outcome A :=
  let j := if i <? 0 then i + len l else i in
  if j <? 0 then Raise IndexError
  else match nth_error l (Z.to_nat j) with
       | Some x => Return x
       | None => Raise IndexError
       end.

(** [l[v]] for a value [v]: a list index must be an [int]. *)
Definition getitem_value {A : Type} (l : list A) (v : value) : outcome A :=
  match as_number v with
  | Some i => getitem l i
  | None => Raise TypeError
  end.

(** [v in l] for a list of [str] *)
Definition contains (l : list string) (v : value) : bool :=
  existsb (fun s => equal (VStr s) v) l.

(** [l.index(v)]: the first position of [v], [ValueError] if there is none. *)
Fixpoint index_from (l : list string) (v : value) (i : Z) : outcome Z :=
  match l with
  | [] => Raise ValueError
  | s :: l' => if equal (VStr s) v then Return i else index_from l' v (i + 1)
  end.

Definition index (l : list string) (v : value) : outcome Z := index_from l v 0.

(** A dict with [int] keys and [str] values, in insertion order. *)
Definition keys (d : list (Z * string)) : list Z := map fst d.
Definition values (d : list (Z * string)) : list string := map snd d.

(** [d.get(v)]; the result is [None] when [v] is not a key.  A key is found
    by [==] (and hash), so [True] finds the key [1]. *)
Fixpoint dict_get (d : list (Z * string)) (v : value) : option string :=
  match d with
  | [] => None
  | (k, s) :: d' => if equal (VInt k) v then Some s else dict_get d' v
  end.

(** [v in d] *)
Definition dict_contains (d : list (Z * string)) (v : value) : bool :=
  match dict_get d v with Some _ => true | None => false end.

(** *** [str(v)] *)

Definition digit_char (n : N) : ascii :=
  match n with
  | 0 => "0" | 1 => "1" | 2 => "2" | 3 => "3" | 4 => "4"
  | 5 => "5" | 6 => "6" | 7 => "7" | 8 => "8" | _ => "9"
  end%char%N.

(** The decimal digits of [p], most significant first, in front of [acc];
    the fuel is the binary size of [p], which bounds the number of digits. *)
Fixpoint digits_go (fuel : nat) (n : N) (acc : string) : string :=
  match fuel with
  | O => acc
  | S fuel' =>
      if (n =? 0)%N then acc
      else digits_go fuel' (n / 10)%N (String (digit_char (n mod 10)%N) acc)
  end.

Definition str_of_N (n : N) : string :=
  if (n =? 0)%N then "0" else digits_go (S (N.size_nat n)) n "".

Definition str_of_Z (z : Z) : string :=
  match z with
  | Z0 => "0"
  | Zpos p => str_of_N (Npos p)
  | Zneg p => String "-" (str_of_N (Npos p))
  end.

Definition str (v : value) : string :=
  match v with
  | VNone => "None"
  | VBool true => "True"
  | VBool false => "False"
  | VInt z => str_of_Z z
  | VStr s => s
  end.

(** *** [int(v)] *)

Definition digit_of (c : ascii) : option Z :=
  let n := Z.of_nat (nat_of_ascii c) in
  if (48 <=? n) && (n <=? 57) then Some (n - 48) else None.

(** Decimal digits, single underscores allowed between two digits.
    [prev] tells whether the previous character was a digit. *)
Fixpoint parse_digits (s : string) (acc : Z) (prev : bool) : option Z :=
  match s with
  | EmptyString => if prev then Some acc else None
  | String c s' =>
      if Ascii.eqb c "_" then
        if prev then parse_digits s' acc false else None
      else
        match digit_of c with
        | Some d => parse_digits s' (10 * acc + d) true
        | None => None
        end
  end.

Definition is_space (c : ascii) : bool :=
  let n := Z.of_nat (nat_of_ascii c) in
  ((9 <=? n) && (n <=? 13)) || ((28 <=? n) && (n <=? 32)).

Fixpoint lstrip (s : string) : string :=
  match s with
  | String c s' => if is_space c then lstrip s' else s
  | EmptyString => s
  end.

Fixpoint rstrip (s : string) : string :=
  match s with
  | EmptyString => EmptyString
  | String c s' =>
      match rstrip s' with
      | EmptyString => if is_space c then EmptyString else String c EmptyString
      | r => String c r
      end
  end.

(** [int(s)] for a [str] in base 10: surrounding white space is dropped, a
    sign may precede the digits; anything else raises [ValueError]
    (ASCII only). *)
Definition int_of_string (s : string) : outcome Z :=
  let parsed :=
    match lstrip (rstrip s) with
    | String c r =>
        if Ascii.eqb c "-" then option_map Z.opp (parse_digits r 0 false)
        else if Ascii.eqb c "+" then parse_digits r 0 false
        else parse_digits (String c r) 0 false
    | EmptyString => None
    end in
  match parsed with
  | Some z => Return z
  | None => Raise ValueError
  end.

Definition int (v : value) : outcome Z :=
  match v with
  | VNone => Raise TypeError
  | VBool b => Return (Z.b2z b)
  | VInt z => Return z
  | VStr s => int_of_string s
  end.

(** *** Methods: the device before, the device after, result or exception *)

Definition M (S A : Type) : Type := S -> S * outcome A.

Definition ret {S A : Type} (a : A) : M S A := fun s => (s, Return a).

Definition bind {S A B : Type} (m : M S A) (k : A -> M S B) : M S B :=
  fun s =>
    match m s with
    | (s', Return a) => k a s'
    | (s', Raise e) => (s', Raise e)
    end.

(** An operation that may raise and does not touch the device. *)
Definition lift {S A : Type} (o : outcome A) : M S A := fun s => (s, o).

(** [for x in l: acc = body(acc, x)] *)
Fixpoint for_each {S A B : Type} (body : B -> A -> M S B) (l : list A) (acc : B)
  : M S B :=
  match l with
  | [] => ret acc
  | x :: l' => bind (body acc x) (fun acc' => for_each body l' acc')
  end.

End Py.

Import Py.

Declare Scope py_scope.
Delimit Scope py_scope with py.
Notation "x <- m ;; k" := (bind m (fun x => k))
  (at level 100, m at next level, right associativity) : py_scope.
Notation "m ;;; k" := (bind m (fun _ => k))
  (at level 100, right associativity) : py_scope.
Open Scope py_scope.

(** The protocol version of a message ([ProtocolVersion] of
    [midealocal.const], an integer enumeration). *)
Definition ProtocolVersion : Type := Z.

(** An inbound message as the codec produced it. *)
Record MessageResponse : Type := {
  protocol_version : ProtocolVersion;
  message_fields : gmap string value
}.

(** [getattr(message, name)], with [None] when [hasattr(message, name)] is
    false. *)
Definition getattr (message : MessageResponse) (name : string) : option value :=
  message_fields message !! name.

(** An outbound message: its class, the protocol version given to its
    constructor and the fields assigned after construction. *)
Inductive MessageClass : Type := MessageQuery | MessageSet.

Record MessageRequest : Type := {
  message_class : MessageClass;
  request_protocol_version : ProtocolVersion;
  request_fields : gmap string value
}.

Definition new_message (c : MessageClass) (pv : ProtocolVersion) : MessageRequest :=
  {| message_class := c; request_protocol_version := pv; request_fields := ∅ |}.

(** [message.name = v] for a field [name] of the message, as in
    [message.power = ...]: the value is recorded under that name. *)
Definition set_field (message : MessageRequest) (name : string) (v : value)
  : MessageRequest :=
  {| message_class := message_class message;
     request_protocol_version := request_protocol_version message;
     request_fields := <[name := v]> (request_fields message) |}.

(** What a call hands to the host: [update_all(status)] publishes a state
    report, [build_send(message)] transmits a message. *)
Inductive HostCall : Type :=
| update_all (status : gmap string value)
| build_send (message : MessageRequest).

(** ** Device A1 (dehumidifier): [midealocal/devices/a1/__init__.py] *)

Module A1.

Inductive DeviceAttributes : Type :=
| power
| prompt_tone
| child_lock
| mode
| fan_speed
| swing
| target_humidity
| anion
| tank
| water_level_set
| tank_full
| current_humidity
| current_temperature.

#[global] Instance DeviceAttributes_eq_dec : EqDecision DeviceAttributes.
Proof. solve_decision. Defined.

(** [str(status)]: the value of the [StrEnum] member. *)
Definition name (a : DeviceAttributes) : string :=
  match a with
  | power => "power"
  | prompt_tone => "prompt_tone"
  | child_lock => "child_lock"
  | mode => "mode"
  | fan_speed => "fan_speed"
  | swing => "swing"
  | target_humidity => "target_humidity"
  | anion => "anion"
  | tank => "tank"
  | water_level_set => "water_level_set"
  | tank_full => "tank_full"
  | current_humidity => "current_humidity"
  | current_temperature => "current_temperature"
  end.

Definition _modes : list string :=
  ["Manual"; "Continuous"; "Auto"; "Clothes-Dry"; "Shoes-Dry"].

Definition _speeds : list (Z * string) :=
  [(1, "Lowest"); (40, "Low"); (60, "Medium"); (80, "High"); (102, "Auto");
   (127, "Off")].

Definition _water_level_sets : list string := ["25"; "50"; "75"; "100"].

(** The device object: the attribute dict and the protocol version kept by
    the base class [MideaDevice]. *)
Record device : Type := {
  _attributes : DeviceAttributes -> value;
  _message_protocol_version : ProtocolVersion
}.

(** The keys of [self._attributes], in the order of the dict literal. *)
Definition attribute_keys : list DeviceAttributes :=
  [power; prompt_tone; child_lock; mode; fan_speed; swing; target_humidity;
   anion; tank; water_level_set; tank_full; current_humidity;
   current_temperature].

(** [__init__]: the attribute defaults.  The initial protocol version is set
    by the base class, outside these sources, and is an argument here. *)
Definition init (message_protocol_version : ProtocolVersion) : device :=
  {| _attributes := fun a =>
       match a with
       | power => VBool false
       | prompt_tone => VBool true
       | child_lock => VBool false
       | mode => VNone
       | fan_speed => VStr "Medium"
       | swing => VBool false
       | target_humidity => VInt 35
       | anion => VBool false
       | tank => VInt 0
       | water_level_set => VInt 50
       | tank_full => VNone
       | current_humidity => VNone
       | current_temperature => VNone
       end;
     _message_protocol_version := message_protocol_version |}.

(** [self._attributes[a]] *)
Definition get (a : DeviceAttributes) : M device value :=
  fun self => (self, Return (_attributes self a)).

(** [self._attributes[a] = v]: the device after the assignment, and the
    assignment as a step of a method. *)
Definition assign (self : device) (a : DeviceAttributes) (v : value) : device :=
  {| _attributes := <[a := v]> (_attributes self);
     _message_protocol_version := _message_protocol_version self |}.

Definition set (a : DeviceAttributes) (v : value) : M device unit :=
  fun self => (assign self a v, Return tt).

(** [self._message_protocol_version = pv] *)
Definition set_message_protocol_version (pv : ProtocolVersion) : M device unit :=
  fun self =>
    ({| _attributes := _attributes self; _message_protocol_version := pv |},
     Return tt).

Definition modes : list string := _modes.
Definition fan_speeds : list string := values _speeds.
Definition water_level_sets : list string := _water_level_sets.

(** The declared domain of an enumerated attribute: the labels the three
    properties above list.  The other attributes are not enumerated. *)
Definition domain (a : DeviceAttributes) : list string :=
  match a with
  | mode => modes
  | fan_speed => fan_speeds
  | water_level_set => water_level_sets
  | _ => []
  end.

Definition build_query : M device (list MessageRequest) :=
  fun self =>
    (self, Return [new_message MessageQuery (_message_protocol_version self)]).

(** The transform of one attribute: the first [if ... elif ... else] of the
    loop body of [process_message]. *)
Definition store (status : DeviceAttributes) (v : value) : M device unit :=
  match status with
  | mode =>
      in_range <- lift (le_int v (len _modes)) ;;
      if in_range then
        i <- lift (sub_int v 1) ;;
        label <- lift (getitem _modes i) ;;
        set status (VStr label)
      else set status VNone
  | fan_speed =>
      if dict_contains _speeds v then
        set status (match dict_get _speeds v with
                    | Some label => VStr label
                    | None => VNone
                    end)
      else set status VNone
  | water_level_set => set status (VStr (str v))
  | _ => set status v
  end.

(** The value the transform assigns to [status] for the raw value [v], or
    the exception it raises: the branches of [store] without the device. *)
Definition decoded (status : DeviceAttributes) (v : value) : outcome value :=
  match status with
  | mode =>
      match le_int v (len _modes) with
      | Return true =>
          match sub_int v 1 with
          | Return i =>
              match getitem _modes i with
              | Return label => Return (VStr label)
              | Raise e => Raise e
              end
          | Raise e => Raise e
          end
      | Return false => Return VNone
      | Raise e => Raise e
      end
  | fan_speed =>
      if dict_contains _speeds v then
        match dict_get _speeds v with
        | Some label => Return (VStr label)
        | None => Return VNone
        end
      else Return VNone
  | water_level_set => Return (VStr (str v))
  | _ => Return v
  end.

(** [tank >= water_level if bool(tank) else False] *)
Definition tank_full_calculated (tank_v : value) (water_level : Z) : outcome bool :=
  if truth tank_v then ge_int tank_v water_level else Return false.

(** [tank_full is None or tank_full != tank_full_calculated] *)
Definition tank_full_stale (tank_full_v : value) (calculated : bool) : bool :=
  match tank_full_v with
  | VNone => true
  | _ => negb (equal tank_full_v (VBool calculated))
  end.

(** The part of the loop body that follows the transform: the derived
    attribute, then the report entry of [status]. *)
Definition derive_and_report (status : DeviceAttributes)
    (new_status : gmap string value) : M device (gmap string value) :=
  tank_full_v <- get tank_full ;;
  tank_v <- get tank ;;
  water_level_v <- get water_level_set ;;
  water_level <- lift (int water_level_v) ;;
  calculated <- lift (tank_full_calculated tank_v water_level) ;;
  new_status <-
    (if tank_full_stale tank_full_v calculated then
       set tank_full (VBool calculated) ;;;
       ret (<[name tank_full := VBool calculated]> new_status)
     else ret new_status) ;;
  v <- get status ;;
  ret (<[name status := v]> new_status).

(** One iteration of [for status in self._attributes]. *)
Definition process_status (message : MessageResponse)
    (new_status : gmap string value) (status : DeviceAttributes)
  : M device (gmap string value) :=
  match getattr message (name status) with
  | Some v =>
      store status v ;;;
      derive_and_report status new_status
  | None => ret new_status
  end.

Definition process_message (message : MessageResponse)
  : M device (gmap string value) :=
  set_message_protocol_version (protocol_version message) ;;;
  for_each (process_status message) attribute_keys ∅.

Definition get_message_protocol_version : M device ProtocolVersion :=
  fun self => (self, Return (_message_protocol_version self)).

Definition make_message_set : M device MessageRequest :=
  pv <- get_message_protocol_version ;;
  let message := new_message MessageSet pv in
  v <- get power ;;
  let message := set_field message "power" v in
  v <- get prompt_tone ;;
  let message := set_field message "prompt_tone" v in
  v <- get child_lock ;;
  let message := set_field message "child_lock" v in
  v <- get mode ;;
  code <- (if contains _modes v then
             i <- lift (index _modes v) ;;
             ret (i + 1)
           else ret 1) ;;
  let message := set_field message "mode" (VInt code) in
  v <- get fan_speed ;;
  code <- (match v with
           | VNone => ret 40
           | _ =>
               j <- lift (index (values _speeds) v) ;;
               lift (getitem (keys _speeds) j)
           end) ;;
  let message := set_field message "fan_speed" (VInt code) in
  v <- get target_humidity ;;
  let message := set_field message "target_humidity" v in
  v <- get swing ;;
  let message := set_field message "swing" v in
  v <- get anion ;;
  let message := set_field message "anion" v in
  v <- get water_level_set ;;
  level <- lift (int v) ;;
  let message := set_field message "water_level_set" (VInt level) in
  ret message.

(** The class [MessageSet] of [a1/message.py] and its base classes are not
    part of these sources.  [set_attribute] hands them a name chosen by the
    caller, in [setattr(message, str(attr), value)].  When the class declares
    that name itself (a property of the class or of a base class), the
    assignment is what the class makes of it: the setter runs and changes
    the message, or the assignment raises, with [AttributeError] for a
    property without setter.  For any other name Python stores the value on
    the object under that name.
    The names the class declares, each with what an assignment to it does,
    are a parameter of the model.  The names of the device's attributes are
    not among them: a command exposes them as settable named fields, nine of
    them the fields [make_message_set] assigns. *)
Class MessageSetProperties : Type := {
  property : string -> option (MessageRequest -> value -> outcome MessageRequest);
  attribute_is_field : forall a : DeviceAttributes, property (name a) = None
}.

(** An assignment to a property without setter. *)
Definition read_only (message : MessageRequest) (v : value)
  : outcome MessageRequest :=
  Raise AttributeError.

(** A class whose one property is [body], without setter. *)
Definition body_read_only : MessageSetProperties :=
  {| property := fun attr =>
       if String.eqb attr "body" then Some read_only else None;
     attribute_is_field := ltac:(intros a; destruct a; reflexivity) |}.

(** [setattr(message, attr, v)] *)
Definition setattr `{cls : MessageSetProperties} (message : MessageRequest)
    (attr : string) (v : value) : outcome MessageRequest :=
  match property attr with
  | Some setter => setter message v
  | None => Return (set_field message attr v)
  end.

(** The [if ... elif ... else] chain of the [else] branch of [set_attribute]:
    the requested attribute overrides one field of the message. *)
Definition override `{cls : MessageSetProperties} (message : MessageRequest)
    (attr : string) (v : value) : M device MessageRequest :=
  if String.eqb attr (name mode) then
    if contains _modes v then
      i <- lift (index _modes (VStr (str v))) ;;
      ret (set_field message "mode" (VInt (i + 1)))
    else ret message
  else if String.eqb attr (name fan_speed) then
    if contains (values _speeds) v then
      j <- lift (index (values _speeds) (VStr (str v))) ;;
      speed <- lift (getitem (keys _speeds) j) ;;
      ret (set_field message "fan_speed" (VInt speed))
    else ret message
  else if String.eqb attr (name water_level_set) then
    if contains _water_level_sets v then
      level <- lift (int v) ;;
      ret (set_field message "water_level_set" (VInt level))
    else ret message
  else lift (setattr message attr v).

Definition set_attribute `{cls : MessageSetProperties} (attr : string) (v : value)
  : M device (list HostCall) :=
  if String.eqb attr (name prompt_tone) then
    set prompt_tone v ;;;
    ret [update_all {[name prompt_tone := v]}]
  else
    message <- make_message_set ;;
    message <- override message attr v ;;
    ret [build_send message].

(** A message as the codec types it: the mode is a raw code (an [int] that
    is not negative), the tank level and the water level are [int]s. *)
Definition well_typed (message : MessageResponse) : Prop :=
  (forall v, getattr message (name mode) = Some v -> exists z, v = VInt z /\ 0 <= z) /\
  (forall v, getattr message (name tank) = Some v -> exists z, v = VInt z) /\
  (forall v, getattr message (name water_level_set) = Some v -> exists z, v = VInt z).

(** The states on which the derived attribute can be computed: the tank
    level is an [int] and the water level converts with [int]. *)
Definition decodable (self : device) : Prop :=
  (exists z, _attributes self tank = VInt z) /\
  exists level, int (_attributes self water_level_set) = Return level.

(** The states the decode loop produces from well-typed messages: the
    stored fan speed is [None] or a label of the table, and the stored water
    level converts with [int]. *)
Definition encodable (self : device) : Prop :=
  (_attributes self fan_speed = VNone \/
   contains (values _speeds) (_attributes self fan_speed) = true) /\
  exists level, int (_attributes self water_level_set) = Return level.

(** The raw codes [make_message_set] computes from the stored mode and fan
    speed, or the exception: its two conditional expressions without the
    device. *)
Definition encoded_mode (v : value) : outcome Z :=
  if contains _modes v then
    match index _modes v with
    | Return i => Return (i + 1)
    | Raise e => Raise e
    end
  else Return 1.

Definition encoded_fan_speed (v : value) : outcome Z :=
  match v with
  | VNone => Return 40
  | _ =>
      match index (values _speeds) v with
      | Return j => getitem (keys _speeds) j
      | Raise e => Raise e
      end
  end.

(** The message [make_message_set] builds once the three raw codes are
    computed. *)
Definition message_set_of (self : device) (mode_code speed level : Z)
  : MessageRequest :=
  let message := new_message MessageSet (_message_protocol_version self) in
  let message := set_field message "power" (_attributes self power) in
  let message := set_field message "prompt_tone" (_attributes self prompt_tone) in
  let message := set_field message "child_lock" (_attributes self child_lock) in
  let message := set_field message "mode" (VInt mode_code) in
  let message := set_field message "fan_speed" (VInt speed) in
  let message :=
    set_field message "target_humidity" (_attributes self target_humidity) in
  let message := set_field message "swing" (_attributes self swing) in
  let message := set_field message "anion" (_attributes self anion) in
  set_field message "water_level_set" (VInt level).

(** The derived attribute as a function of an [int] tank level and of the
    converted water level, and the devices on which it is in place. *)
Definition tank_full_of (t level : Z) : bool := negb (t =? 0) && (t >=? level).

Definition tank_full_settled (self : device) : Prop :=
  exists t level,
    _attributes self tank = VInt t /\
    int (_attributes self water_level_set) = Return level /\
    _attributes self tank_full = VBool (tank_full_of t level).

(** The derived attribute changes during a decode pass: the loop reaches an
    attribute whose iteration returns and leaves [tank_full] at another
    value than it found. *)
Definition tank_full_changes (message : MessageResponse) (self : device) : Prop :=
  exists l1 a l2 s1 rep1 s2 rep2,
    attribute_keys = (l1 ++ a :: l2)%list /\
    for_each (process_status message) l1 ∅
      (fst (set_message_protocol_version (protocol_version message) self))
    = (s1, Return rep1) /\
    process_status message rep1 a s1 = (s2, Return rep2) /\
    _attributes s2 tank_full <> _attributes s1 tank_full.

(** The stored mode and fan speed are [None] or a label of their table. *)
Definition labelled (self : device) : Prop :=
  (_attributes self mode = VNone \/
   contains _modes (_attributes self mode) = true) /\
  (_attributes self fan_speed = VNone \/
   contains (values _speeds) (_attributes self fan_speed) = true).

(** The devices a host can obtain: a fresh device, then any sequence of
    decode passes over well-typed messages and of [set_attribute] calls,
    whether they return or raise. *)
Inductive reachable `{cls : MessageSetProperties} : device -> Prop :=
| reachable_init pv : reachable (init pv)
| reachable_process_message message self :
    well_typed message -> reachable self ->
    reachable (fst (process_message message self))
| reachable_set_attribute attr v self :
    reachable self -> reachable (fst (set_attribute attr v self)).

End A1.

(** ** Device B1 (oven): [midealocal/devices/b1/__init__.py] *)

Module B1.

Inductive DeviceAttributes : Type :=
| door
| status
| time_remaining
| current_temperature
| tank_ejected
| water_change_reminder
| water_shortage.

#[global] Instance DeviceAttributes_eq_dec : EqDecision DeviceAttributes.
Proof. solve_decision. Defined.

Definition name (a : DeviceAttributes) : string :=
  match a with
  | door => "door"
  | status => "status"
  | time_remaining => "time_remaining"
  | current_temperature => "current_temperature"
  | tank_ejected => "tank_ejected"
  | water_change_reminder => "water_change_reminder"
  | water_shortage => "water_shortage"
  end.

Definition _status : list (Z * string) :=
  [(1, "Standby"); (2, "Idle"); (3, "Working"); (4, "Finished"); (5, "Delay");
   (6, "Paused")].

Record device : Type := {
  _attributes : DeviceAttributes -> value;
  _message_protocol_version : ProtocolVersion
}.

Definition attribute_keys : list DeviceAttributes :=
  [door; status; time_remaining; current_temperature; tank_ejected;
   water_change_reminder; water_shortage].

Definition init (message_protocol_version : ProtocolVersion) : device :=
  {| _attributes := fun a =>
       match a with
       | door => VBool false
       | status => VNone
       | time_remaining => VNone
       | current_temperature => VNone
       | tank_ejected => VBool false
       | water_change_reminder => VBool false
       | water_shortage => VBool false
       end;
     _message_protocol_version := message_protocol_version |}.

Definition get (a : DeviceAttributes) : M device value :=
  fun self => (self, Return (_attributes self a)).

Definition assign (self : device) (a : DeviceAttributes) (v : value) : device :=
  {| _attributes := <[a := v]> (_attributes self);
     _message_protocol_version := _message_protocol_version self |}.

Definition set (a : DeviceAttributes) (v : value) : M device unit :=
  fun self => (assign self a v, Return tt).

Definition build_query : M device (list MessageRequest) :=
  fun self =>
    (self, Return [new_message MessageQuery (_message_protocol_version self)]).

Definition process_status (message : MessageResponse)
    (new_status : gmap string value) (st : DeviceAttributes)
  : M device (gmap string value) :=
  match getattr message (name st) with
  | Some v =>
      (match st with
       | status =>
           if dict_contains _status v then
             set status (match dict_get _status v with
                         | Some label => VStr label
                         | None => VNone
                         end)
           else set status VNone
       | _ => set st v
       end) ;;;
      v' <- get st ;;
      ret (<[name st := v']> new_status)
  | None => ret new_status
  end.

Definition process_message (message : MessageResponse)
  : M device (gmap string value) :=
  for_each (process_status message) attribute_keys ∅.

(** The value the loop body assigns to [st] for the raw value [v]. *)
Definition decoded (st : DeviceAttributes) (v : value) : outcome value :=
  match st with
  | status =>
      if dict_contains _status v then
        match dict_get _status v with
        | Some label => Return (VStr label)
        | None => Return VNone
        end
      else Return VNone
  | _ => Return v
  end.

(** The body of [set_attribute] is its docstring alone. *)
Definition set_attribute (attr : string) (v : value) : M device (list HostCall) :=
  ret [].

End B1.

(** ** Device EC (pressure cooker): [midealocal/devices/ec/__init__.py] *)

Module EC.

Inductive DeviceAttributes : Type :=
| cooking
| mode
| time_remaining
| keep_warm_time
| top_temperature
| bottom_temperature
| progress
| with_pressure.

#[global] Instance DeviceAttributes_eq_dec : EqDecision DeviceAttributes.
Proof. solve_decision. Defined.

Definition name (a : DeviceAttributes) : string :=
  match a with
  | cooking => "cooking"
  | mode => "mode"
  | time_remaining => "time_remaining"
  | keep_warm_time => "keep_warm_time"
  | top_temperature => "top_temperature"
  | bottom_temperature => "bottom_temperature"
  | progress => "progress"
  | with_pressure => "with_pressure"
  end.

Definition named_modes : list string :=
  ["smart"; "reserve"; "cook_rice"; "fast_cook_rice"; "standard_cook_rice";
   "gruel"; "cook_congee"; "stew_soup"; "stewing"; "heat_rice"; "make_cake";
   "yoghourt"; "soup_rice"; "coarse_rice"; "five_ceeals_rice";
   "eight_treasures_rice"; "crispy_rice"; "shelled_rice";
   "eight_treasures_congee"; "infant_congee"; "older_rice"; "rice_soup";
   "rice_paste"; "egg_custard"; "warm_milk"; "hot_spring_egg";
   "millet_congee"; "firewood_rice"; "few_rice"; "red_potato"; "corn";
   "quick_freeze_bun"; "steam_ribs"; "steam_egg"; "coarse_congee";
   "steep_rice"; "appetizing_congee"; "corn_congee"; "sprout_rice";
   "luscious_rice"; "luscious_boiled"; "fast_rice"; "fast_boil";
   "bean_rice_congee"; "fast_congee"; "baby_congee"; "cook_soup";
   "congee_coup"; "steam_corn"; "steam_red_potato"; "boil_congee";
   "delicious_steam"; "boil_egg"; "rice_wine"; "fruit_vegetable_paste";
   "vegetable_porridge"; "pork_porridge"; "fragrant_rice"; "assorte_rice";
   "steame_fish"; "baby_rice"; "essence_rice"; "fragrant_dense_congee";
   "one_two_cook"; "original_steame"; "hot_fast_rice";
   "online_celebrity_rice"; "sushi_rice"; "stone_bowl_rice"; "no_water_treat";
   "keep_fresh"; "low_sugar_rice"; "black_buckwheat_rice"; "resveratrol_rice";
   "yellow_wheat_rice"; "green_buckwheat_rice"; "roughage_rice";
   "millet_mixed_rice"; "iron_pan_rice"; "olla_pan_rice"; "vegetable_rice";
   "baby_side"; "regimen_congee"; "earthen_pot_congee"; "regimen_soup";
   "pottery_jar_soup"; "canton_soup"; "nutrition_stew"; "northeast_stew";
   "uncap_boil"; "trichromatic_coarse_grain"; "four_color_vegetables"; "egg";
   "chop"].

Definition _mode_list : list string :=
  named_modes ++ repeat "unknown" 98 ++ ["clean"] ++ repeat "unknown" 5
  ++ ["keep_warm"; "diy"].

Definition _progress : list string :=
  ["Idle"; "Cooking"; "Delay"; "Keep-warm"; "Lid-open"; "Relieving";
   "Keep-pressure"; "Relieving"; "Cooking"; "Relieving"; "Lid-open"].

Record device : Type := {
  _attributes : DeviceAttributes -> value;
  _message_protocol_version : ProtocolVersion
}.

(** The keys in the order of the dict literal of [__init__], which is not
    the order of the enumeration. *)
Definition attribute_keys : list DeviceAttributes :=
  [cooking; mode; time_remaining; top_temperature; bottom_temperature;
   keep_warm_time; progress; with_pressure].

Definition init (message_protocol_version : ProtocolVersion) : device :=
  {| _attributes := fun a =>
       match a with
       | cooking => VBool false
       | mode => VInt 0
       | time_remaining => VNone
       | top_temperature => VNone
       | bottom_temperature => VNone
       | keep_warm_time => VNone
       | progress => VStr "Unknown"
       | with_pressure => VNone
       end;
     _message_protocol_version := message_protocol_version |}.

Definition get (a : DeviceAttributes) : M device value :=
  fun self => (self, Return (_attributes self a)).

Definition assign (self : device) (a : DeviceAttributes) (v : value) : device :=
  {| _attributes := <[a := v]> (_attributes self);
     _message_protocol_version := _message_protocol_version self |}.

Definition set (a : DeviceAttributes) (v : value) : M device unit :=
  fun self => (assign self a v, Return tt).

Definition build_query : M device (list MessageRequest) :=
  fun self =>
    (self, Return [new_message MessageQuery (_message_protocol_version self)]).

Definition process_status (message : MessageResponse)
    (new_status : gmap string value) (status : DeviceAttributes)
  : M device (gmap string value) :=
  match getattr message (name status) with
  | Some v =>
      (match status with
       | progress =>
           in_range <- lift (lt_int v (len _progress)) ;;
           if in_range then
             label <- lift (getitem_value _progress v) ;;
             set status (VStr label)
           else set status (VStr "Unknown")
       | mode =>
           in_range <- lift (lt_int v (len _mode_list)) ;;
           if in_range then
             label <- lift (getitem_value _mode_list v) ;;
             set status (VStr label)
           else set status (VStr "Cloud")
       | _ => set status v
       end) ;;;
      v' <- get status ;;
      ret (<[name status := v']> new_status)
  | None => ret new_status
  end.

Definition process_message (message : MessageResponse)
  : M device (gmap string value) :=
  for_each (process_status message) attribute_keys ∅.

(** The value the loop body assigns to [status] for the raw value [v], or
    the exception it raises. *)
Definition decoded (status : DeviceAttributes) (v : value) : outcome value :=
  match status with
  | progress =>
      match lt_int v (len _progress) with
      | Return true =>
          match getitem_value _progress v with
          | Return label => Return (VStr label)
          | Raise e => Raise e
          end
      | Return false => Return (VStr "Unknown")
      | Raise e => Raise e
      end
  | mode =>
      match lt_int v (len _mode_list) with
      | Return true =>
          match getitem_value _mode_list v with
          | Return label => Return (VStr label)
          | Raise e => Raise e
          end
      | Return false => Return (VStr "Cloud")
      | Raise e => Raise e
      end
  | _ => Return v
  end.

(** A message as the codec types it: program and progress are raw codes. *)
Definition well_typed (message : MessageResponse) : Prop :=
  forall a v, a = mode \/ a = progress ->
    getattr message (name a) = Some v -> exists z, v = VInt z /\ 0 <= z.

(** The body of [set_attribute] is its docstring alone. *)
Definition set_attribute (attr : string) (v : value) : M device (list HostCall) :=
  ret [].

End EC.

(** The raw field [field] of the message a call transmitted, if the call
    returned and transmitted one. *)
Definition transmitted_field (calls : outcome (list HostCall)) (field : string)
  : option value :=
  match calls with
  | Return [build_send message] => request_fields message !! field
  | _ => None
  end.

(** The round trip of the specification, [decode(encode_field(L)) == L]:
    the request to set the attribute to the label [L] transmits a message
    whose field [field] holds a raw code, and that raw code decodes to [L]. *)
Definition round_trips (encode : string -> outcome (list HostCall))
    (decode : value -> outcome value) (field : string) (L : string) : Prop :=
  exists raw,
    transmitted_field (encode L) field = Some raw /\
    decode raw = Return (VStr L).

(** * Properties *)

(** ** The monad of methods *)

Lemma bind_Return {S A B : Type} (m : M S A) (k : A -> M S B) s s' a :
  m s = (s', Return a) -> bind m k s = k a s'.
Proof. intros H. unfold bind. rewrite H. reflexivity. Qed.

Lemma bind_Raise {S A B : Type} (m : M S A) (k : A -> M S B) s s' e :
  m s = (s', Raise e) -> bind m k s = (s', Raise e).
Proof. intros H. unfold bind. rewrite H. reflexivity. Qed.

(** A bind that returns went through a first part that returned. *)
Lemma bind_inv {S A B : Type} (m : M S A) (k : A -> M S B) s s2 b :
  bind m k s = (s2, Return b) ->
  exists s1 a, m s = (s1, Return a) /\ k a s1 = (s2, Return b).
Proof.
  unfold bind. destruct (m s) as [s1 [a|e]]; intros H.
  - exists s1, a. split; [reflexivity | exact H].
  - discriminate H.
Qed.

(** A loop that returns: every iteration returned. *)
Lemma for_each_cons_inv {S A B : Type} (body : B -> A -> M S B) x l acc s s2 b :
  for_each body (x :: l) acc s = (s2, Return b) ->
  exists s1 acc1,
    body acc x s = (s1, Return acc1) /\ for_each body l acc1 s1 = (s2, Return b).
Proof. simpl. apply bind_inv. Qed.

Lemma for_each_app_inv {S A B : Type} (body : B -> A -> M S B) l1 l2 :
  forall acc s s2 b,
    for_each body (l1 ++ l2) acc s = (s2, Return b) ->
    exists s1 acc1,
      for_each body l1 acc s = (s1, Return acc1) /\
      for_each body l2 acc1 s1 = (s2, Return b).
Proof.
  induction l1 as [|x l1 IH]; intros acc s s2 b H.
  - exists s, acc. split; [reflexivity | exact H].
  - cbn [app] in H. apply for_each_cons_inv in H as (s' & acc' & Hx & H).
    destruct (IH _ _ _ _ H) as (s1 & acc1 & H1 & H2).
    exists s1, acc1. split; [|exact H2].
    cbn [for_each]. rewrite (bind_Return _ _ _ _ _ Hx). exact H1.
Qed.

(** ** Built-in operations *)

Lemma index_from_bounds l v i j :
  index_from l v i = Return j -> i <= j < i + len l.
Proof.
  revert i. induction l as [|s l IH]; intros i; cbn [index_from]; [discriminate|].
  unfold len in *. cbn [length]. rewrite Nat2Z.inj_succ.
  destruct (equal (VStr s) v).
  - intros H. inversion H. lia.
  - intros H. apply IH in H. lia.
Qed.

Lemma contains_index_from l v i :
  contains l v = true -> exists j, index_from l v i = Return j.
Proof.
  revert i. unfold contains.
  induction l as [|s l IH]; intros i; cbn [existsb index_from]; [discriminate|].
  destruct (equal (VStr s) v); cbn [orb].
  - intros _. exists i. reflexivity.
  - intros H. apply IH, H.
Qed.

(** A member of a list has an index in the list. *)
Lemma contains_index l v :
  contains l v = true -> exists j, index l v = Return j /\ 0 <= j < len l.
Proof.
  intros H. destruct (contains_index_from l v 0 H) as [j Hj].
  exists j. split; [exact Hj|]. apply index_from_bounds in Hj. lia.
Qed.

Lemma getitem_in_range {A : Type} (l : list A) i :
  0 <= i < len l -> exists x, getitem l i = Return x /\ nth_error l (Z.to_nat i) = Some x.
Proof.
  intros [H0 H1]. unfold getitem.
  destruct (i <? 0) eqn:E; [apply Z.ltb_lt in E; lia|]. rewrite E.
  destruct (nth_error l (Z.to_nat i)) as [x|] eqn:N.
  - exists x. split; reflexivity.
  - apply nth_error_None in N. unfold len in H1. lia.
Qed.

(** Only a [str] is a member of a list of [str]. *)
Lemma contains_VStr l v : contains l v = true -> exists s, v = VStr s /\ In s l.
Proof.
  unfold contains. rewrite existsb_exists. intros (s & Hin & Heq).
  destruct v as [|b|z|t]; simpl in Heq; try discriminate.
  apply String.eqb_eq in Heq. subst t. exists s. split; [reflexivity | exact Hin].
Qed.

(** *** [int(str(n))] is [n] *)

Lemma digit_char_spec x :
  (x < 10)%N ->
  digit_of (digit_char x) = Some (Z.of_N x) /\
  Ascii.eqb (digit_char x) "_" = false /\
  Ascii.eqb (digit_char x) "-" = false /\
  Ascii.eqb (digit_char x) "+" = false /\
  is_space (digit_char x) = false.
Proof.
  intros H.
  assert (x = 0 \/ x = 1 \/ x = 2 \/ x = 3 \/ x = 4 \/ x = 5 \/ x = 6 \/ x = 7
          \/ x = 8 \/ x = 9)%N as Hx by lia.
  repeat (destruct Hx as [->|Hx]; [repeat split; reflexivity|]).
  subst x. repeat split; reflexivity.
Qed.

Lemma pos_lt_pow2_size_nat p : (Npos p < 2 ^ N.of_nat (Pos.size_nat p))%N.
Proof.
  induction p as [p IH|p IH|]; cbn [Pos.size_nat];
    rewrite ?Nnat.Nat2N.inj_succ, ?N.pow_succ_r'; [lia | lia | reflexivity].
Qed.

(** With enough fuel, the digits of a positive number parse back to it. *)
Lemma parse_digits_digits_go fuel : forall n acc prev,
  (0 < n)%N -> (n < 2 ^ N.of_nat fuel)%N ->
  parse_digits (digits_go fuel n acc) 0 prev = parse_digits acc (Z.of_N n) true.
Proof.
  induction fuel as [|fuel IH]; intros n acc prev Hpos Hlt.
  - simpl in Hlt. lia.
  - cbn [digits_go].
    destruct (n =? 0)%N eqn:E; [apply N.eqb_eq in E; lia|].
    assert (Hmod : (n mod 10 < 10)%N) by (apply N.mod_lt; lia).
    destruct (digit_char_spec _ Hmod) as (Hd & Hu & _).
    assert (Hn : Z.of_N n = 10 * Z.of_N (n / 10) + Z.of_N (n mod 10)).
    { rewrite (N.div_mod n 10) at 1 by lia. lia. }
    destruct (N.eq_dec (n / 10)%N 0%N) as [Hz|Hnz].
    + rewrite Hz in *. destruct fuel; cbn [digits_go parse_digits];
        rewrite ?N.eqb_refl; cbn [parse_digits]; rewrite Hu, Hd, Hn; reflexivity.
    + rewrite IH.
      * cbn [parse_digits]. rewrite Hu, Hd, Hn. reflexivity.
      * lia.
      * rewrite Nnat.Nat2N.inj_succ, N.pow_succ_r' in Hlt.
        apply N.Div0.div_lt_upper_bound. lia.
Qed.

Lemma digits_go_no_space fuel : forall n acc,
  lstrip acc = acc -> rstrip acc = acc -> acc <> "" ->
  let s := digits_go fuel n acc in
  lstrip s = s /\ rstrip s = s /\ s <> "".
Proof.
  induction fuel as [|fuel IH]; intros n acc Hl Hr Hne; cbn [digits_go]; [auto|].
  destruct (n =? 0)%N; [auto|].
  assert (Hmod : (n mod 10 < 10)%N) by (apply N.mod_lt; lia).
  destruct (digit_char_spec _ Hmod) as (_ & _ & _ & _ & Hsp).
  apply IH.
  - cbn [lstrip]. rewrite Hsp. reflexivity.
  - cbn [rstrip]. rewrite Hr. destruct acc; [contradiction | reflexivity].
  - discriminate.
Qed.

(** The first digit of a number is neither a sign nor white space, and the
    text of a positive number is not empty. *)
Lemma str_of_N_shape n :
  (0 < n)%N ->
  exists c r,
    str_of_N n = String c r /\
    Ascii.eqb c "-" = false /\ Ascii.eqb c "+" = false /\
    lstrip (str_of_N n) = str_of_N n /\ rstrip (str_of_N n) = str_of_N n /\
    parse_digits (str_of_N n) 0 false = Some (Z.of_N n).
Proof.
  intros Hpos. unfold str_of_N.
  destruct (n =? 0)%N eqn:E; [apply N.eqb_eq in E; lia|].
  assert (Hlt : (n < 2 ^ N.of_nat (S (N.size_nat n)))%N).
  { destruct n as [|p]; [lia|]. cbn [N.size_nat].
    rewrite Nnat.Nat2N.inj_succ, N.pow_succ_r'.
    pose proof (pos_lt_pow2_size_nat p). lia. }
  pose proof (parse_digits_digits_go (S (N.size_nat n)) n "" false Hpos Hlt) as Hp.
  cbn [parse_digits] in Hp.
  (* the first character *)
  cbn [digits_go] in *. rewrite E in *.
  assert (Hmod : (n mod 10 < 10)%N) by (apply N.mod_lt; lia).
  set (acc := String (digit_char (n mod 10)) "") in *.
  assert (Hacc : lstrip acc = acc /\ rstrip acc = acc /\ acc <> "").
  { destruct (digit_char_spec _ Hmod) as (_ & _ & _ & _ & Hsp).
    unfold acc. cbn [lstrip rstrip]. rewrite Hsp. repeat split. discriminate. }
  destruct Hacc as (Hl & Hr & Hne).
  destruct (digits_go_no_space (N.size_nat n) (n / 10)%N acc Hl Hr Hne)
    as (Hl' & Hr' & Hne').
  destruct (digits_go (N.size_nat n) (n / 10)%N acc) as [|c r] eqn:Es;
    [contradiction|].
  exists c, r. split; [reflexivity|].
  assert (Hc : Ascii.eqb c "-" = false /\ Ascii.eqb c "+" = false).
  { cbn [parse_digits] in Hp.
    destruct (Ascii.eqb c "_"); [discriminate Hp|].
    unfold digit_of in Hp.
    destruct (Ascii.eqb_spec c "-") as [->|_]; [discriminate Hp|].
    destruct (Ascii.eqb_spec c "+") as [->|_]; [discriminate Hp|].
    split; reflexivity. }
  destruct Hc as [Hm Hplus].
  repeat split; assumption.
Qed.

Lemma int_str_of_Z z : int (VStr (str_of_Z z)) = Return z.
Proof.
  destruct z as [|p|p]; [reflexivity| |].
  - destruct (str_of_N_shape (Npos p)) as (c & r & Hs & Hm & Hp & Hl & Hr & Hd);
      [lia|].
    cbn [int str_of_Z]. unfold int_of_string. rewrite Hr, Hl, Hs, Hm, Hp.
    rewrite <- Hs, Hd. reflexivity.
  - destruct (str_of_N_shape (Npos p)) as (c & r & Hs & Hm & Hp & Hl & Hr & Hd);
      [lia|].
    cbn [int str_of_Z]. unfold int_of_string.
    assert (Hr' : rstrip (String "-" (str_of_N (N.pos p)))
                  = String "-" (str_of_N (N.pos p))).
    { cbn [rstrip]. rewrite Hr, Hs. reflexivity. }
    rewrite Hr'. cbn [lstrip]. change (is_space "-") with false. cbv iota.
    change (Ascii.eqb "-" "-") with true. cbv iota.
    rewrite Hd. reflexivity.
Qed.

(** What the A1 transform stores for an [int] water level converts back. *)
Lemma int_str_VInt z : int (VStr (str (VInt z))) = Return z.
Proof. apply int_str_of_Z. Qed.

(** ** Device A1: one iteration of the decode loop *)

Section A1_step.

Import A1.

Lemma a1_name_inj a b : name a = name b -> a = b.
Proof. destruct a, b; simpl; intros H; try reflexivity; discriminate H. Qed.

Lemma a1_assign_same self a v : _attributes (assign self a v) a = v.
Proof. simpl. apply fn_lookup_insert. Qed.

Lemma a1_assign_other self a b v :
  a <> b -> _attributes (assign self a v) b = _attributes self b.
Proof. intros H. simpl. apply fn_lookup_insert_ne, H. Qed.

(** The transform either raises before it assigns, or assigns [status] the
    decoded value. *)
Lemma a1_store_decoded status v self :
  store status v self =
  match decoded status v with
  | Return w => (assign self status w, Return tt)
  | Raise e => (self, Raise e)
  end.
Proof.
  destruct status; try reflexivity.
  - (* mode *)
    unfold store, decoded, bind, lift.
    destruct (le_int v (len _modes)) as [[|]|e]; try reflexivity.
    destruct (sub_int v 1) as [i|e]; [|reflexivity].
    destruct (getitem _modes i) as [label|e]; reflexivity.
  - (* fan_speed *)
    unfold store, decoded. destruct (dict_contains _speeds v); [|reflexivity].
    destruct (dict_get _speeds v); reflexivity.
Qed.

Lemma a1_store_cases status v self :
  (exists e, store status v self = (self, Raise e)) \/
  (exists w, decoded status v = Return w /\
             store status v self = (assign self status w, Return tt)).
Proof.
  rewrite a1_store_decoded. destruct (decoded status v) as [w|e].
  - right. exists w. split; reflexivity.
  - left. exists e. reflexivity.
Qed.

(** The derived attribute and the report entry, spelled out. *)
Lemma a1_derive_and_report_eq status new_status self :
  derive_and_report status new_status self =
  match int (_attributes self water_level_set) with
  | Raise e => (self, Raise e)
  | Return water_level =>
      match tank_full_calculated (_attributes self tank) water_level with
      | Raise e => (self, Raise e)
      | Return calculated =>
          if tank_full_stale (_attributes self tank_full) calculated then
            let self' := assign self tank_full (VBool calculated) in
            (self', Return (<[name status := _attributes self' status]>
                              (<[name tank_full := VBool calculated]> new_status)))
          else (self, Return (<[name status := _attributes self status]> new_status))
      end
  end.
Proof.
  unfold derive_and_report, bind, lift, get, ret. simpl.
  destruct (int (_attributes self water_level_set)) as [w|e]; [|reflexivity].
  destruct (tank_full_calculated (_attributes self tank) w) as [c|e]; [|reflexivity].
  destruct (tank_full_stale (_attributes self tank_full) c); reflexivity.
Qed.

(** What an iteration that returns has done, for an attribute the message
    exposes: [s1] is the device after the transform. *)
Lemma a1_process_status_inv message new_status status self self' rep v :
  getattr message (name status) = Some v ->
  process_status message new_status status self = (self', Return rep) ->
  exists w water_level calculated,
    let s1 := assign self status w in
    decoded status v = Return w /\
    int (_attributes s1 water_level_set) = Return water_level /\
    tank_full_calculated (_attributes s1 tank) water_level = Return calculated /\
    ((tank_full_stale (_attributes s1 tank_full) calculated = true /\
      self' = assign s1 tank_full (VBool calculated) /\
      rep = <[name status := _attributes self' status]>
              (<[name tank_full := VBool calculated]> new_status)) \/
     (tank_full_stale (_attributes s1 tank_full) calculated = false /\
      self' = s1 /\
      rep = <[name status := _attributes s1 status]> new_status)).
Proof.
  intros Hv. unfold process_status. rewrite Hv.
  destruct (a1_store_cases status v self) as [[e He]|[w [Hd Hw]]].
  - rewrite (bind_Raise _ _ _ _ _ He). discriminate.
  - rewrite (bind_Return _ _ _ _ _ Hw), a1_derive_and_report_eq.
    set (s1 := assign self status w).
    destruct (int (_attributes s1 water_level_set)) as [wl|e] eqn:Hwl;
      [|discriminate].
    destruct (tank_full_calculated (_attributes s1 tank) wl) as [c|e] eqn:Hc;
      [|discriminate].
    destruct (tank_full_stale (_attributes s1 tank_full) c) eqn:St;
      intros H; inversion H; subst self' rep; clear H;
      exists w, wl, c; (split; [exact Hd|]); (split; [exact Hwl|]);
      (split; [exact Hc|]).
    + left. split; [exact St|]. split; reflexivity.
    + right. split; [exact St|]. split; reflexivity.
Qed.

Lemma a1_process_status_absent message new_status status self :
  getattr message (name status) = None ->
  process_status message new_status status self = (self, Return new_status).
Proof. intros H. unfold process_status. rewrite H. reflexivity. Qed.

(** An iteration leaves the protocol version alone. *)
Lemma a1_process_status_version message new_status status self self' rep :
  process_status message new_status status self = (self', Return rep) ->
  _message_protocol_version self' = _message_protocol_version self.
Proof.
  destruct (getattr message (name status)) as [v|] eqn:Hv.
  - intros H. destruct (a1_process_status_inv _ _ _ _ _ _ _ Hv H)
      as (w & wl & c & _ & _ & _ & [(_ & -> & _)|(_ & -> & _)]); reflexivity.
  - rewrite (a1_process_status_absent _ _ _ _ Hv). intros H. inversion H. reflexivity.
Qed.

(** An iteration assigns at most [status] and the derived [tank_full]. *)
Lemma a1_process_status_frame message new_status status self self' rep a :
  process_status message new_status status self = (self', Return rep) ->
  a <> tank_full ->
  a <> status \/ getattr message (name status) = None ->
  _attributes self' a = _attributes self a.
Proof.
  intros H Htf Ha.
  destruct (getattr message (name status)) as [v|] eqn:Hv.
  - destruct Ha as [Ha|Ha]; [|discriminate Ha].
    destruct (a1_process_status_inv _ _ _ _ _ _ _ Hv H)
      as (w & wl & c & _ & _ & _ & [(_ & -> & _)|(_ & -> & _)]).
    + rewrite a1_assign_other by congruence. apply a1_assign_other. congruence.
    + apply a1_assign_other. congruence.
  - rewrite (a1_process_status_absent _ _ _ _ Hv) in H. inversion H. reflexivity.
Qed.

(** An iteration writes at most the report entries of [status] and of
    [tank_full]. *)
Lemma a1_process_status_report_frame message new_status status self self' rep k :
  process_status message new_status status self = (self', Return rep) ->
  k <> name tank_full ->
  k <> name status \/ getattr message (name status) = None ->
  rep !! k = new_status !! k.
Proof.
  intros H Htf Hk.
  destruct (getattr message (name status)) as [v|] eqn:Hv.
  - destruct Hk as [Hk|Hk]; [|discriminate Hk].
    destruct (a1_process_status_inv _ _ _ _ _ _ _ Hv H)
      as (w & wl & c & _ & _ & _ & [(_ & _ & ->)|(_ & _ & ->)]).
    + rewrite !lookup_insert_ne by congruence. reflexivity.
    + rewrite lookup_insert_ne by congruence. reflexivity.
  - rewrite (a1_process_status_absent _ _ _ _ Hv) in H. inversion H. reflexivity.
Qed.

(** An exposed attribute is reported at its value in the device. *)
Lemma a1_process_status_reported message new_status status self self' rep :
  is_Some (getattr message (name status)) ->
  process_status message new_status status self = (self', Return rep) ->
  rep !! name status = Some (_attributes self' status).
Proof.
  intros [v Hv] H.
  destruct (a1_process_status_inv _ _ _ _ _ _ _ Hv H)
    as (w & wl & c & _ & _ & _ & [(_ & Hs & ->)|(_ & Hs & ->)]).
  - apply lookup_insert_eq.
  - rewrite Hs. apply lookup_insert_eq.
Qed.

(** [tank_full] and its report entry: both untouched, or the entry is the
    value in the device. *)
Lemma a1_process_status_tank_full message new_status status self self' rep :
  process_status message new_status status self = (self', Return rep) ->
  (_attributes self' tank_full = _attributes self tank_full /\
   rep !! name tank_full = new_status !! name tank_full) \/
  rep !! name tank_full = Some (_attributes self' tank_full).
Proof.
  intros H.
  destruct (getattr message (name status)) as [v|] eqn:Hv.
  - destruct (decide (status = tank_full)) as [->|Hne].
    + right. apply (a1_process_status_reported message new_status tank_full self);
        [eauto | exact H].
    + destruct (a1_process_status_inv _ _ _ _ _ _ _ Hv H)
        as (w & wl & c & _ & _ & _ & [(_ & -> & ->)|(_ & -> & ->)]).
      * right. rewrite lookup_insert_ne by (intros E; apply a1_name_inj in E; congruence).
        rewrite lookup_insert_eq, a1_assign_same. reflexivity.
      * left. split.
        -- apply a1_assign_other. exact Hne.
        -- apply lookup_insert_ne. intros E. apply a1_name_inj in E. congruence.
  - rewrite (a1_process_status_absent _ _ _ _ Hv) in H. inversion H. subst.
    left. split; reflexivity.
Qed.

(** Every entry of the report is the value the device holds: an iteration
    keeps it so. *)
Lemma a1_process_status_sync message new_status status self self' rep :
  process_status message new_status status self = (self', Return rep) ->
  (forall a v, new_status !! name a = Some v -> v = _attributes self a) ->
  forall a v, rep !! name a = Some v -> v = _attributes self' a.
Proof.
  intros H Hsync a v Ha.
  destruct (getattr message (name status)) as [x|] eqn:Hx.
  - destruct (decide (a = status)) as [->|Hne].
    + rewrite (a1_process_status_reported message new_status status self self' rep) in Ha
        by eauto.
      congruence.
    + destruct (decide (a = tank_full)) as [->|Htf].
      * destruct (a1_process_status_tank_full _ _ _ _ _ _ H) as [[E1 E2]|E].
        -- rewrite E1. apply Hsync. rewrite <- E2. exact Ha.
        -- congruence.
      * rewrite (a1_process_status_frame _ _ _ _ _ _ a H) by auto.
        apply Hsync.
        rewrite <- (a1_process_status_report_frame _ _ _ _ _ _ (name a) H); [exact Ha| |].
        -- intros E. apply a1_name_inj in E. congruence.
        -- left. intros E. apply a1_name_inj in E. congruence.
  - rewrite (a1_process_status_absent _ _ _ _ Hx) in H. inversion H. subst.
    apply Hsync, Ha.
Qed.

(** An iteration removes nothing from the report. *)
Lemma a1_process_status_mono message new_status status self self' rep k :
  process_status message new_status status self = (self', Return rep) ->
  is_Some (new_status !! k) -> is_Some (rep !! k).
Proof.
  intros H Hk.
  destruct (getattr message (name status)) as [v|] eqn:Hv.
  - destruct (a1_process_status_inv _ _ _ _ _ _ _ Hv H)
      as (w & wl & c & _ & _ & _ & [(_ & _ & ->)|(_ & _ & ->)]);
      rewrite ?lookup_insert; repeat case_decide; eauto.
  - rewrite (a1_process_status_absent _ _ _ _ Hv) in H. inversion H. subst. exact Hk.
Qed.

(** A value that is stale differs from the computed boolean. *)
Lemma a1_tank_full_stale_differs x c :
  tank_full_stale x c = true -> x <> VBool c.
Proof. intros H ->. destruct c; discriminate H. Qed.

(** When the message does not expose [tank_full], an iteration enters it in
    the report only by changing it. *)
Lemma a1_process_status_tank_full_entered message new_status status self self' rep :
  getattr message (name tank_full) = None ->
  process_status message new_status status self = (self', Return rep) ->
  new_status !! name tank_full = None ->
  is_Some (rep !! name tank_full) ->
  _attributes self' tank_full <> _attributes self tank_full.
Proof.
  intros Htf H Hns [x Hx].
  destruct (getattr message (name status)) as [v|] eqn:Hv.
  2:{ rewrite (a1_process_status_absent _ _ _ _ Hv) in H. inversion H. subst.
      congruence. }
  assert (Hne : status <> tank_full) by (intros ->; congruence).
  destruct (a1_process_status_inv _ _ _ _ _ _ _ Hv H)
    as (w & wl & c & _ & _ & _ & [(St & -> & _)|(_ & _ & ->)]).
  - rewrite a1_assign_same.
    rewrite a1_assign_other in St by exact Hne.
    intros E. apply (a1_tank_full_stale_differs _ _ St). symmetry. exact E.
  - rewrite lookup_insert_ne in Hx
      by (intros E; apply a1_name_inj in E; congruence).
    congruence.
Qed.

End A1_step.

(** ** Device A1: the decode loop *)

Section A1_loop.

Import A1.

Variable message : MessageResponse.

Lemma a1_loop_version l : forall new_status self self' rep,
  for_each (process_status message) l new_status self = (self', Return rep) ->
  _message_protocol_version self' = _message_protocol_version self.
Proof.
  induction l as [|x l IH]; intros ns self self' rep H.
  - inversion H. reflexivity.
  - apply for_each_cons_inv in H as (s1 & ns1 & H1 & H2).
    rewrite (IH _ _ _ _ H2). eapply a1_process_status_version, H1.
Qed.

Lemma a1_loop_frame l a : forall new_status self self' rep,
  for_each (process_status message) l new_status self = (self', Return rep) ->
  a <> tank_full ->
  ~ In a l \/ getattr message (name a) = None ->
  _attributes self' a = _attributes self a.
Proof.
  induction l as [|x l IH]; intros ns self self' rep H Htf Ha.
  - inversion H. reflexivity.
  - apply for_each_cons_inv in H as (s1 & ns1 & H1 & H2).
    rewrite (IH _ _ _ _ H2 Htf).
    + apply (a1_process_status_frame _ _ _ _ _ _ a H1 Htf).
      destruct Ha as [Ha|Ha].
      * left. intros ->. apply Ha. left. reflexivity.
      * destruct (decide (a = x)) as [->|Hne]; [right; exact Ha | left; exact Hne].
    + destruct Ha as [Ha|Ha]; [left | right; exact Ha].
      intros Hin. apply Ha. right. exact Hin.
Qed.

Lemma a1_loop_report_frame l k : forall new_status self self' rep,
  for_each (process_status message) l new_status self = (self', Return rep) ->
  k <> name tank_full ->
  (forall a, In a l -> is_Some (getattr message (name a)) -> k <> name a) ->
  rep !! k = new_status !! k.
Proof.
  induction l as [|x l IH]; intros ns self self' rep H Htf Hk.
  - inversion H. reflexivity.
  - apply for_each_cons_inv in H as (s1 & ns1 & H1 & H2).
    rewrite (IH _ _ _ _ H2 Htf).
    + apply (a1_process_status_report_frame _ _ _ _ _ _ k H1 Htf).
      destruct (getattr message (name x)) as [v|] eqn:Hv; [left | right; reflexivity].
      apply Hk; [left; reflexivity | rewrite Hv; eauto].
    + intros a Hin. apply Hk. right. exact Hin.
Qed.

Lemma a1_loop_sync l : forall new_status self self' rep,
  for_each (process_status message) l new_status self = (self', Return rep) ->
  (forall a v, new_status !! name a = Some v -> v = _attributes self a) ->
  forall a v, rep !! name a = Some v -> v = _attributes self' a.
Proof.
  induction l as [|x l IH]; intros ns self self' rep H Hsync.
  - inversion H. subst. exact Hsync.
  - apply for_each_cons_inv in H as (s1 & ns1 & H1 & H2).
    apply (IH _ _ _ _ H2). eapply a1_process_status_sync; eassumption.
Qed.

Lemma a1_loop_mono l k : forall new_status self self' rep,
  for_each (process_status message) l new_status self = (self', Return rep) ->
  is_Some (new_status !! k) -> is_Some (rep !! k).
Proof.
  induction l as [|x l IH]; intros ns self self' rep H Hk.
  - inversion H. subst. exact Hk.
  - apply for_each_cons_inv in H as (s1 & ns1 & H1 & H2).
    apply (IH _ _ _ _ H2). eapply a1_process_status_mono; eassumption.
Qed.

Lemma a1_loop_reported l a : forall new_status self self' rep,
  for_each (process_status message) l new_status self = (self', Return rep) ->
  In a l -> is_Some (getattr message (name a)) ->
  is_Some (rep !! name a).
Proof.
  induction l as [|x l IH]; intros ns self self' rep H Hin Ha; [destruct Hin|].
  apply for_each_cons_inv in H as (s1 & ns1 & H1 & H2).
  destruct Hin as [->|Hin].
  - apply (a1_loop_mono _ _ _ _ _ _ H2).
    rewrite (a1_process_status_reported _ _ _ _ _ _ Ha H1). eauto.
  - apply (IH _ _ _ _ H2 Hin Ha).
Qed.

Lemma a1_loop_tank_full l : forall new_status self self' rep,
  for_each (process_status message) l new_status self = (self', Return rep) ->
  (_attributes self' tank_full = _attributes self tank_full /\
   rep !! name tank_full = new_status !! name tank_full) \/
  is_Some (rep !! name tank_full).
Proof.
  induction l as [|x l IH]; intros ns self self' rep H.
  - inversion H. subst. left. split; reflexivity.
  - apply for_each_cons_inv in H as (s1 & ns1 & H1 & H2).
    destruct (a1_process_status_tank_full _ _ _ _ _ _ H1) as [[E1 E2]|E].
    + destruct (IH _ _ _ _ H2) as [[F1 F2]|F]; [left | right; exact F].
      split; congruence.
    + right. apply (a1_loop_mono _ _ _ _ _ _ H2). rewrite E. eauto.
Qed.

(** When the message does not expose [tank_full], the loop reports it only
    after an iteration that changed it. *)
Lemma a1_loop_tank_full_entered l : forall new_status self self' rep,
  getattr message (name tank_full) = None ->
  for_each (process_status message) l new_status self = (self', Return rep) ->
  new_status !! name tank_full = None ->
  is_Some (rep !! name tank_full) ->
  exists l1 a l2 s1 rep1 s2 rep2,
    l = (l1 ++ a :: l2)%list /\
    for_each (process_status message) l1 new_status self = (s1, Return rep1) /\
    process_status message rep1 a s1 = (s2, Return rep2) /\
    _attributes s2 tank_full <> _attributes s1 tank_full.
Proof.
  induction l as [|x l IH]; intros ns self self' rep Htf H Hns Hrep.
  - inversion H. subst. destruct Hrep as [y Hy]. congruence.
  - apply for_each_cons_inv in H as (s1 & ns1 & H1 & H2).
    destruct (ns1 !! name tank_full) as [y|] eqn:Hy.
    + exists [], x, l, self, ns, s1, ns1.
      split; [reflexivity|]. split; [reflexivity|]. split; [exact H1|].
      apply (a1_process_status_tank_full_entered _ _ _ _ _ _ Htf H1 Hns).
      rewrite Hy. eauto.
    + destruct (IH _ _ _ _ Htf H2 Hy Hrep)
        as (l1 & a & l2 & t1 & r1 & t2 & r2 & -> & Hl1 & Ha & Hch).
      exists (x :: l1), a, l2, t1, r1, t2, r2.
      split; [reflexivity|]. split; [|split; [exact Ha | exact Hch]].
      cbn [for_each]. rewrite (bind_Return _ _ _ _ _ H1). exact Hl1.
Qed.

(** An iteration that changed [tank_full] is followed by its report. *)
Lemma a1_loop_tank_full_changed l1 a l2 : forall new_status self self' rep s1 rep1 s2 rep2,
  for_each (process_status message) (l1 ++ a :: l2)%list new_status self
  = (self', Return rep) ->
  for_each (process_status message) l1 new_status self = (s1, Return rep1) ->
  process_status message rep1 a s1 = (s2, Return rep2) ->
  _attributes s2 tank_full <> _attributes s1 tank_full ->
  is_Some (rep !! name tank_full).
Proof.
  intros ns self self' rep s1 rep1 s2 rep2 H Hl1 Ha Hch.
  apply for_each_app_inv in H as (t1 & r1 & Hl1' & H).
  rewrite Hl1 in Hl1'. inversion Hl1'. subst t1 r1.
  apply for_each_cons_inv in H as (t2 & r2 & Ha' & H).
  rewrite Ha in Ha'. inversion Ha'. subst t2 r2.
  apply (a1_loop_mono _ _ _ _ _ _ H).
  destruct (a1_process_status_tank_full _ _ _ _ _ _ Ha) as [[E _]|E].
  - contradiction.
  - rewrite E. eauto.
Qed.

(** An exposed attribute other than the derived one holds the decoding of
    its raw value when the loop is over. *)
Lemma a1_process_status_assigned new_status status self self' rep v :
  status <> tank_full ->
  getattr message (name status) = Some v ->
  process_status message new_status status self = (self', Return rep) ->
  decoded status v = Return (_attributes self' status).
Proof.
  intros Hne Hv H.
  destruct (a1_process_status_inv _ _ _ _ _ _ _ Hv H)
    as (w & wl & c & Hd & _ & _ & [(_ & -> & _)|(_ & -> & _)]); rewrite Hd; f_equal.
  - rewrite a1_assign_other by congruence. symmetry. apply a1_assign_same.
  - symmetry. apply a1_assign_same.
Qed.

Lemma a1_loop_assigned l a v : forall new_status self self' rep,
  a <> tank_full ->
  In a l ->
  getattr message (name a) = Some v ->
  for_each (process_status message) l new_status self = (self', Return rep) ->
  decoded a v = Return (_attributes self' a).
Proof.
  induction l as [|x l IH]; intros ns self self' rep Hne Hin Hv H; [destruct Hin|].
  apply for_each_cons_inv in H as (s1 & ns1 & H1 & H2).
  destruct (in_dec DeviceAttributes_eq_dec a l) as [Hl|Hl].
  - apply (IH _ _ _ _ Hne Hl Hv H2).
  - destruct Hin as [->|Hin]; [|contradiction].
    rewrite (a1_loop_frame _ a _ _ _ _ H2 Hne) by (left; exact Hl).
    apply (a1_process_status_assigned _ _ _ _ _ _ Hne Hv H1).
Qed.

End A1_loop.

Lemma a1_attribute_keys_complete a : In a A1.attribute_keys.
Proof. destruct a; simpl; tauto. Qed.

(** ** Decode loops without derived attributes (B1 and EC)

    Both loops have the same shape: an attribute the message does not expose
    is skipped, an exposed one is assigned some value, which is reported. *)

Section plain_loop.

Context {A D : Type} `{EqDecision A}.
Variable name : A -> string.
Variable attributes : D -> A -> value.
Variable message : MessageResponse.
Variable body : gmap string value -> A -> M D (gmap string value).

Hypothesis name_inj : forall a b, name a = name b -> a = b.
Hypothesis body_absent : forall new_status a self,
  getattr message (name a) = None -> body new_status a self = (self, Return new_status).
Hypothesis body_exposed : forall new_status a self self' rep,
  is_Some (getattr message (name a)) ->
  body new_status a self = (self', Return rep) ->
  exists w, attributes self' = <[a := w]> (attributes self) /\
            rep = <[name a := w]> new_status.

Lemma plain_loop_frame l a : forall new_status self self' rep,
  for_each body l new_status self = (self', Return rep) ->
  ~ In a l \/ getattr message (name a) = None ->
  attributes self' a = attributes self a.
Proof.
  induction l as [|x l IH]; intros ns self self' rep H Ha.
  - inversion H. reflexivity.
  - apply for_each_cons_inv in H as (s1 & ns1 & H1 & H2).
    rewrite (IH _ _ _ _ H2).
    + destruct (getattr message (name x)) as [v|] eqn:Hv.
      * destruct (body_exposed ns x self s1 ns1) as (w & -> & _); [rewrite Hv; eauto | exact H1 |].
        apply fn_lookup_insert_ne. intros <-.
        destruct Ha as [Ha|Ha]; [apply Ha; left; reflexivity | congruence].
      * rewrite (body_absent _ _ _ Hv) in H1. inversion H1. reflexivity.
    + destruct Ha as [Ha|Ha]; [left | right; exact Ha].
      intros Hin. apply Ha. right. exact Hin.
Qed.

Lemma plain_loop_report_frame l k : forall new_status self self' rep,
  for_each body l new_status self = (self', Return rep) ->
  (forall a, In a l -> is_Some (getattr message (name a)) -> k <> name a) ->
  rep !! k = new_status !! k.
Proof.
  induction l as [|x l IH]; intros ns self self' rep H Hk.
  - inversion H. reflexivity.
  - apply for_each_cons_inv in H as (s1 & ns1 & H1 & H2).
    rewrite (IH _ _ _ _ H2).
    + destruct (getattr message (name x)) as [v|] eqn:Hv.
      * destruct (body_exposed ns x self s1 ns1) as (w & _ & ->); [rewrite Hv; eauto | exact H1 |].
        apply lookup_insert_ne. intros E. symmetry in E. revert E.
        apply Hk; [left; reflexivity | rewrite Hv; eauto].
      * rewrite (body_absent _ _ _ Hv) in H1. inversion H1. reflexivity.
    + intros a Hin. apply Hk. right. exact Hin.
Qed.

Lemma plain_loop_sync l : forall new_status self self' rep,
  for_each body l new_status self = (self', Return rep) ->
  (forall a v, new_status !! name a = Some v -> v = attributes self a) ->
  forall a v, rep !! name a = Some v -> v = attributes self' a.
Proof.
  induction l as [|x l IH]; intros ns self self' rep H Hsync.
  - inversion H. subst. exact Hsync.
  - apply for_each_cons_inv in H as (s1 & ns1 & H1 & H2).
    apply (IH _ _ _ _ H2). intros a v.
    destruct (getattr message (name x)) as [y|] eqn:Hy.
    + destruct (body_exposed ns x self s1 ns1) as (w & -> & ->); [rewrite Hy; eauto | exact H1 |].
      destruct (decide (x = a)) as [->|Hne].
      * rewrite lookup_insert_eq, fn_lookup_insert. congruence.
      * rewrite lookup_insert_ne by (intros E; apply name_inj in E; congruence).
        rewrite fn_lookup_insert_ne by exact Hne. apply Hsync.
    + rewrite (body_absent _ _ _ Hy) in H1. inversion H1. subst. apply Hsync.
Qed.

Lemma plain_loop_mono l k : forall new_status self self' rep,
  for_each body l new_status self = (self', Return rep) ->
  is_Some (new_status !! k) -> is_Some (rep !! k).
Proof.
  induction l as [|x l IH]; intros ns self self' rep H Hk.
  - inversion H. subst. exact Hk.
  - apply for_each_cons_inv in H as (s1 & ns1 & H1 & H2).
    apply (IH _ _ _ _ H2).
    destruct (getattr message (name x)) as [y|] eqn:Hy.
    + destruct (body_exposed ns x self s1 ns1) as (w & _ & ->); [rewrite Hy; eauto | exact H1 |].
      rewrite lookup_insert. case_decide; eauto.
    + rewrite (body_absent _ _ _ Hy) in H1. inversion H1. subst. exact Hk.
Qed.

Lemma plain_loop_reported l a : forall new_status self self' rep,
  for_each body l new_status self = (self', Return rep) ->
  In a l -> is_Some (getattr message (name a)) ->
  is_Some (rep !! name a).
Proof.
  induction l as [|x l IH]; intros ns self self' rep H Hin Ha; [destruct Hin|].
  apply for_each_cons_inv in H as (s1 & ns1 & H1 & H2).
  destruct Hin as [->|Hin].
  - apply (plain_loop_mono _ _ _ _ _ _ H2).
    destruct (body_exposed ns a self s1 ns1) as (w & _ & ->); [exact Ha | exact H1 |].
    rewrite lookup_insert_eq. eauto.
  - apply (IH _ _ _ _ H2 Hin Ha).
Qed.

(** The report of a whole pass that starts from the empty report, when the
    loop runs over every attribute. *)
Lemma plain_loop_report l self self' rep :
  (forall a, In a l) ->
  for_each body l ∅ self = (self', Return rep) ->
  (forall a, is_Some (getattr message (name a)) ->
     rep !! name a = Some (attributes self' a)) /\
  (forall a, getattr message (name a) = None ->
     attributes self' a = attributes self a /\ rep !! name a = None) /\
  (forall k, is_Some (rep !! k) ->
     exists a, k = name a /\ is_Some (getattr message k)).
Proof.
  intros Hall H.
  assert (Hrep : forall a, is_Some (getattr message (name a)) ->
                     rep !! name a = Some (attributes self' a)).
  { intros a Ha.
    destruct (plain_loop_reported _ a _ _ _ _ H (Hall a) Ha) as [v Hv].
    rewrite Hv. f_equal. apply (plain_loop_sync _ _ _ _ _ H); [|exact Hv].
    intros b w Hb. rewrite lookup_empty in Hb. discriminate. }
  assert (Hnone : forall k,
            (forall a, is_Some (getattr message (name a)) -> k <> name a) ->
            rep !! k = None).
  { intros k Hk. rewrite (plain_loop_report_frame _ k _ _ _ _ H).
    - apply lookup_empty.
    - intros a _. apply Hk. }
  split; [exact Hrep|]. split.
  - intros a Ha. split.
    + apply (plain_loop_frame _ a _ _ _ _ H). right. exact Ha.
    + apply Hnone. intros b Hb E. apply name_inj in E. subst b.
      rewrite Ha in Hb. destruct Hb as [? Hb]. discriminate.
  - intros k Hk.
    destruct (decide (k ∈ map name (filter (fun a => is_Some (getattr message (name a))) l)))
      as [Hin|Hout].
    + apply list_elem_of_In, in_map_iff in Hin as (a & <- & Hin).
      exists a. split; [reflexivity|].
      apply list_elem_of_In, list_elem_of_filter in Hin as [Hin _]. exact Hin.
    + exfalso. rewrite Hnone in Hk; [destruct Hk as [? Hk]; discriminate|].
      intros a Ha ->. apply Hout. apply list_elem_of_In, in_map.
      apply list_elem_of_In, list_elem_of_filter. split; [exact Ha|].
      apply list_elem_of_In, Hall.
Qed.

(** When the assigned value is a function [decoded] of the raw value, an
    exposed attribute holds the decoding of its raw value after the loop. *)
Variable decoded : A -> value -> outcome value.
Hypothesis body_decoded : forall new_status a self self' rep v,
  getattr message (name a) = Some v ->
  body new_status a self = (self', Return rep) ->
  decoded a v = Return (attributes self' a).

Lemma plain_loop_assigned l a v : forall new_status self self' rep,
  In a l ->
  getattr message (name a) = Some v ->
  for_each body l new_status self = (self', Return rep) ->
  decoded a v = Return (attributes self' a).
Proof.
  induction l as [|x l IH]; intros ns self self' rep Hin Hv H; [destruct Hin|].
  apply for_each_cons_inv in H as (s1 & ns1 & H1 & H2).
  destruct (decide (a ∈ l)) as [Hl|Hl].
  - apply list_elem_of_In in Hl. apply (IH _ _ _ _ Hl Hv H2).
  - destruct Hin as [->|Hin]; [|apply list_elem_of_In in Hin; contradiction].
    rewrite (plain_loop_frame _ a _ _ _ _ H2)
      by (left; intros Hin; apply Hl, list_elem_of_In, Hin).
    apply (body_decoded _ _ _ _ _ _ Hv H1).
Qed.

End plain_loop.

(** ** Devices B1 and EC: one iteration of the decode loop *)

Lemma b1_name_inj a b : B1.name a = B1.name b -> a = b.
Proof. destruct a, b; simpl; intros H; try reflexivity; discriminate H. Qed.

Lemma b1_process_status_absent message new_status a self :
  getattr message (B1.name a) = None ->
  B1.process_status message new_status a self = (self, Return new_status).
Proof. intros H. unfold B1.process_status. rewrite H. reflexivity. Qed.

(** The B1 loop body never raises. *)
Lemma b1_process_status_exposed message new_status a self :
  is_Some (getattr message (B1.name a)) ->
  exists w,
    B1.process_status message new_status a self =
    (B1.assign self a w, Return (<[B1.name a := w]> new_status)).
Proof.
  intros [v Hv]. unfold B1.process_status. rewrite Hv.
  destruct a; try (exists v; reflexivity).
  destruct (dict_contains B1._status v); eexists; reflexivity.
Qed.

Lemma b1_process_status_inv message new_status a self self' rep :
  is_Some (getattr message (B1.name a)) ->
  B1.process_status message new_status a self = (self', Return rep) ->
  exists w, B1._attributes self' = <[a := w]> (B1._attributes self) /\
            rep = <[B1.name a := w]> new_status.
Proof.
  intros Ha H. destruct (b1_process_status_exposed message new_status a self Ha) as [w Hw].
  rewrite Hw in H. inversion H. subst. exists w. split; reflexivity.
Qed.

Lemma b1_attribute_keys_complete a : In a B1.attribute_keys.
Proof. destruct a; simpl; tauto. Qed.

Lemma ec_name_inj a b : EC.name a = EC.name b -> a = b.
Proof. destruct a, b; simpl; intros H; try reflexivity; discriminate H. Qed.

Lemma ec_process_status_absent message new_status a self :
  getattr message (EC.name a) = None ->
  EC.process_status message new_status a self = (self, Return new_status).
Proof. intros H. unfold EC.process_status. rewrite H. reflexivity. Qed.

(** An iteration of the EC loop raises before it assigns, or assigns the
    exposed attribute and reports the assigned value. *)
Lemma ec_process_status_cases message new_status a self :
  is_Some (getattr message (EC.name a)) ->
  (exists e, EC.process_status message new_status a self = (self, Raise e)) \/
  (exists w, EC.process_status message new_status a self =
             (EC.assign self a w, Return (<[EC.name a := w]> new_status))).
Proof.
  intros [v Hv]. unfold EC.process_status. rewrite Hv.
  destruct a; try (right; exists v; reflexivity).
  - (* mode *)
    unfold bind, lift.
    destruct (lt_int v (len EC._mode_list)) as [[|]|e].
    + destruct (getitem_value EC._mode_list v) as [label|e].
      * right. eexists. reflexivity.
      * left. eexists. reflexivity.
    + right. eexists. reflexivity.
    + left. eexists. reflexivity.
  - (* progress *)
    unfold bind, lift.
    destruct (lt_int v (len EC._progress)) as [[|]|e].
    + destruct (getitem_value EC._progress v) as [label|e].
      * right. eexists. reflexivity.
      * left. eexists. reflexivity.
    + right. eexists. reflexivity.
    + left. eexists. reflexivity.
Qed.

Lemma ec_process_status_inv message new_status a self self' rep :
  is_Some (getattr message (EC.name a)) ->
  EC.process_status message new_status a self = (self', Return rep) ->
  exists w, EC._attributes self' = <[a := w]> (EC._attributes self) /\
            rep = <[EC.name a := w]> new_status.
Proof.
  intros Ha H.
  destruct (ec_process_status_cases message new_status a self Ha) as [[e He]|[w Hw]].
  - rewrite He in H. discriminate H.
  - rewrite Hw in H. inversion H. subst. exists w. split; reflexivity.
Qed.

Lemma ec_attribute_keys_complete a : In a EC.attribute_keys.
Proof. destruct a; simpl; tauto. Qed.

(** An exposed attribute of B1 or EC is assigned the decoding of its raw
    value. *)
Lemma b1_process_status_decoded message new_status a self v :
  getattr message (B1.name a) = Some v ->
  B1.process_status message new_status a self =
  match B1.decoded a v with
  | Return w => (B1.assign self a w, Return (<[B1.name a := w]> new_status))
  | Raise e => (self, Raise e)
  end.
Proof.
  intros Hv. unfold B1.process_status. rewrite Hv.
  destruct a; try reflexivity.
  unfold B1.decoded. destruct (dict_contains B1._status v); [|reflexivity].
  destruct (dict_get B1._status v); reflexivity.
Qed.

Lemma b1_process_status_assigned message new_status a self self' rep v :
  getattr message (B1.name a) = Some v ->
  B1.process_status message new_status a self = (self', Return rep) ->
  B1.decoded a v = Return (B1._attributes self' a).
Proof.
  intros Hv. rewrite (b1_process_status_decoded _ _ _ _ _ Hv).
  destruct (B1.decoded a v) as [w|e]; intros H; inversion H.
  simpl. rewrite fn_lookup_insert. reflexivity.
Qed.

Lemma ec_process_status_decoded message new_status a self v :
  getattr message (EC.name a) = Some v ->
  EC.process_status message new_status a self =
  match EC.decoded a v with
  | Return w => (EC.assign self a w, Return (<[EC.name a := w]> new_status))
  | Raise e => (self, Raise e)
  end.
Proof.
  intros Hv. unfold EC.process_status. rewrite Hv.
  destruct a; try reflexivity.
  - (* mode *)
    unfold EC.decoded, bind, lift.
    destruct (lt_int v (len EC._mode_list)) as [[|]|e]; try reflexivity.
    destruct (getitem_value EC._mode_list v) as [label|e]; reflexivity.
  - (* progress *)
    unfold EC.decoded, bind, lift.
    destruct (lt_int v (len EC._progress)) as [[|]|e]; try reflexivity.
    destruct (getitem_value EC._progress v) as [label|e]; reflexivity.
Qed.

Lemma ec_process_status_assigned message new_status a self self' rep v :
  getattr message (EC.name a) = Some v ->
  EC.process_status message new_status a self = (self', Return rep) ->
  EC.decoded a v = Return (EC._attributes self' a).
Proof.
  intros Hv. rewrite (ec_process_status_decoded _ _ _ _ _ Hv).
  destruct (EC.decoded a v) as [w|e]; intros H; inversion H.
  simpl. rewrite fn_lookup_insert. reflexivity.
Qed.

(** ** Device A1: a whole decode pass *)

Lemma a1_process_message_eq message self :
  A1.process_message message self =
  for_each (A1.process_status message) A1.attribute_keys ∅
    {| A1._attributes := A1._attributes self;
       A1._message_protocol_version := protocol_version message |}.
Proof. reflexivity. Qed.

(** The report of a pass: the exposed attributes at the value the device
    holds, and [tank_full] when the pass assigned it. *)
Lemma a1_process_message_report message self self' rep :
  A1.process_message message self = (self', Return rep) ->
  (forall a, is_Some (getattr message (A1.name a)) ->
     rep !! A1.name a = Some (A1._attributes self' a)) /\
  (forall a, getattr message (A1.name a) = None -> a <> A1.tank_full ->
     A1._attributes self' a = A1._attributes self a /\ rep !! A1.name a = None) /\
  (forall k, is_Some (rep !! k) ->
     exists a, k = A1.name a /\ (is_Some (getattr message k) \/ a = A1.tank_full)) /\
  (forall a v, rep !! A1.name a = Some v -> v = A1._attributes self' a) /\
  (A1._attributes self' A1.tank_full <> A1._attributes self A1.tank_full ->
     rep !! A1.name A1.tank_full = Some (A1._attributes self' A1.tank_full)).
Proof.
  rewrite a1_process_message_eq. intros H.
  assert (Hsync : forall a v, rep !! A1.name a = Some v -> v = A1._attributes self' a).
  { apply (a1_loop_sync _ _ _ _ _ _ H). intros a v Ha.
    rewrite lookup_empty in Ha. discriminate. }
  assert (Hnone : forall k, k <> A1.name A1.tank_full ->
            (forall a, is_Some (getattr message (A1.name a)) -> k <> A1.name a) ->
            rep !! k = None).
  { intros k Htf Hk. rewrite (a1_loop_report_frame _ _ k _ _ _ _ H Htf).
    - apply lookup_empty.
    - intros a _. apply Hk. }
  split; [|split; [|split; [|split]]].
  - intros a Ha.
    destruct (a1_loop_reported _ _ a _ _ _ _ H (a1_attribute_keys_complete a) Ha)
      as [v Hv].
    rewrite Hv. f_equal. apply Hsync, Hv.
  - intros a Ha Htf. split.
    + rewrite (a1_loop_frame _ _ a _ _ _ _ H Htf); [reflexivity | right; exact Ha].
    + apply Hnone.
      * intros E. apply a1_name_inj in E. contradiction.
      * intros b Hb E. apply a1_name_inj in E. subst b.
        rewrite Ha in Hb. destruct Hb as [? Hb]. discriminate.
  - intros k Hk.
    destruct (decide (k = A1.name A1.tank_full)) as [->|Htf].
    { exists A1.tank_full. split; [reflexivity | right; reflexivity]. }
    destruct (decide (k ∈ map A1.name
                (filter (fun a => is_Some (getattr message (A1.name a)))
                        A1.attribute_keys))) as [Hin|Hout].
    + apply list_elem_of_In, in_map_iff in Hin as (a & <- & Hin).
      exists a. split; [reflexivity|]. left.
      apply list_elem_of_In, list_elem_of_filter in Hin as [Hin _]. exact Hin.
    + exfalso. rewrite Hnone in Hk; [destruct Hk as [? Hk]; discriminate | exact Htf |].
      intros a Ha ->. apply Hout. apply list_elem_of_In, in_map.
      apply list_elem_of_In, list_elem_of_filter. split; [exact Ha|].
      apply list_elem_of_In, a1_attribute_keys_complete.
  - exact Hsync.
  - intros Hch. destruct (a1_loop_tank_full _ _ _ _ _ _ H) as [[E _]|[v Hv]].
    + contradiction.
    + rewrite Hv. f_equal. apply Hsync, Hv.
Qed.

Lemma py_eq_VBool_inv b c : equal (VBool b) (VBool c) = true -> b = c.
Proof. destruct b, c; simpl; intros H; try reflexivity; discriminate H. Qed.

(** The value of [tank >= water_level if bool(tank) else False] when it has
    one: for a tank level that is a number [t] (an [int], or a [bool] taken
    as 0 or 1), [t] is not 0 and [t >= water_level]; for [None] and the empty
    string, false.  Any other tank level is truthy and cannot be ordered
    against the water level. *)
Lemma a1_tank_full_calculated_value tank_v water_level c :
  A1.tank_full_calculated tank_v water_level = Return c ->
  match as_number tank_v with
  | Some t => c = A1.tank_full_of t water_level
  | None => c = false
  end.
Proof.
  unfold A1.tank_full_calculated, A1.tank_full_of, ge_int.
  destruct tank_v as [|b|z|t]; cbn [truth as_number].
  - intros H. inversion H. reflexivity.
  - destruct b; intros H; inversion H; reflexivity.
  - destruct (negb (z =? 0)); intros H; inversion H; reflexivity.
  - destruct (negb (String.eqb t "")); intros H; inversion H. reflexivity.
Qed.



(** ** The report of a decode pass, for the three devices *)

(** C8: a decode pass of A1, B1 or EC that returns a report has left every
    attribute the message does not expose at its previous value and out of
    the report, and the report holds exactly the exposed attributes, each at
    the value the device now holds (changed or not), which is the decoding
    of the raw value the message carries.  For A1 the derived [tank_full] is
    the one exception: it may change and be reported without being exposed.
    When the message does not expose it, it is in the report exactly when
    some iteration of the pass changed it; every report entry, [tank_full]
    included, is the value the device holds, and a [tank_full] that differs
    from its value before the pass is in the report. *)
Theorem decode_report_is_snapshot_of_exposed_attributes :
  (forall message self self' rep,
     A1.process_message message self = (self', Return rep) ->
     (forall a, is_Some (getattr message (A1.name a)) ->
        rep !! A1.name a = Some (A1._attributes self' a)) /\
     (forall a, getattr message (A1.name a) = None -> a <> A1.tank_full ->
        A1._attributes self' a = A1._attributes self a /\ rep !! A1.name a = None) /\
     (forall k, is_Some (rep !! k) ->
        exists a, k = A1.name a /\
                  (is_Some (getattr message k) \/ a = A1.tank_full)) /\
     (forall a v, rep !! A1.name a = Some v -> v = A1._attributes self' a) /\
     (A1._attributes self' A1.tank_full <> A1._attributes self A1.tank_full ->
        rep !! A1.name A1.tank_full = Some (A1._attributes self' A1.tank_full)) /\
     (forall a v, a <> A1.tank_full -> getattr message (A1.name a) = Some v ->
        A1.decoded a v = Return (A1._attributes self' a)) /\
     (getattr message (A1.name A1.tank_full) = None ->
        (is_Some (rep !! A1.name A1.tank_full) <->
         A1.tank_full_changes message self))) /\
  (forall message self self' rep,
     B1.process_message message self = (self', Return rep) ->
     (forall a, is_Some (getattr message (B1.name a)) ->
        rep !! B1.name a = Some (B1._attributes self' a)) /\
     (forall a, getattr message (B1.name a) = None ->
        B1._attributes self' a = B1._attributes self a /\ rep !! B1.name a = None) /\
     (forall k, is_Some (rep !! k) ->
        exists a, k = B1.name a /\ is_Some (getattr message k)) /\
     (forall a v, getattr message (B1.name a) = Some v ->
        B1.decoded a v = Return (B1._attributes self' a))) /\
  (forall message self self' rep,
     EC.process_message message self = (self', Return rep) ->
     (forall a, is_Some (getattr message (EC.name a)) ->
        rep !! EC.name a = Some (EC._attributes self' a)) /\
     (forall a, getattr message (EC.name a) = None ->
        EC._attributes self' a = EC._attributes self a /\ rep !! EC.name a = None) /\
     (forall k, is_Some (rep !! k) ->
        exists a, k = EC.name a /\ is_Some (getattr message k)) /\
     (forall a v, getattr message (EC.name a) = Some v ->
        EC.decoded a v = Return (EC._attributes self' a))).
Proof.
  split; [|split].
  - intros message self self' rep H.
    destruct (a1_process_message_report _ _ _ _ H) as (R1 & R2 & R3 & R4 & R5).
    repeat (split; [assumption|]).
    rewrite a1_process_message_eq in H. split.
    + intros a v Hne Hv.
      apply (a1_loop_assigned message A1.attribute_keys a v _ _ _ _
               Hne (a1_attribute_keys_complete _) Hv H).
    + intros Htf. split.
      * intros Hrep.
        apply (a1_loop_tank_full_entered message A1.attribute_keys _ _ _ _
                 Htf H (lookup_empty _) Hrep).
      * intros (l1 & a & l2 & s1 & rep1 & s2 & rep2 & Hl & Hl1 & Ha & Hch).
        rewrite Hl in H.
        apply (a1_loop_tank_full_changed message l1 a l2 _ _ _ _ _ _ _ _
                 H Hl1 Ha Hch).
  - intros message self self' rep H.
    destruct (plain_loop_report B1.name B1._attributes message
                (B1.process_status message) b1_name_inj
                (b1_process_status_absent message)
                (b1_process_status_inv message)
                B1.attribute_keys self self' rep b1_attribute_keys_complete H)
      as (R1 & R2 & R3).
    repeat (split; [assumption|]).
    intros a v Hv.
    apply (plain_loop_assigned B1.name B1._attributes message
             (B1.process_status message)
             (b1_process_status_absent message)
             (b1_process_status_inv message)
             B1.decoded (b1_process_status_assigned message)
             B1.attribute_keys a v ∅ self self' rep
             (b1_attribute_keys_complete _) Hv H).
  - intros message self self' rep H.
    destruct (plain_loop_report EC.name EC._attributes message
                (EC.process_status message) ec_name_inj
                (ec_process_status_absent message)
                (ec_process_status_inv message)
                EC.attribute_keys self self' rep ec_attribute_keys_complete H)
      as (R1 & R2 & R3).
    repeat (split; [assumption|]).
    intros a v Hv.
    apply (plain_loop_assigned EC.name EC._attributes message
             (EC.process_status message)
             (ec_process_status_absent message)
             (ec_process_status_inv message)
             EC.decoded (ec_process_status_assigned message)
             EC.attribute_keys a v ∅ self self' rep
             (ec_attribute_keys_complete _) Hv H).
Qed.

(** A pass over a message that exposes [tank] and [water_level_set] only:
    [mode], which it does not expose, keeps its value and is not reported. *)
Lemma decode_report_witness :
  let message :=
    {| protocol_version := 3;
       message_fields := {[ "tank" := VInt 60; "water_level_set" := VInt 50 ]} |} in
  let self' := fst (A1.process_message message (A1.init 2)) in
  let rep : gmap string value :=
    {[ "tank" := VInt 60; "water_level_set" := VStr "50";
       "tank_full" := VBool true ]} in
  A1._attributes self' A1.mode = VNone /\ rep !! A1.name A1.mode = None.
Proof.
  intros message self' rep.
  apply (proj1 decode_report_is_snapshot_of_exposed_attributes
           message (A1.init 2) self' rep).
  - vm_compute. reflexivity.
  - reflexivity.
  - discriminate.
Defined.

(** ** Device A1: decoding the mode *)

(** A raw mode above the table length decodes to [None]; a raw mode from 1
    to the table length decodes to the label at that 1-based position. *)
Lemma a1_decoded_mode_above z :
  len A1._modes < z -> A1.decoded A1.mode (VInt z) = Return VNone.
Proof.
  intros H. cbn [A1.decoded le_int as_number].
  destruct (z <=? len A1._modes) eqn:E; [|reflexivity].
  apply Z.leb_le in E. lia.
Qed.

Lemma a1_decoded_mode_in_table z :
  1 <= z <= len A1._modes ->
  exists label, nth_error A1._modes (Z.to_nat (z - 1)) = Some label /\
                A1.decoded A1.mode (VInt z) = Return (VStr label).
Proof.
  intros H. cbn [A1.decoded le_int sub_int as_number].
  destruct (z <=? len A1._modes) eqn:E; [|apply Z.leb_gt in E; lia].
  destruct (getitem_in_range A1._modes (z - 1)) as (label & Hg & Hn); [lia|].
  exists label. rewrite Hg. split; [exact Hn | reflexivity].
Qed.

(** C10: a raw mode of 0 passes the guard [value <= len(_modes)], and the
    index [-1] selects the last label of the table: after a decode pass over
    a message whose mode field is 0, the stored and the reported mode are
    "Shoes-Dry", not [None]. *)
Theorem a1_raw_mode_zero_decodes_to_last_label
    (message : MessageResponse) (self self' : A1.device)
    (rep : gmap string value) :
  getattr message (A1.name A1.mode) = Some (VInt 0) ->
  A1.process_message message self = (self', Return rep) ->
  le_int (VInt 0) (len A1._modes) = Return true /\
  getitem A1._modes (0 - 1) = Return "Shoes-Dry" /\
  last A1._modes = Some "Shoes-Dry" /\
  A1._attributes self' A1.mode = VStr "Shoes-Dry" /\
  rep !! A1.name A1.mode = Some (VStr "Shoes-Dry").
Proof.
  intros Hv H.
  assert (Hm : A1._attributes self' A1.mode = VStr "Shoes-Dry").
  { rewrite a1_process_message_eq in H.
    pose proof (a1_loop_assigned message A1.attribute_keys A1.mode (VInt 0)
                  _ _ _ _ ltac:(discriminate) (a1_attribute_keys_complete _) Hv H) as E.
    change (A1.decoded A1.mode (VInt 0)) with (Return (VStr "Shoes-Dry")) in E.
    inversion E. reflexivity. }
  split; [reflexivity|]. split; [reflexivity|]. split; [reflexivity|].
  split; [exact Hm|].
  rewrite <- Hm.
  apply (proj1 (a1_process_message_report _ _ _ _ H)). rewrite Hv. eauto.
Qed.

Lemma a1_raw_mode_zero_witness :
  let message := {| protocol_version := 2; message_fields := {[ "mode" := VInt 0 ]} |} in
  A1._attributes (fst (A1.process_message message (A1.init 2))) A1.mode
  = VStr "Shoes-Dry".
Proof.
  intros message.
  apply (a1_raw_mode_zero_decodes_to_last_label message (A1.init 2)
           (fst (A1.process_message message (A1.init 2)))
           {[ "mode" := VStr "Shoes-Dry"; "tank_full" := VBool false ]}).
  - reflexivity.
  - vm_compute. reflexivity.
Defined.

(** C4: decoding raw mode codes on a fresh A1 device.  Code 3 gives the third
    label and code 9 gives [None]; code 0, which selects no position of the
    1-based table, gives the last label instead of [None]. *)
Theorem a1_mode_decode_of_raw_0_3_9 :
  let decode raw :=
    A1.process_message {| protocol_version := 2; message_fields := {[ "mode" := VInt raw ]} |}
      (A1.init 2) in
  A1._attributes (fst (decode 3)) A1.mode = VStr "Auto" /\
  nth_error A1._modes 2 = Some "Auto" /\
  A1._attributes (fst (decode 9)) A1.mode = VNone /\
  A1._attributes (fst (decode 0)) A1.mode = VStr "Shoes-Dry" /\
  snd (decode 0) = Return {[ "mode" := VStr "Shoes-Dry"; "tank_full" := VBool false ]}.
Proof. vm_compute. repeat split; reflexivity. Qed.

(** ** Device A1: encoding *)

Section A1_encode.

Import A1.

Context `{cls : MessageSetProperties}.

(** [make_message_set] leaves the device alone; it raises exactly when one
    of the three conversions raises. *)
Lemma a1_make_message_set_eq self :
  make_message_set self =
  match encoded_mode (_attributes self mode) with
  | Raise e => (self, Raise e)
  | Return mode_code =>
      match encoded_fan_speed (_attributes self fan_speed) with
      | Raise e => (self, Raise e)
      | Return speed =>
          match int (_attributes self water_level_set) with
          | Raise e => (self, Raise e)
          | Return level => (self, Return (message_set_of self mode_code speed level))
          end
      end
  end.
Proof.
  unfold make_message_set, encoded_mode, encoded_fan_speed, bind, lift, get, ret,
    get_message_protocol_version.
  destruct (contains _modes (_attributes self mode)).
  - destruct (index _modes (_attributes self mode)) as [i|e]; [|reflexivity].
    destruct (_attributes self fan_speed) as [|b|z|t].
    + destruct (int (_attributes self water_level_set)); reflexivity.
    + destruct (index (values _speeds) (VBool b)) as [j|e]; [|reflexivity].
      destruct (getitem (keys _speeds) j); [|reflexivity].
      destruct (int (_attributes self water_level_set)); reflexivity.
    + destruct (index (values _speeds) (VInt z)) as [j|e]; [|reflexivity].
      destruct (getitem (keys _speeds) j); [|reflexivity].
      destruct (int (_attributes self water_level_set)); reflexivity.
    + destruct (index (values _speeds) (VStr t)) as [j|e]; [|reflexivity].
      destruct (getitem (keys _speeds) j); [|reflexivity].
      destruct (int (_attributes self water_level_set)); reflexivity.
  - destruct (_attributes self fan_speed) as [|b|z|t].
    + destruct (int (_attributes self water_level_set)); reflexivity.
    + destruct (index (values _speeds) (VBool b)) as [j|e]; [|reflexivity].
      destruct (getitem (keys _speeds) j); [|reflexivity].
      destruct (int (_attributes self water_level_set)); reflexivity.
    + destruct (index (values _speeds) (VInt z)) as [j|e]; [|reflexivity].
      destruct (getitem (keys _speeds) j); [|reflexivity].
      destruct (int (_attributes self water_level_set)); reflexivity.
    + destruct (index (values _speeds) (VStr t)) as [j|e]; [|reflexivity].
      destruct (getitem (keys _speeds) j); [|reflexivity].
      destruct (int (_attributes self water_level_set)); reflexivity.
Qed.

Lemma a1_make_message_set_inv self self' m :
  make_message_set self = (self', Return m) ->
  self' = self /\
  exists mode_code speed level,
    encoded_mode (_attributes self mode) = Return mode_code /\
    encoded_fan_speed (_attributes self fan_speed) = Return speed /\
    int (_attributes self water_level_set) = Return level /\
    m = message_set_of self mode_code speed level.
Proof.
  rewrite a1_make_message_set_eq.
  destruct (encoded_mode (_attributes self mode)) as [c|e]; [|discriminate].
  destruct (encoded_fan_speed (_attributes self fan_speed)) as [sp|e]; [|discriminate].
  destruct (int (_attributes self water_level_set)) as [lv|e]; [|discriminate].
  intros H. inversion H. split; [reflexivity|].
  exists c, sp, lv. repeat split; reflexivity.
Qed.

(** The fields of the built message. *)
Lemma a1_message_set_of_fields self mode_code speed level :
  let m := message_set_of self mode_code speed level in
  message_class m = MessageSet /\
  request_protocol_version m = _message_protocol_version self /\
  request_fields m !! "mode" = Some (VInt mode_code) /\
  request_fields m !! "fan_speed" = Some (VInt speed) /\
  request_fields m !! "water_level_set" = Some (VInt level) /\
  request_fields m !! "power" = Some (_attributes self power) /\
  request_fields m !! "prompt_tone" = Some (_attributes self prompt_tone) /\
  request_fields m !! "child_lock" = Some (_attributes self child_lock) /\
  request_fields m !! "target_humidity" = Some (_attributes self target_humidity) /\
  request_fields m !! "swing" = Some (_attributes self swing) /\
  request_fields m !! "anion" = Some (_attributes self anion).
Proof. repeat split. Qed.

(** The override leaves the device alone, whatever the name. *)
Lemma a1_override_device m attr v self : fst (override m attr v self) = self.
Proof.
  unfold override, bind, lift, ret.
  repeat match goal with
         | |- context [if ?b then _ else _] => destruct b
         | |- context [match ?o with Return _ => _ | Raise _ => _ end] => destruct o
         end; reflexivity.
Qed.

(** For a name the message class does not declare, the override never
    raises; it writes at most the field named by the request. *)
Lemma a1_override_returns m attr v self :
  property attr = None ->
  exists m',
    override m attr v self = (self, Return m') /\
    message_class m' = message_class m /\
    request_protocol_version m' = request_protocol_version m /\
    (forall k, k <> attr -> request_fields m' !! k = request_fields m !! k).
Proof.
  assert (Hset : forall w, let m' := set_field m attr w in
            message_class m' = message_class m /\
            request_protocol_version m' = request_protocol_version m /\
            (forall k, k <> attr ->
               request_fields m' !! k = request_fields m !! k)).
  { intros w. repeat split. intros k Hk. simpl. apply lookup_insert_ne. congruence. }
  assert (Hid : message_class m = message_class m /\
                request_protocol_version m = request_protocol_version m /\
                (forall k, k <> attr ->
                   request_fields m !! k = request_fields m !! k))
    by (repeat split).
  intros Hfield. unfold override.
  destruct (String.eqb_spec attr (name mode)) as [->|_].
  { destruct (contains _modes v) eqn:Hc; [|exists m; split; [reflexivity | exact Hid]].
    destruct (contains_VStr _ _ Hc) as (t & -> & _).
    destruct (contains_index _ _ Hc) as (i & Hi & _).
    unfold bind, lift, ret. cbn [str]. rewrite Hi.
    eexists. split; [reflexivity | apply Hset]. }
  destruct (String.eqb_spec attr (name fan_speed)) as [->|_].
  { destruct (contains (values _speeds) v) eqn:Hc;
      [|exists m; split; [reflexivity | exact Hid]].
    destruct (contains_VStr _ _ Hc) as (t & -> & _).
    destruct (contains_index _ _ Hc) as (j & Hj & Hr).
    destruct (getitem_in_range (keys _speeds) j) as (sp & Hsp & _); [exact Hr|].
    unfold bind, lift, ret. cbn [str]. rewrite Hj, Hsp.
    eexists. split; [reflexivity | apply Hset]. }
  destruct (String.eqb_spec attr (name water_level_set)) as [->|_].
  { destruct (contains _water_level_sets v) eqn:Hc;
      [|exists m; split; [reflexivity | exact Hid]].
    destruct (contains_VStr _ _ Hc) as (t & -> & Hin).
    assert (exists lv, int (VStr t) = Return lv) as [lv Hlv].
    { simpl in Hin. destruct Hin as [<-|[<-|[<-|[<-|[]]]]]; eexists; reflexivity. }
    unfold bind, lift, ret. rewrite Hlv.
    eexists. split; [reflexivity | apply Hset]. }
  unfold lift, setattr. rewrite Hfield.
  eexists. split; [reflexivity | apply Hset].
Qed.

(** For a name the message class declares, the request is what the class
    makes of the assignment: the message its setter returns is transmitted,
    the exception it raises is the exception of the call, and nothing is
    transmitted then. *)
Lemma a1_set_attribute_property attr setter v self m :
  property attr = Some setter ->
  make_message_set self = (self, Return m) ->
  set_attribute attr v self =
  (self, match setter m v with
         | Return m' => Return [build_send m']
         | Raise e => Raise e
         end).
Proof.
  intros Hp Hm.
  assert (Hne : forall a, attr <> name a).
  { intros a ->. rewrite attribute_is_field in Hp. discriminate Hp. }
  unfold set_attribute, override.
  destruct (String.eqb_spec attr (name prompt_tone)) as [E|_];
    [destruct (Hne _ E)|].
  destruct (String.eqb_spec attr (name mode)) as [E|_]; [destruct (Hne _ E)|].
  destruct (String.eqb_spec attr (name fan_speed)) as [E|_]; [destruct (Hne _ E)|].
  destruct (String.eqb_spec attr (name water_level_set)) as [E|_];
    [destruct (Hne _ E)|].
  unfold bind, lift, ret, setattr. rewrite Hm, Hp.
  destruct (setter m v); reflexivity.
Qed.

(** A value outside the declared domain of an enumerated attribute
    overrides nothing. *)
Lemma a1_override_outside_domain m a v self :
  In a [mode; fan_speed; water_level_set] ->
  contains (domain a) v = false ->
  override m (name a) v self = (self, Return m).
Proof.
  intros Ha Hv. simpl in Ha.
  destruct Ha as [<-|[<-|[<-|[]]]]; unfold override; simpl in Hv |- *;
    unfold modes, fan_speeds, water_level_sets in Hv; rewrite Hv; reflexivity.
Qed.

(** [set_attribute] for any attribute but [prompt_tone]: encode the state,
    override, transmit. *)
Lemma a1_set_attribute_eq attr v self :
  attr <> name prompt_tone ->
  set_attribute attr v self =
  match make_message_set self with
  | (s, Return m) =>
      match override m attr v s with
      | (s', Return m') => (s', Return [build_send m'])
      | (s', Raise e) => (s', Raise e)
      end
  | (s, Raise e) => (s, Raise e)
  end.
Proof.
  intros Hne. unfold set_attribute.
  destruct (String.eqb_spec attr (name prompt_tone)) as [E|_]; [contradiction|].
  unfold bind, ret.
  destruct (make_message_set self) as [s [m|e]]; [|reflexivity].
  destruct (override m attr v s) as [s' [m'|e]]; reflexivity.
Qed.

End A1_encode.



(** C7: on A1, a request to set [mode], [fan_speed] or [water_level_set] to
    a value outside the declared domain of the attribute overrides nothing
    and raises nothing of its own: the call is the encoding of the unchanged
    state followed by its transmission, so the transmitted message is the one
    [make_message_set] builds, field by field. *)
Theorem a1_set_attribute_outside_domain_is_no_op `{cls : A1.MessageSetProperties}
    (a : A1.DeviceAttributes) (v : value) (self : A1.device) :
  In a [A1.mode; A1.fan_speed; A1.water_level_set] ->
  contains (A1.domain a) v = false ->
  A1.set_attribute (A1.name a) v self =
    (message <- A1.make_message_set ;; ret [build_send message]) self /\
  (forall m, A1.make_message_set self = (self, Return m) ->
     A1.set_attribute (A1.name a) v self = (self, Return [build_send m])).
Proof.
  intros Ha Hv.
  assert (Hne : A1.name a <> A1.name A1.prompt_tone).
  { intros E. apply a1_name_inj in E. subst a. simpl in Ha.
    destruct Ha as [E|[E|[E|[]]]]; discriminate E. }
  assert (Heq : A1.set_attribute (A1.name a) v self =
                (message <- A1.make_message_set ;; ret [build_send message]) self).
  { rewrite (a1_set_attribute_eq _ v self Hne). unfold bind, ret.
    destruct (A1.make_message_set self) as [s [m|e]]; [|reflexivity].
    rewrite (a1_override_outside_domain m a v s Ha Hv). reflexivity. }
  split; [exact Heq|].
  intros m Hm. rewrite Heq. unfold bind, ret. rewrite Hm. reflexivity.
Qed.

(** The scenario of the specification: a fan speed that is not in the table
    leaves the outbound fan-speed field at the encoding of the state. *)
Lemma a1_set_attribute_outside_domain_witness :
  A1.set_attribute (cls := A1.body_read_only) "fan_speed" (VStr "Turbo")
    (A1.init 2) =
  (A1.init 2, Return [build_send (A1.message_set_of (A1.init 2) 1 60 50)]).
Proof.
  apply (proj2 (a1_set_attribute_outside_domain_is_no_op
                  (cls := A1.body_read_only)
                  A1.fan_speed (VStr "Turbo") (A1.init 2)
                  ltac:(simpl; tauto) eq_refl)).
  reflexivity.
Defined.

(** ** Device A1: fallback codes of the full command *)

Lemma a1_encoded_mode_fallback v :
  contains A1._modes v = false -> A1.encoded_mode v = Return 1.
Proof. intros H. unfold A1.encoded_mode. rewrite H. reflexivity. Qed.

(** A label of the speeds table has a raw code. *)
Lemma a1_encoded_fan_speed_member v :
  contains (values A1._speeds) v = true ->
  exists speed, A1.encoded_fan_speed v = Return speed.
Proof.
  intros H. destruct (contains_VStr _ _ H) as (t & -> & _).
  destruct (contains_index _ _ H) as (j & Hj & Hr).
  destruct (getitem_in_range (keys A1._speeds) j Hr) as (sp & Hsp & _).
  exists sp. unfold A1.encoded_fan_speed. rewrite Hj. exact Hsp.
Qed.

Lemma a1_encoded_mode_returns v : exists code, A1.encoded_mode v = Return code.
Proof.
  unfold A1.encoded_mode. destruct (contains A1._modes v) eqn:H.
  - destruct (contains_index _ _ H) as (i & Hi & _). rewrite Hi. eauto.
  - eauto.
Qed.

(** C3, as the code has it: the full command is built without an exception
    whenever the stored fan speed is [None] or a label of the speeds table
    and the stored water level converts with [int]; a stored mode that is not
    in the mode table is then encoded as 1, the code of "Manual", and a fan
    speed of [None] as 40. *)
Theorem a1_make_message_set_fallbacks (self : A1.device) :
  A1.encodable self ->
  exists m,
    A1.make_message_set self = (self, Return m) /\
    (contains A1._modes (A1._attributes self A1.mode) = false ->
       request_fields m !! "mode" = Some (VInt 1)) /\
    (A1._attributes self A1.fan_speed = VNone ->
       request_fields m !! "fan_speed" = Some (VInt 40)) /\
    A1.encoded_mode (VStr "Manual") = Return 1 /\
    nth_error A1._modes 0 = Some "Manual".
Proof.
  intros [Hfan [lv Hlv]].
  destruct (a1_encoded_mode_returns (A1._attributes self A1.mode)) as [c Hc].
  assert (exists sp, A1.encoded_fan_speed (A1._attributes self A1.fan_speed) = Return sp)
    as [sp Hsp].
  { destruct Hfan as [E|E].
    - rewrite E. exists 40. reflexivity.
    - apply a1_encoded_fan_speed_member, E. }
  exists (A1.message_set_of self c sp lv).
  split; [rewrite a1_make_message_set_eq, Hc, Hsp, Hlv; reflexivity|].
  split; [|split; [|split; reflexivity]].
  - intros H. rewrite (a1_encoded_mode_fallback _ H) in Hc. inversion Hc. reflexivity.
  - intros H. rewrite H in Hsp. inversion Hsp. reflexivity.
Qed.

(** A fresh device: mode [None] is sent as 1. *)
Lemma a1_make_message_set_fallbacks_witness :
  exists m, A1.make_message_set (A1.init 2) = (A1.init 2, Return m) /\
            request_fields m !! "mode" = Some (VInt 1).
Proof.
  destruct (a1_make_message_set_fallbacks (A1.init 2)) as (m & Hm & Hmode & _).
  - split; [right; reflexivity | exists 50; reflexivity].
  - exists m. split; [exact Hm | apply Hmode; reflexivity].
Defined.

(** C3 as stated fails: a stored fan speed that is neither [None] nor in the
    speeds table is not replaced by 40; [list.index] raises [ValueError]. *)
Lemma a1_make_message_set_raises_on_unknown_fan_speed :
  contains (values A1._speeds) (VStr "Turbo") = false /\
  snd (A1.make_message_set (A1.assign (A1.init 2) A1.fan_speed (VStr "Turbo")))
    = Raise ValueError /\
  ~ exists m,
      A1.make_message_set (A1.assign (A1.init 2) A1.fan_speed (VStr "Turbo"))
      = (A1.assign (A1.init 2) A1.fan_speed (VStr "Turbo"), Return m).
Proof.
  split; [reflexivity|]. split; [reflexivity|].
  intros [m H]. apply (f_equal snd) in H. discriminate H.
Qed.

(** The decode loop keeps the device encodable: a pass that returns a
    report leaves a fan speed that is [None] or a label of the table, and a
    water level [int] converts. *)
Lemma a1_decoded_fan_speed v w :
  A1.decoded A1.fan_speed v = Return w ->
  w = VNone \/ contains (values A1._speeds) w = true.
Proof.
  unfold A1.decoded. destruct (dict_contains A1._speeds v);
    [|intros H; inversion H; left; reflexivity].
  destruct (dict_get A1._speeds v) as [label|] eqn:Hg;
    intros H; inversion H; [right | left; reflexivity].
  clear H H1. revert Hg. unfold A1._speeds. cbn [dict_get].
  repeat (destruct (equal _ v); [intros E; inversion E; reflexivity|]).
  discriminate.
Qed.

Lemma a1_loop_water_level message l : forall new_status self self' rep,
  In A1.water_level_set l ->
  is_Some (getattr message (A1.name A1.water_level_set)) ->
  for_each (A1.process_status message) l new_status self = (self', Return rep) ->
  exists level, int (A1._attributes self' A1.water_level_set) = Return level.
Proof.
  induction l as [|x l IH]; intros ns self self' rep Hin Hv H; [destruct Hin|].
  apply for_each_cons_inv in H as (s1 & ns1 & H1 & H2).
  destruct (in_dec A1.DeviceAttributes_eq_dec A1.water_level_set l) as [Hl|Hl].
  - apply (IH _ _ _ _ Hl Hv H2).
  - destruct Hin as [->|Hin]; [|contradiction].
    rewrite (a1_loop_frame message l A1.water_level_set _ _ _ _ H2)
      by (discriminate || (left; exact Hl)).
    destruct Hv as [v Hv].
    destruct (a1_process_status_inv _ _ _ _ _ _ _ Hv H1)
      as (w & wl & c & _ & Hwl & _ & [(_ & -> & _)|(_ & -> & _)]);
      exists wl; [rewrite a1_assign_other by discriminate|]; exact Hwl.
Qed.

Lemma a1_process_message_keeps_encodable message self self' rep :
  A1.encodable self ->
  A1.process_message message self = (self', Return rep) ->
  A1.encodable self'.
Proof.
  intros [Hfan Hwl]. rewrite a1_process_message_eq. intros H. split.
  - destruct (getattr message (A1.name A1.fan_speed)) as [v|] eqn:Hv.
    + apply (a1_decoded_fan_speed v).
      apply (a1_loop_assigned message A1.attribute_keys A1.fan_speed v _ _ _ _
               ltac:(discriminate) (a1_attribute_keys_complete _) Hv H).
    + rewrite (a1_loop_frame message _ A1.fan_speed _ _ _ _ H)
        by (discriminate || (right; exact Hv)).
      exact Hfan.
  - destruct (getattr message (A1.name A1.water_level_set)) as [v|] eqn:Hv.
    + eapply (a1_loop_water_level message A1.attribute_keys);
        [apply a1_attribute_keys_complete | rewrite Hv; eauto | exact H].
    + rewrite (a1_loop_frame message _ A1.water_level_set _ _ _ _ H)
        by (discriminate || (right; exact Hv)).
      exact Hwl.
Qed.

Lemma a1_init_encodable pv : A1.encodable (A1.init pv).
Proof. split; [right; reflexivity | exists 50; reflexivity]. Qed.

(** ** Round trips of the enumerated attributes *)

(** A label of the declared domain has a raw code: it is the code the
    override writes, it is the code the full command computes from a state
    that stores the label, and it decodes to the label. *)
Lemma a1_label_code `{cls : A1.MessageSetProperties} a L :
  In L (A1.domain a) ->
  exists code,
    (forall m self,
       A1.override m (A1.name a) (VStr L) self
       = (self, Return (set_field m (A1.name a) (VInt code)))) /\
    match a with
    | A1.mode => A1.encoded_mode (VStr L) = Return code
    | A1.fan_speed => A1.encoded_fan_speed (VStr L) = Return code
    | A1.water_level_set => int (VStr L) = Return code
    | _ => False
    end /\
    A1.decoded a (VInt code) = Return (VStr L).
Proof.
  destruct a; simpl; intros H; try contradiction;
    repeat (destruct H as [<-|H]; [eexists; repeat split; reflexivity|]);
    contradiction.
Qed.

(** C1, as the code has it: on A1, every label [L] of the declared domain of
    [mode], [fan_speed] or [water_level_set] survives the round trip, provided
    the state encodes.  Requesting [L] transmits a raw code that decodes to
    [L]; a state that stores [L] is encoded by the full command into a raw
    code that decodes to [L]; and a decode pass over a message carrying such
    a raw code stores and reports [L]. *)
Theorem a1_enumerated_labels_round_trip `{cls : A1.MessageSetProperties}
    (a : A1.DeviceAttributes) (L : string) (self : A1.device)
    (m : MessageRequest) :
  In L (A1.domain a) ->
  A1.make_message_set self = (self, Return m) ->
  round_trips (fun l => snd (A1.set_attribute (A1.name a) (VStr l) self))
    (A1.decoded a) (A1.name a) L /\
  (A1._attributes self a = VStr L ->
     exists raw, request_fields m !! A1.name a = Some raw /\
                 A1.decoded a raw = Return (VStr L)) /\
  (forall raw message dev dev' rep,
     A1.decoded a raw = Return (VStr L) ->
     getattr message (A1.name a) = Some raw ->
     A1.process_message message dev = (dev', Return rep) ->
     A1._attributes dev' a = VStr L /\ rep !! A1.name a = Some (VStr L)).
Proof.
  intros HL Hm.
  destruct (a1_label_code a L HL) as (code & Hov & Henc & Hdec).
  assert (Hne : a <> A1.tank_full /\ a <> A1.prompt_tone).
  { split; intros ->; exact Henc. }
  destruct Hne as [Htf Hpt].
  split; [|split].
  - exists (VInt code). split; [|exact Hdec].
    rewrite a1_set_attribute_eq, Hm, Hov
      by (intros E; apply a1_name_inj in E; contradiction).
    simpl. apply lookup_insert_eq.
  - intros Hst.
    destruct (a1_make_message_set_inv _ _ _ Hm)
      as (_ & c & sp & lv & Hc & Hsp & Hlv & ->).
    destruct (a1_message_set_of_fields self c sp lv)
      as (_ & _ & Fm & Ff & Fw & _).
    exists (VInt code). split; [|exact Hdec].
    destruct a; try contradiction; rewrite Hst in *.
    + rewrite Henc in Hc. inversion Hc. exact Fm.
    + rewrite Henc in Hsp. inversion Hsp. exact Ff.
    + rewrite Henc in Hlv. inversion Hlv. exact Fw.
  - intros raw message dev dev' rep Hraw Hv Hp.
    assert (E : A1._attributes dev' a = VStr L).
    { rewrite a1_process_message_eq in Hp.
      pose proof (a1_loop_assigned message A1.attribute_keys a raw _ _ _ _
                    Htf (a1_attribute_keys_complete _) Hv Hp) as E.
      rewrite Hraw in E. inversion E. reflexivity. }
    split; [exact E|]. rewrite <- E.
    apply (proj1 (a1_process_message_report _ _ _ _ Hp)). rewrite Hv. eauto.
Qed.

(** Requesting the mode "Auto" on a fresh device transmits the raw code 3,
    which decodes to "Auto". *)
Lemma a1_enumerated_labels_round_trip_witness :
  round_trips
    (fun l => snd (A1.set_attribute (cls := A1.body_read_only) "mode" (VStr l)
                     (A1.init 2)))
    (A1.decoded A1.mode) "mode" "Auto".
Proof.
  apply (a1_enumerated_labels_round_trip (cls := A1.body_read_only)
           A1.mode "Auto" (A1.init 2)
           (A1.message_set_of (A1.init 2) 1 60 50)).
  - simpl. tauto.
  - reflexivity.
Defined.

(** C1 as stated fails for the status domain of B1 and the progress domain
    of EC: these devices have no encoder.  [set_attribute] does nothing, so a
    request for a label of the table transmits no raw field to decode. *)
Lemma b1_ec_labels_do_not_round_trip :
  In "Standby" (values B1._status) /\
  ~ round_trips (fun l => snd (B1.set_attribute "status" (VStr l) (B1.init 2)))
      (B1.decoded B1.status) "status" "Standby" /\
  In "Idle" EC._progress /\
  ~ round_trips (fun l => snd (EC.set_attribute "progress" (VStr l) (EC.init 2)))
      (EC.decoded EC.progress) "progress" "Idle".
Proof.
  split; [simpl; tauto|]. split; [intros (raw & H & _); discriminate H|].
  split; [simpl; tauto|]. intros (raw & H & _). discriminate H.
Qed.

(** What B1 and EC do have is the decode direction: every entry of the
    status table is the decoding of its code, and every position of the
    progress table the decoding of its index. *)
Lemma b1_status_decodes code label :
  In (code, label) B1._status -> B1.decoded B1.status (VInt code) = Return (VStr label).
Proof.
  simpl. intros H.
  repeat (destruct H as [E|H]; [inversion E; reflexivity|]). contradiction.
Qed.

Lemma ec_progress_decodes i label :
  0 <= i -> nth_error EC._progress (Z.to_nat i) = Some label ->
  EC.decoded EC.progress (VInt i) = Return (VStr label).
Proof.
  intros H0 Hn.
  assert (Hlt : i < len EC._progress).
  { assert (Z.to_nat i < length EC._progress)%nat
      by (apply nth_error_Some; congruence).
    unfold len. lia. }
  cbn [EC.decoded lt_int as_number getitem_value].
  destruct (i <? len EC._progress) eqn:E; [|apply Z.ltb_ge in E; lia].
  destruct (getitem_in_range EC._progress i) as (x & Hg & Hx); [lia|].
  rewrite Hg. congruence.
Qed.

(** ** Device EC: decoding the program *)

Lemma ec_mode_list_length : len EC._mode_list = 200.
Proof. reflexivity. Qed.

Lemma ec_cloud_not_in_mode_list : ~ In "Cloud" EC._mode_list.
Proof.
  intros H. apply list_elem_of_In in H. revert H.
  apply (bool_decide_eq_false_1 ("Cloud" ∈ EC._mode_list)). vm_compute. reflexivity.
Qed.

(** C5: a raw program code below the length of the EC catalog (200) decodes
    to the catalog entry at that index, which for a reserved index is the
    label "unknown"; a code at or above the length decodes to "Cloud".
    "Cloud" is not an entry of the catalog, hence differs from "unknown", and
    it is a string, not [None].  The decoded label is both stored and
    reported by a decode pass. *)
Theorem ec_mode_decodes_by_catalog_or_cloud
    (message : MessageResponse) (self self' : EC.device)
    (rep : gmap string value) (raw : Z) :
  0 <= raw ->
  getattr message (EC.name EC.mode) = Some (VInt raw) ->
  EC.process_message message self = (self', Return rep) ->
  (raw < len EC._mode_list ->
     exists label, nth_error EC._mode_list (Z.to_nat raw) = Some label /\
                   EC._attributes self' EC.mode = VStr label /\
                   rep !! EC.name EC.mode = Some (VStr label)) /\
  (len EC._mode_list <= raw ->
     EC._attributes self' EC.mode = VStr "Cloud" /\
     rep !! EC.name EC.mode = Some (VStr "Cloud")) /\
  In "unknown" EC._mode_list /\
  ~ In "Cloud" EC._mode_list /\
  "Cloud" <> "unknown" /\
  VStr "Cloud" <> VNone.
Proof.
  intros H0 Hv H.
  pose proof (plain_loop_assigned EC.name EC._attributes message
                (EC.process_status message)
                (ec_process_status_absent message)
                (ec_process_status_inv message)
                EC.decoded (ec_process_status_assigned message)
                EC.attribute_keys EC.mode (VInt raw) ∅ self self' rep
                (ec_attribute_keys_complete _) Hv H) as Hd.
  pose proof (proj1 (plain_loop_report EC.name EC._attributes message
                (EC.process_status message) ec_name_inj
                (ec_process_status_absent message)
                (ec_process_status_inv message)
                EC.attribute_keys self self' rep ec_attribute_keys_complete H)
                EC.mode ltac:(rewrite Hv; eauto)) as Hr.
  cbn [EC.decoded lt_int as_number getitem_value] in Hd.
  split; [|split; [|split; [|split; [|split]]]].
  - intros Hlt.
    destruct (raw <? len EC._mode_list) eqn:E; [|apply Z.ltb_ge in E; lia].
    destruct (getitem_in_range EC._mode_list raw) as (label & Hg & Hn); [lia|].
    rewrite Hg in Hd. inversion Hd as [Hs].
    exists label. split; [exact Hn|]. split; [reflexivity|].
    rewrite Hr, <- Hs. reflexivity.
  - intros Hge.
    destruct (raw <? len EC._mode_list) eqn:E; [apply Z.ltb_lt in E; lia|].
    inversion Hd as [Hs]. split; [reflexivity|].
    rewrite Hr, <- Hs. reflexivity.
  - apply (nth_error_In EC._mode_list 94). reflexivity.
  - exact ec_cloud_not_in_mode_list.
  - discriminate.
  - discriminate.
Qed.

(** Index 100 is a reserved slot of the catalog: it decodes to "unknown". *)
Lemma ec_mode_decodes_witness :
  let message := {| protocol_version := 2; message_fields := {[ "mode" := VInt 100 ]} |} in
  exists label,
    nth_error EC._mode_list (Z.to_nat 100) = Some label /\
    EC._attributes (fst (EC.process_message message (EC.init 2))) EC.mode
    = VStr label /\
    label = "unknown".
Proof.
  intros message.
  assert (Hp : EC.process_message message (EC.init 2)
               = (fst (EC.process_message message (EC.init 2)),
                  Return {[ "mode" := VStr "unknown" ]})).
  { vm_compute. reflexivity. }
  assert (H0 : 0 <= 100) by lia.
  destruct (proj1 (ec_mode_decodes_by_catalog_or_cloud message (EC.init 2)
                     _ _ 100 H0 eq_refl Hp))
    as (label & Hn & Hs & _).
  - rewrite ec_mode_list_length. lia.
  - exists label. split; [exact Hn|]. split; [exact Hs|].
    vm_compute in Hn. inversion Hn. reflexivity.
Defined.

(** ** The protocol version across a decode pass *)

(** What every iteration keeps of the device, returning or raising, the
    loop keeps. *)
Lemma for_each_keeps {S A B : Type} (P : S -> Prop) (body : B -> A -> M S B) :
  (forall acc x s, P s -> P (fst (body acc x s))) ->
  forall l acc s, P s -> P (fst (for_each body l acc s)).
Proof.
  intros Hbody. induction l as [|x l IH]; intros acc s Hs; [exact Hs|].
  cbn [for_each]. unfold bind.
  pose proof (Hbody acc x s Hs) as H1.
  destruct (body acc x s) as [s1 [acc1|e]]; [apply IH|]; exact H1.
Qed.

Lemma a1_process_status_keeps_version message new_status status self :
  A1._message_protocol_version
    (fst (A1.process_status message new_status status self))
  = A1._message_protocol_version self.
Proof.
  unfold A1.process_status.
  destruct (getattr message (A1.name status)) as [v|]; [|reflexivity].
  unfold bind. rewrite a1_store_decoded.
  destruct (A1.decoded status v) as [w|e]; [|reflexivity].
  rewrite a1_derive_and_report_eq.
  destruct (int _) as [wl|e]; [|reflexivity].
  destruct (A1.tank_full_calculated _ wl) as [c|e]; [|reflexivity].
  destruct (A1.tank_full_stale _ c); reflexivity.
Qed.

(** A1 stores the version of the message it decodes, whether or not the
    pass raises later, and builds its next query and command with it. *)
Lemma a1_process_message_stores_version message self :
  A1._message_protocol_version (fst (A1.process_message message self))
  = protocol_version message.
Proof.
  rewrite a1_process_message_eq.
  apply (for_each_keeps
           (fun s => A1._message_protocol_version s = protocol_version message)).
  - intros acc x s Hs. rewrite a1_process_status_keeps_version. exact Hs.
  - reflexivity.
Qed.

Lemma a1_command_carries_decoded_version message self m s :
  A1.make_message_set (fst (A1.process_message message self)) = (s, Return m) ->
  request_protocol_version m = protocol_version message.
Proof.
  intros H. destruct (a1_make_message_set_inv _ _ _ H)
    as (_ & c & sp & lv & _ & _ & _ & ->).
  simpl. apply a1_process_message_stores_version.
Qed.

Lemma b1_process_status_keeps_version message new_status a self :
  B1._message_protocol_version (fst (B1.process_status message new_status a self))
  = B1._message_protocol_version self.
Proof.
  destruct (getattr message (B1.name a)) as [v|] eqn:Hv.
  - destruct (b1_process_status_exposed message new_status a self) as [w Hw];
      [rewrite Hv; eauto|].
    rewrite Hw. reflexivity.
  - rewrite (b1_process_status_absent _ _ _ _ Hv). reflexivity.
Qed.

Lemma ec_process_status_keeps_version message new_status a self :
  EC._message_protocol_version (fst (EC.process_status message new_status a self))
  = EC._message_protocol_version self.
Proof.
  destruct (getattr message (EC.name a)) as [v|] eqn:Hv.
  - rewrite (ec_process_status_decoded _ _ _ _ _ Hv).
    destruct (EC.decoded a v); reflexivity.
  - rewrite (ec_process_status_absent _ _ _ _ Hv). reflexivity.
Qed.

(** C9: what the three devices do with the protocol version of a decoded
    message.  A1 stores it, so its next query carries it.  B1 and EC never
    assign [_message_protocol_version]: whatever message they decode, their
    next query carries the version the device had before; a B1 or EC device
    at version 2 that decodes a message tagged 3 still queries with 2. *)
Theorem b1_and_ec_ignore_the_decoded_protocol_version :
  (forall message self,
     snd (A1.build_query (fst (A1.process_message message self)))
     = Return [new_message MessageQuery (protocol_version message)]) /\
  (forall message self,
     snd (B1.build_query (fst (B1.process_message message self)))
     = Return [new_message MessageQuery (B1._message_protocol_version self)]) /\
  (forall message self,
     snd (EC.build_query (fst (EC.process_message message self)))
     = Return [new_message MessageQuery (EC._message_protocol_version self)]) /\
  snd (B1.build_query
         (fst (B1.process_message
                 {| protocol_version := 3; message_fields := {[ "status" := VInt 3 ]} |}
                 (B1.init 2))))
  = Return [new_message MessageQuery 2] /\
  snd (EC.build_query
         (fst (EC.process_message
                 {| protocol_version := 3; message_fields := {[ "progress" := VInt 1 ]} |}
                 (EC.init 2))))
  = Return [new_message MessageQuery 2].
Proof.
  split; [|split; [|split; [|split; reflexivity]]].
  - intros message self. simpl. rewrite a1_process_message_stores_version.
    reflexivity.
  - intros message self. simpl. do 3 f_equal.
    apply (for_each_keeps
             (fun s => B1._message_protocol_version s
                       = B1._message_protocol_version self)).
    + intros acc x s Hs. rewrite b1_process_status_keeps_version. exact Hs.
    + reflexivity.
  - intros message self. simpl. do 3 f_equal.
    apply (for_each_keeps
             (fun s => EC._message_protocol_version s
                       = EC._message_protocol_version self)).
    + intros acc x s Hs. rewrite ec_process_status_keeps_version. exact Hs.
    + reflexivity.
Qed.


(** ** Decode passes return on well-typed messages *)

(** A loop whose iterations all return, under an invariant of the device,
    returns. *)
Lemma for_each_returns {S A B : Type} (P : S -> Prop) (body : B -> A -> M S B) :
  (forall acc x s, P s -> exists s' acc', body acc x s = (s', Return acc') /\ P s') ->
  forall l acc s, P s ->
    exists s' acc', for_each body l acc s = (s', Return acc') /\ P s'.
Proof.
  intros Hbody. induction l as [|x l IH]; intros acc s Hs.
  - exists s, acc. split; [reflexivity | exact Hs].
  - destruct (Hbody acc x s Hs) as (s1 & acc1 & H1 & Hs1).
    destruct (IH acc1 s1 Hs1) as (s2 & acc2 & H2 & Hs2).
    exists s2, acc2. split; [|exact Hs2].
    cbn [for_each]. rewrite (bind_Return _ _ _ _ _ H1). exact H2.
Qed.

Lemma a1_decoded_returns message status v :
  A1.well_typed message ->
  getattr message (A1.name status) = Some v ->
  exists w, A1.decoded status v = Return w.
Proof.
  intros (Hmode & _ & _) Hv.
  destruct status; try (exists v; reflexivity).
  - (* mode *)
    destruct (Hmode v Hv) as (z & -> & Hz).
    destruct (Z_le_gt_dec z (len A1._modes)) as [Hle|Hgt].
    + assert (z = 0 \/ z = 1 \/ z = 2 \/ z = 3 \/ z = 4 \/ z = 5) as Hc
        by (change (len A1._modes) with 5 in Hle; lia).
      repeat (destruct Hc as [->|Hc]; [eexists; reflexivity|]).
      subst z. eexists. reflexivity.
    + exists VNone. apply a1_decoded_mode_above. lia.
  - (* fan_speed *)
    unfold A1.decoded. destruct (dict_contains A1._speeds v); [|eauto].
    destruct (dict_get A1._speeds v); eauto.
  - (* water_level_set *)
    eexists. reflexivity.
Qed.

(** On a well-typed message, an iteration of the A1 loop returns and
    leaves a device on which the next one can run. *)
Lemma a1_process_status_returns message new_status status self :
  A1.well_typed message ->
  A1.decodable self ->
  exists self' rep,
    A1.process_status message new_status status self = (self', Return rep) /\
    A1.decodable self'.
Proof.
  intros Hwt Hdec.
  destruct (getattr message (A1.name status)) as [v|] eqn:Hv.
  2:{ exists self, new_status. split; [|exact Hdec].
      apply a1_process_status_absent, Hv. }
  destruct (a1_decoded_returns message status v Hwt Hv) as [w Hw].
  set (s1 := A1.assign self status w).
  assert (Hs1 : A1.decodable s1).
  { destruct Hwt as (_ & Htank & Hwl). destruct Hdec as [[t Ht] [lv Hlv]].
    unfold s1. split.
    - destruct (decide (status = A1.tank)) as [->|Hne].
      + destruct (Htank v Hv) as [z ->]. exists z.
        rewrite a1_assign_same. simpl in Hw. inversion Hw. reflexivity.
      + exists t. rewrite a1_assign_other by exact Hne. exact Ht.
    - destruct (decide (status = A1.water_level_set)) as [->|Hne].
      + destruct (Hwl v Hv) as [z ->]. exists z.
        rewrite a1_assign_same. simpl in Hw. inversion Hw. apply int_str_VInt.
      + exists lv. rewrite a1_assign_other by exact Hne. exact Hlv. }
  destruct Hs1 as [[t Ht] [lv Hlv]].
  assert (Hcalc : exists c, A1.tank_full_calculated (A1._attributes s1 A1.tank) lv
                            = Return c).
  { rewrite Ht. unfold A1.tank_full_calculated, ge_int. simpl.
    destruct (negb (t =? 0)); eauto. }
  destruct Hcalc as [c Hc].
  unfold A1.process_status. rewrite Hv. unfold bind.
  rewrite a1_store_decoded, Hw. fold s1.
  rewrite a1_derive_and_report_eq, Hlv, Hc.
  destruct (A1.tank_full_stale (A1._attributes s1 A1.tank_full) c).
  - eexists _, _. split; [reflexivity|]. split.
    + exists t. rewrite a1_assign_other by discriminate. exact Ht.
    + exists lv. rewrite a1_assign_other by discriminate. exact Hlv.
  - eexists _, _. split; [reflexivity|]. split; eauto.
Qed.

(** A decode pass of A1 over a well-typed message returns a report. *)
Lemma a1_process_message_returns message self :
  A1.well_typed message ->
  A1.decodable self ->
  exists self' rep,
    A1.process_message message self = (self', Return rep) /\ A1.decodable self'.
Proof.
  intros Hwt Hdec. rewrite a1_process_message_eq.
  apply (for_each_returns A1.decodable).
  - intros acc x s Hs. apply a1_process_status_returns; assumption.
  - exact Hdec.
Qed.

Lemma a1_init_decodable pv : A1.decodable (A1.init pv).
Proof. split; [exists 0 | exists 50]; reflexivity. Qed.

(** A decode pass of B1 returns a report, whatever the message. *)
Lemma b1_process_message_returns message self :
  exists self' rep, B1.process_message message self = (self', Return rep).
Proof.
  destruct (for_each_returns (fun _ => True) (B1.process_status message))
    with (l := B1.attribute_keys) (acc := (∅ : gmap string value)) (s := self)
    as (s' & rep & H & _); [|exact I|eauto].
  intros acc a s _.
  destruct (getattr message (B1.name a)) as [v|] eqn:Hv.
  - destruct (b1_process_status_exposed message acc a s) as [w Hw];
      [rewrite Hv; eauto|].
    eexists _, _. split; [exact Hw | exact I].
  - eexists _, _. split; [apply b1_process_status_absent, Hv | exact I].
Qed.

(** A decode pass of EC over a well-typed message returns a report. *)
Lemma ec_process_message_returns message self :
  EC.well_typed message ->
  exists self' rep, EC.process_message message self = (self', Return rep).
Proof.
  intros Hwt.
  destruct (for_each_returns (fun _ => True) (EC.process_status message))
    with (l := EC.attribute_keys) (acc := (∅ : gmap string value)) (s := self)
    as (s' & rep & H & _); [|exact I|eauto].
  intros acc a s _.
  destruct (getattr message (EC.name a)) as [v|] eqn:Hv.
  2:{ eexists _, _. split; [apply ec_process_status_absent, Hv | exact I]. }
  rewrite (ec_process_status_decoded _ _ _ _ _ Hv).
  assert (exists w, EC.decoded a v = Return w) as [w ->].
  { destruct a; try (exists v; reflexivity).
    - destruct (Hwt EC.mode v (or_introl eq_refl) Hv) as (z & -> & Hz).
      cbn [EC.decoded lt_int as_number getitem_value].
      destruct (z <? len EC._mode_list) eqn:E; [|eauto].
      apply Z.ltb_lt in E.
      destruct (getitem_in_range EC._mode_list z) as (x & Hx & _); [lia|].
      rewrite Hx. eauto.
    - destruct (Hwt EC.progress v (or_intror eq_refl) Hv) as (z & -> & Hz).
      cbn [EC.decoded lt_int as_number getitem_value].
      destruct (z <? len EC._progress) eqn:E; [|eauto].
      apply Z.ltb_lt in E.
      destruct (getitem_in_range EC._progress z) as (x & Hx & _); [lia|].
      rewrite Hx. eauto. }
  eexists _, _. split; [reflexivity | exact I].
Qed.

(** * Further properties of the decode and encode paths *)

(** ** Messages that expose no attribute *)

Lemma for_each_skips {S A B : Type} (body : B -> A -> M S B) l acc s :
  (forall x, In x l -> body acc x s = (s, Return acc)) ->
  for_each body l acc s = (s, Return acc).
Proof.
  induction l as [|x l IH]; intros H; [reflexivity|].
  cbn [for_each]. rewrite (bind_Return _ _ _ _ _ (H x (or_introl eq_refl))).
  apply IH. intros y Hy. apply H. right. exact Hy.
Qed.

(** X1: a message that exposes none of the attributes of the device is
    decoded into the empty report, on any device, and raises nothing.  B1 and
    EC are left exactly as they were; A1 keeps every attribute, the derived
    [tank_full] included, and stores the protocol version of the message. *)
Theorem decode_of_message_without_attributes_is_empty :
  (forall message self,
     (forall a, getattr message (A1.name a) = None) ->
     A1.process_message message self =
     ({| A1._attributes := A1._attributes self;
         A1._message_protocol_version := protocol_version message |},
      Return ∅)) /\
  (forall message self,
     (forall a, getattr message (B1.name a) = None) ->
     B1.process_message message self = (self, Return ∅)) /\
  (forall message self,
     (forall a, getattr message (EC.name a) = None) ->
     EC.process_message message self = (self, Return ∅)).
Proof.
  split; [|split]; intros message self H.
  - rewrite a1_process_message_eq. apply for_each_skips.
    intros a _. apply a1_process_status_absent, H.
  - apply for_each_skips. intros a _. apply b1_process_status_absent, H.
  - apply for_each_skips. intros a _. apply ec_process_status_absent, H.
Qed.

(** A message whose only field is not an attribute of EC. *)
Lemma decode_of_message_without_attributes_witness :
  EC.process_message
    {| protocol_version := 3; message_fields := {[ "body_type" := VInt 61 ]} |}
    (EC.init 2)
  = (EC.init 2, Return ∅).
Proof.
  apply (proj2 (proj2 decode_of_message_without_attributes_is_empty)).
  intros a. destruct a; reflexivity.
Defined.

(** ** Device A1: no exception on the devices a host can obtain *)

Lemma a1_encodable_make_message_set self :
  A1.encodable self ->
  exists mode_code speed level,
    A1.encoded_mode (A1._attributes self A1.mode) = Return mode_code /\
    A1.encoded_fan_speed (A1._attributes self A1.fan_speed) = Return speed /\
    int (A1._attributes self A1.water_level_set) = Return level /\
    A1.make_message_set self
    = (self, Return (A1.message_set_of self mode_code speed level)).
Proof.
  intros [Hfan [lv Hlv]].
  destruct (a1_encoded_mode_returns (A1._attributes self A1.mode)) as [c Hc].
  assert (exists sp, A1.encoded_fan_speed (A1._attributes self A1.fan_speed) = Return sp)
    as [sp Hsp].
  { destruct Hfan as [E|E].
    - rewrite E. exists 40. reflexivity.
    - apply a1_encoded_fan_speed_member, E. }
  exists c, sp, lv. repeat split; try assumption.
  rewrite a1_make_message_set_eq, Hc, Hsp, Hlv. reflexivity.
Qed.

(** The device after [set_attribute]: only [prompt_tone] is ever assigned,
    whatever the name requested and whether the call returns or raises. *)
Lemma a1_set_attribute_device `{cls : A1.MessageSetProperties} attr v self :
  fst (A1.set_attribute attr v self) =
  if String.eqb attr (A1.name A1.prompt_tone)
  then A1.assign self A1.prompt_tone v else self.
Proof.
  destruct (String.eqb_spec attr (A1.name A1.prompt_tone)) as [->|Hne];
    [reflexivity|].
  rewrite (a1_set_attribute_eq attr v self Hne), a1_make_message_set_eq.
  destruct (A1.encoded_mode _) as [c|]; [|reflexivity].
  destruct (A1.encoded_fan_speed _) as [sp|]; [|reflexivity].
  destruct (int _) as [lv|]; [|reflexivity].
  pose proof (a1_override_device (A1.message_set_of self c sp lv) attr v self)
    as Ho.
  destruct (A1.override _ attr v self) as [s' [m'|e]]; exact Ho.
Qed.

Lemma a1_reachable_decodable_encodable `{cls : A1.MessageSetProperties} self :
  A1.reachable self -> A1.decodable self /\ A1.encodable self.
Proof.
  induction 1 as [pv|message self Hwt Hr [Hd He]|attr v self Hr [Hd He]].
  - split; [apply a1_init_decodable | apply a1_init_encodable].
  - destruct (a1_process_message_returns message self Hwt Hd)
      as (self' & rep & Hp & Hd').
    rewrite Hp. split; [exact Hd'|].
    apply (a1_process_message_keeps_encodable message self self' rep He Hp).
  - rewrite a1_set_attribute_device.
    destruct (String.eqb attr (A1.name A1.prompt_tone)); [|split; assumption].
    destruct Hd as [[t Ht] [lv Hlv]]. destruct He as [Hfan [lv' Hlv']].
    split; split.
    + exists t. rewrite a1_assign_other by discriminate. exact Ht.
    + exists lv. rewrite a1_assign_other by discriminate. exact Hlv.
    + rewrite a1_assign_other by discriminate. exact Hfan.
    + exists lv'. rewrite a1_assign_other by discriminate. exact Hlv'.
Qed.

(** X2: on an A1 device obtained from a fresh one by decode passes over
    well-typed messages and [set_attribute] calls (with any name, returning
    or not), the device code raises nothing: a decode pass over a well-typed
    message returns a report, [make_message_set] returns a message, and
    [set_attribute] returns for every attribute of the device and every
    value.  With a name that is not an attribute of the device, the call
    raises exactly when the message class raises on the assignment. *)
Theorem a1_reachable_device_never_raises `{cls : A1.MessageSetProperties}
    (self : A1.device) :
  A1.reachable self ->
  (forall message, A1.well_typed message ->
     exists self' rep, A1.process_message message self = (self', Return rep)) /\
  (exists m, A1.make_message_set self = (self, Return m)) /\
  (forall a v, exists self' calls,
     A1.set_attribute (A1.name a) v self = (self', Return calls)) /\
  (forall attr v e,
     snd (A1.set_attribute attr v self) = Raise e <->
     exists setter m,
       A1.property attr = Some setter /\
       A1.make_message_set self = (self, Return m) /\
       setter m v = Raise e).
Proof.
  intros Hr. destruct (a1_reachable_decodable_encodable self Hr) as [Hd He].
  destruct (a1_encodable_make_message_set self He)
    as (c & sp & lv & _ & _ & _ & Hm).
  split; [|split; [|split]].
  - intros message Hwt.
    destruct (a1_process_message_returns message self Hwt Hd)
      as (self' & rep & Hp & _).
    exists self', rep. exact Hp.
  - eexists. exact Hm.
  - intros a v.
    destruct (String.eqb_spec (A1.name a) (A1.name A1.prompt_tone)) as [E|Hne].
    + rewrite E. eexists _, _. reflexivity.
    + rewrite (a1_set_attribute_eq (A1.name a) v self Hne), Hm.
      destruct (a1_override_returns (A1.message_set_of self c sp lv) (A1.name a)
                  v self (A1.attribute_is_field a)) as (m' & -> & _).
      eexists _, _. reflexivity.
  - intros attr v e. split.
    2:{ intros (setter & m & Hp & Hm' & Hs).
        rewrite (a1_set_attribute_property attr setter v self m Hp Hm'), Hs.
        reflexivity. }
    destruct (String.eqb_spec attr (A1.name A1.prompt_tone)) as [->|Hne];
      [discriminate|].
    destruct (A1.property attr) as [setter|] eqn:Hp.
    + rewrite (a1_set_attribute_property attr setter v self _ Hp Hm).
      cbn [snd]. intros H. exists setter, (A1.message_set_of self c sp lv).
      split; [reflexivity|]. split; [exact Hm|].
      destruct (setter _ v); [discriminate H | inversion H; reflexivity].
    + rewrite (a1_set_attribute_eq attr v self Hne), Hm.
      destruct (a1_override_returns (A1.message_set_of self c sp lv) attr
                  v self Hp) as (m' & -> & _).
      discriminate.
Qed.

(** A fresh device that decoded one message, then a request for a mode. *)
Lemma a1_reachable_device_never_raises_witness :
  exists self' calls,
    A1.set_attribute (cls := A1.body_read_only) "mode" (VStr "Auto")
      (fst (A1.process_message
              {| protocol_version := 3;
                 message_fields := {[ "tank" := VInt 60; "mode" := VInt 9 ]} |}
              (A1.init 2)))
    = (self', Return calls).
Proof.
  refine (proj1 (proj2 (proj2
            (a1_reachable_device_never_raises (cls := A1.body_read_only) _ _)))
            A1.mode (VStr "Auto")).
  apply A1.reachable_process_message; [|apply A1.reachable_init].
  split; [|split]; intros v Hv; vm_compute in Hv; inversion Hv; eexists;
    try split; try reflexivity; lia.
Defined.

(** ** Device A1: raw fields through a decode pass and back *)

Lemma a1_dict_contains_speeds z :
  dict_contains A1._speeds (VInt z) = true ->
  z = 1 \/ z = 40 \/ z = 60 \/ z = 80 \/ z = 102 \/ z = 127.
Proof.
  unfold dict_contains, A1._speeds. cbn [dict_get equal as_number].
  repeat match goal with
         | |- context [?k =? z] =>
             destruct (Z.eqb_spec k z); [intros _; subst z; tauto|]
         end.
  discriminate.
Qed.

Lemma a1_mode_code_after_decode z w c :
  0 <= z ->
  A1.decoded A1.mode (VInt z) = Return w ->
  A1.encoded_mode w = Return c ->
  c = if (1 <=? z) && (z <=? 5) then z else if z =? 0 then 5 else 1.
Proof.
  intros Hz Hd Hc.
  destruct (Z_le_gt_dec z 5) as [Hle|Hgt].
  - assert (Hcase : z = 0 \/ z = 1 \/ z = 2 \/ z = 3 \/ z = 4 \/ z = 5) by lia.
    destruct Hcase as [Hk|[Hk|[Hk|[Hk|[Hk|Hk]]]]]; subst z;
      vm_compute in Hd; inversion Hd; subst w;
      vm_compute in Hc; inversion Hc; reflexivity.
  - rewrite a1_decoded_mode_above in Hd by (change (len A1._modes) with 5; lia).
    inversion Hd. subst w. vm_compute in Hc. inversion Hc.
    destruct (Z.leb_spec 1 z); destruct (Z.leb_spec z 5);
      destruct (Z.eqb_spec z 0); cbn; try reflexivity; lia.
Qed.

Lemma a1_fan_speed_code_after_decode z w sp :
  A1.decoded A1.fan_speed (VInt z) = Return w ->
  A1.encoded_fan_speed w = Return sp ->
  sp = if dict_contains A1._speeds (VInt z) then z else 40.
Proof.
  intros Hd Hsp.
  destruct (dict_contains A1._speeds (VInt z)) eqn:Hin.
  - destruct (a1_dict_contains_speeds z Hin) as [Hk|[Hk|[Hk|[Hk|[Hk|Hk]]]]];
      subst z; vm_compute in Hd; inversion Hd; subst w;
      vm_compute in Hsp; inversion Hsp; reflexivity.
  - cbn [A1.decoded] in Hd. rewrite Hin in Hd. inversion Hd. subst w.
    vm_compute in Hsp. inversion Hsp. reflexivity.
Qed.

(** X3: on A1, a raw field carried by a well-typed message survives the
    decode pass and the next full command: the command carries the water
    level the message had, whatever it is; the mode code it had if that is
    from 1 to 5; the fan-speed code it had if that is a code of the speeds
    table; and the very value of every attribute stored as it comes.  A code
    outside the table does not come back: a mode above 5 is sent as 1, the
    mode 0 as 5, an unknown fan speed as 40. *)
Theorem a1_raw_fields_survive_decode_then_encode
    (message : MessageResponse) (self : A1.device) :
  A1.well_typed message ->
  A1.decodable self ->
  A1.encodable self ->
  exists self' rep m,
    A1.process_message message self = (self', Return rep) /\
    A1.make_message_set self' = (self', Return m) /\
    (forall z, getattr message "water_level_set" = Some (VInt z) ->
       request_fields m !! "water_level_set" = Some (VInt z)) /\
    (forall z, getattr message "mode" = Some (VInt z) ->
       request_fields m !! "mode"
       = Some (VInt (if (1 <=? z) && (z <=? 5) then z
                     else if z =? 0 then 5 else 1))) /\
    (forall z, getattr message "fan_speed" = Some (VInt z) ->
       request_fields m !! "fan_speed"
       = Some (VInt (if dict_contains A1._speeds (VInt z) then z else 40))) /\
    (forall a v,
       In a [A1.power; A1.prompt_tone; A1.child_lock; A1.target_humidity;
             A1.swing; A1.anion] ->
       getattr message (A1.name a) = Some v ->
       request_fields m !! A1.name a = Some v).
Proof.
  intros Hwt Hd He.
  destruct (a1_process_message_returns message self Hwt Hd)
    as (self' & rep & Hp & Hd').
  pose proof (a1_process_message_keeps_encodable _ _ _ _ He Hp) as He'.
  destruct (a1_encodable_make_message_set self' He')
    as (c & sp & lv & Hc & Hsp & Hlv & Hm).
  destruct (a1_message_set_of_fields self' c sp lv)
    as (_ & _ & Fm & Ff & Fw & Fpo & Fpt & Fcl & Fth & Fsw & Fan).
  assert (Hdec : forall a v, a <> A1.tank_full ->
            getattr message (A1.name a) = Some v ->
            A1.decoded a v = Return (A1._attributes self' a)).
  { intros a v Ha Hv. rewrite a1_process_message_eq in Hp.
    apply (a1_loop_assigned message A1.attribute_keys a v _ _ _ _ Ha
             (a1_attribute_keys_complete _) Hv Hp). }
  exists self', rep, (A1.message_set_of self' c sp lv).
  split; [exact Hp|]. split; [exact Hm|].
  split; [|split; [|split]].
  - intros z Hz. rewrite Fw. do 2 f_equal.
    pose proof (Hdec A1.water_level_set _ ltac:(discriminate) Hz) as E.
    assert (E' : A1._attributes self' A1.water_level_set = VStr (str (VInt z)))
      by (cbn [A1.decoded] in E; inversion E; reflexivity).
    rewrite E', int_str_VInt in Hlv. inversion Hlv. reflexivity.
  - intros z Hz. rewrite Fm. do 2 f_equal.
    pose proof (Hdec A1.mode _ ltac:(discriminate) Hz) as E.
    destruct Hwt as (Hmode & _). destruct (Hmode _ Hz) as (z' & Ez & Hz0).
    inversion Ez. subst z'.
    apply (a1_mode_code_after_decode z _ c Hz0 E Hc).
  - intros z Hz. rewrite Ff. do 2 f_equal.
    pose proof (Hdec A1.fan_speed _ ltac:(discriminate) Hz) as E.
    apply (a1_fan_speed_code_after_decode z _ sp E Hsp).
  - intros a v Ha Hv.
    assert (Hne : a <> A1.tank_full)
      by (intros ->; simpl in Ha; intuition discriminate).
    pose proof (Hdec a v Hne Hv) as E.
    simpl in Ha. destruct Ha as [<-|[<-|[<-|[<-|[<-|[<-|[]]]]]]];
      cbn [A1.decoded] in E; cbn [A1.name]; congruence.
Qed.

(** A message with water level 33, mode 4 and fan speed 80, decoded by a
    fresh device: the next command carries 33, 4 and 80. *)
Lemma a1_raw_fields_survive_witness :
  exists self' rep m,
    A1.process_message
      {| protocol_version := 3;
         message_fields := {[ "water_level_set" := VInt 33; "mode" := VInt 4;
                              "fan_speed" := VInt 80 ]} |}
      (A1.init 2) = (self', Return rep) /\
    A1.make_message_set self' = (self', Return m) /\
    request_fields m !! "water_level_set" = Some (VInt 33).
Proof.
  destruct (a1_raw_fields_survive_decode_then_encode
              {| protocol_version := 3;
                 message_fields := {[ "water_level_set" := VInt 33; "mode" := VInt 4;
                                      "fan_speed" := VInt 80 ]} |}
              (A1.init 2))
    as (self' & rep & m & Hp & Hm & Hw & _).
  - split; [|split]; intros v Hv; vm_compute in Hv; inversion Hv; eexists;
      try split; try reflexivity; lia.
  - apply a1_init_decodable.
  - apply a1_init_encodable.
  - exists self', rep, m. split; [exact Hp|]. split; [exact Hm|].
    apply Hw. reflexivity.
Defined.

(** ** Device A1: the derived attribute after a whole pass *)

Section A1_tank_full_pass.

Variable message : MessageResponse.
Hypothesis tank_typed :
  forall v, getattr message (A1.name A1.tank) = Some v -> exists z, v = VInt z.
Hypothesis tank_full_typed :
  forall v, getattr message (A1.name A1.tank_full) = Some v ->
    v = VNone \/ exists b, v = VBool b.

Lemma a1_tank_full_calculated_VInt t level c :
  A1.tank_full_calculated (VInt t) level = Return c -> c = A1.tank_full_of t level.
Proof.
  unfold A1.tank_full_calculated, A1.tank_full_of, ge_int. cbn [truth as_number].
  destruct (negb (t =? 0)); intros H; inversion H; reflexivity.
Qed.

(** An iteration on an exposed attribute puts the derived attribute in
    place. *)
Lemma a1_process_status_settles new_status status self self' rep :
  (exists t, A1._attributes self A1.tank = VInt t) ->
  (A1._attributes self A1.tank_full = VNone \/
   exists b, A1._attributes self A1.tank_full = VBool b) ->
  is_Some (getattr message (A1.name status)) ->
  A1.process_status message new_status status self = (self', Return rep) ->
  A1.tank_full_settled self'.
Proof.
  intros [t0 Ht0] Htf0 [v Hv] H.
  destruct (a1_process_status_inv _ _ _ _ _ _ _ Hv H)
    as (w & wl & c & Hd & Hwl & Hc & Hcases).
  set (s1 := A1.assign self status w) in *.
  assert (Ht : exists t, A1._attributes s1 A1.tank = VInt t).
  { unfold s1. destruct (decide (status = A1.tank)) as [->|Hne].
    - destruct (tank_typed v Hv) as [z ->]. exists z.
      rewrite a1_assign_same. cbn [A1.decoded] in Hd. congruence.
    - exists t0. rewrite a1_assign_other by exact Hne. exact Ht0. }
  assert (Htf : A1._attributes s1 A1.tank_full = VNone \/
                exists b, A1._attributes s1 A1.tank_full = VBool b).
  { unfold s1. destruct (decide (status = A1.tank_full)) as [->|Hne].
    - rewrite a1_assign_same. cbn [A1.decoded] in Hd.
      assert (w = v) as -> by congruence. apply tank_full_typed, Hv.
    - rewrite a1_assign_other by exact Hne. exact Htf0. }
  destruct Ht as [t Ht]. rewrite Ht in Hc.
  apply a1_tank_full_calculated_VInt in Hc. subst c.
  destruct Hcases as [(_ & -> & _)|(St & -> & _)].
  - exists t, wl. rewrite !a1_assign_other by discriminate.
    rewrite a1_assign_same. repeat split; assumption.
  - exists t, wl. split; [exact Ht|]. split; [exact Hwl|].
    destruct Htf as [E|[b E]]; rewrite E in St |- *; [discriminate St|].
    f_equal. apply py_eq_VBool_inv. cbn [A1.tank_full_stale] in St.
    apply negb_false_iff in St. exact St.
Qed.

Lemma a1_settled_weaken self :
  A1.tank_full_settled self ->
  (exists t, A1._attributes self A1.tank = VInt t) /\
  (A1._attributes self A1.tank_full = VNone \/
   exists b, A1._attributes self A1.tank_full = VBool b).
Proof. intros (t & lv & Ht & _ & Htf). split; [eauto | right; eauto]. Qed.

Lemma a1_loop_settles l : forall new_status self self' rep,
  (exists t, A1._attributes self A1.tank = VInt t) ->
  (A1._attributes self A1.tank_full = VNone \/
   exists b, A1._attributes self A1.tank_full = VBool b) ->
  for_each (A1.process_status message) l new_status self = (self', Return rep) ->
  (A1.tank_full_settled self \/
   exists a, In a l /\ is_Some (getattr message (A1.name a))) ->
  A1.tank_full_settled self'.
Proof.
  induction l as [|x l IH]; intros ns self self' rep Ht Htf H Hex.
  - inversion H. subst. destruct Hex as [Hs|(a & [] & _)]. exact Hs.
  - apply for_each_cons_inv in H as (s1 & ns1 & H1 & H2).
    destruct (getattr message (A1.name x)) as [v|] eqn:Hv.
    + assert (Hs1 : A1.tank_full_settled s1).
      { apply (a1_process_status_settles ns x self s1 ns1 Ht Htf); [|exact H1].
        rewrite Hv. eauto. }
      destruct (a1_settled_weaken s1 Hs1) as [Ht1 Htf1].
      apply (IH _ _ _ _ Ht1 Htf1 H2). left. exact Hs1.
    + rewrite (a1_process_status_absent _ _ _ _ Hv) in H1. inversion H1. subst.
      apply (IH _ _ _ _ Ht Htf H2).
      destruct Hex as [Hs|(a & [->|Hin] & Ha)].
      * left. exact Hs.
      * rewrite Hv in Ha. destruct Ha as [? Ha]. discriminate Ha.
      * right. exists a. split; assumption.
Qed.

End A1_tank_full_pass.

(** X4: on A1, when the tank level is an [int] (in the device and, if
    exposed, in the message) and [tank_full] is [None] or a [bool], a decode
    pass that returns and processes at least one attribute leaves
    [tank_full] at exactly [tank != 0 and tank >= int(water_level_set)],
    computed on the tank level and water level the device holds after the
    pass.  If [tank_full] was [None] before the pass, as on a fresh device,
    the report contains it. *)
Theorem a1_tank_full_settled_after_decode_pass
    (message : MessageResponse) (self self' : A1.device)
    (rep : gmap string value) :
  (forall v, getattr message (A1.name A1.tank) = Some v -> exists z, v = VInt z) ->
  (forall v, getattr message (A1.name A1.tank_full) = Some v ->
     v = VNone \/ exists b, v = VBool b) ->
  (exists t, A1._attributes self A1.tank = VInt t) ->
  (A1._attributes self A1.tank_full = VNone \/
   exists b, A1._attributes self A1.tank_full = VBool b) ->
  (exists a, is_Some (getattr message (A1.name a))) ->
  A1.process_message message self = (self', Return rep) ->
  A1.tank_full_settled self' /\
  (A1._attributes self A1.tank_full = VNone ->
   rep !! A1.name A1.tank_full = Some (A1._attributes self' A1.tank_full)).
Proof.
  intros Htank Htfm Ht Htf [a Ha] H.
  assert (Hs : A1.tank_full_settled self').
  { rewrite a1_process_message_eq in H.
    apply (a1_loop_settles message Htank Htfm A1.attribute_keys ∅
             {| A1._attributes := A1._attributes self;
                A1._message_protocol_version := protocol_version message |}
             self' rep Ht Htf H).
    right. exists a. split; [apply a1_attribute_keys_complete | exact Ha]. }
  split; [exact Hs|].
  intros Hnone. apply (a1_process_message_report _ _ _ _ H).
  destruct Hs as (t & lv & _ & _ & E). rewrite E, Hnone. discriminate.
Qed.

(** A fresh device that decodes tank 60 and water level 50. *)
Lemma a1_tank_full_settled_witness :
  A1.tank_full_settled
    (fst (A1.process_message
            {| protocol_version := 3;
               message_fields := {[ "tank" := VInt 60;
                                    "water_level_set" := VInt 50 ]} |}
            (A1.init 2))).
Proof.
  refine (proj1 (a1_tank_full_settled_after_decode_pass
                   {| protocol_version := 3;
                      message_fields := {[ "tank" := VInt 60;
                                           "water_level_set" := VInt 50 ]} |}
                   (A1.init 2) _
                   {[ "tank" := VInt 60; "water_level_set" := VStr "50";
                      "tank_full" := VBool true ]} _ _ _ _ _ _)).
  - intros v Hv. vm_compute in Hv. inversion Hv. eauto.
  - intros v Hv. vm_compute in Hv. discriminate Hv.
  - exists 0. reflexivity.
  - left. reflexivity.
  - exists A1.tank. vm_compute. eauto.
  - vm_compute. reflexivity.
Defined.

(** ** Device A1: the stored labels *)

Lemma getitem_In {A : Type} (l : list A) i x : getitem l i = Return x -> In x l.
Proof.
  unfold getitem. destruct (_ <? 0); [discriminate|].
  destruct (nth_error l _) as [y|] eqn:E; [|discriminate].
  intros H. inversion H. subst. eapply nth_error_In, E.
Qed.

Lemma In_contains l s : In s l -> contains l (VStr s) = true.
Proof.
  intros H. unfold contains. apply existsb_exists. exists s.
  split; [exact H | apply String.eqb_refl].
Qed.

Lemma a1_decoded_mode_labelled v w :
  A1.decoded A1.mode v = Return w ->
  w = VNone \/ contains A1._modes w = true.
Proof.
  cbn [A1.decoded].
  destruct (le_int v (len A1._modes)) as [[|]|e]; [| |discriminate].
  - destruct (sub_int v 1) as [i|e]; [|discriminate].
    destruct (getitem A1._modes i) as [label|e] eqn:E; [|discriminate].
    intros H. inversion H. right. apply In_contains, (getitem_In _ _ _ E).
  - intros H. inversion H. left. reflexivity.
Qed.

(** An iteration of the decode loop keeps the labels, whether it returns or
    raises. *)
Lemma a1_process_status_keeps_labelled message new_status status self :
  A1.labelled self ->
  A1.labelled (fst (A1.process_status message new_status status self)).
Proof.
  intros [Hm Hf]. unfold A1.process_status.
  destruct (getattr message (A1.name status)) as [v|]; [|split; assumption].
  unfold bind. rewrite a1_store_decoded.
  destruct (A1.decoded status v) as [w|e] eqn:Hd; [|split; assumption].
  assert (Hl : A1.labelled (A1.assign self status w)).
  { split.
    - destruct (decide (status = A1.mode)) as [->|Hne].
      + rewrite a1_assign_same. apply (a1_decoded_mode_labelled v w Hd).
      + rewrite a1_assign_other by exact Hne. exact Hm.
    - destruct (decide (status = A1.fan_speed)) as [->|Hne].
      + rewrite a1_assign_same. apply (a1_decoded_fan_speed v w Hd).
      + rewrite a1_assign_other by exact Hne. exact Hf. }
  rewrite a1_derive_and_report_eq.
  destruct (int _) as [wl|e]; [|exact Hl].
  destruct (A1.tank_full_calculated _ wl) as [c|e]; [|exact Hl].
  destruct (A1.tank_full_stale _ c); [|exact Hl].
  destruct Hl as [Hm' Hf']. split; cbn [fst];
    rewrite a1_assign_other by discriminate; assumption.
Qed.

(** X5: on A1, the stored mode and fan speed are [None] or a label of
    their table, and stay so through every decode pass, whatever the message
    holds and whether the pass returns or raises, and through every
    [set_attribute] call.  On such a device the table searches of
    [make_message_set] cannot fail: if it raises, it is [int] that raised on
    the stored water level. *)
Theorem a1_stored_labels_are_kept `{cls : A1.MessageSetProperties}
    (self : A1.device) :
  A1.labelled self ->
  (forall message, A1.labelled (fst (A1.process_message message self))) /\
  (forall attr v, A1.labelled (fst (A1.set_attribute attr v self))) /\
  (forall e, snd (A1.make_message_set self) = Raise e ->
     int (A1._attributes self A1.water_level_set) = Raise e).
Proof.
  intros Hl. split; [|split].
  - intros message. rewrite a1_process_message_eq.
    apply (for_each_keeps A1.labelled).
    + intros acc x s Hs. apply a1_process_status_keeps_labelled, Hs.
    + exact Hl.
  - intros attr v. rewrite a1_set_attribute_device.
    destruct (String.eqb attr (A1.name A1.prompt_tone)); [|exact Hl].
    destruct Hl as [Hm Hf]. split; rewrite a1_assign_other by discriminate;
      assumption.
  - intros e. rewrite a1_make_message_set_eq.
    destruct (a1_encoded_mode_returns (A1._attributes self A1.mode)) as [c ->].
    assert (exists sp, A1.encoded_fan_speed (A1._attributes self A1.fan_speed)
                       = Return sp) as [sp ->].
    { destruct Hl as [_ [E|E]].
      - rewrite E. exists 40. reflexivity.
      - apply a1_encoded_fan_speed_member, E. }
    destruct (int _) as [lv|e']; cbn [snd]; intros H; inversion H. reflexivity.
Qed.

(** A fresh device decodes a message whose mode is not even a number: the
    pass raises, the labels are still in place. *)
Lemma a1_stored_labels_witness :
  A1.labelled
    (fst (A1.process_message
            {| protocol_version := 3;
               message_fields := {[ "fan_speed" := VInt 80;
                                    "mode" := VStr "x" ]} |}
            (A1.init 2))).
Proof.
  apply (a1_stored_labels_are_kept (cls := A1.body_read_only) (A1.init 2)).
  split; [left | right]; reflexivity.
Defined.

(** ** Devices B1 and EC: the report is a function of the message *)

Lemma for_each_outcome_independent {S A B : Type} (body : B -> A -> M S B) :
  (forall acc x s1 s2, snd (body acc x s1) = snd (body acc x s2)) ->
  forall l acc s1 s2,
    snd (for_each body l acc s1) = snd (for_each body l acc s2).
Proof.
  intros Hbody. induction l as [|x l IH]; intros acc s1 s2; [reflexivity|].
  cbn [for_each]. unfold bind. pose proof (Hbody acc x s1 s2) as H.
  destruct (body acc x s1) as [t1 [a1|e1]];
    destruct (body acc x s2) as [t2 [a2|e2]]; cbn [snd] in H;
    inversion H; subst; [apply IH | reflexivity].
Qed.

Lemma b1_process_status_outcome message acc a s1 s2 :
  snd (B1.process_status message acc a s1) = snd (B1.process_status message acc a s2).
Proof.
  unfold B1.process_status.
  destruct (getattr message (B1.name a)) as [v|]; [|reflexivity].
  destruct a; try reflexivity.
  destruct (dict_contains B1._status v); reflexivity.
Qed.

Lemma ec_process_status_outcome message acc a s1 s2 :
  snd (EC.process_status message acc a s1) = snd (EC.process_status message acc a s2).
Proof.
  destruct (getattr message (EC.name a)) as [v|] eqn:Hv.
  - rewrite !(ec_process_status_decoded _ _ _ _ _ Hv).
    destruct (EC.decoded a v); reflexivity.
  - rewrite !(ec_process_status_absent _ _ _ _ Hv). reflexivity.
Qed.

(** X6: a decode pass of B1 never raises, whatever the message holds, and
    the report it returns depends on the message alone, not on the device
    that decodes it. *)
Theorem b1_decode_never_raises_and_ignores_the_device :
  (forall message self,
     exists self' rep, B1.process_message message self = (self', Return rep)) /\
  (forall message self1 self2,
     snd (B1.process_message message self1)
     = snd (B1.process_message message self2)).
Proof.
  split.
  - intros message self. apply b1_process_message_returns.
  - intros message self1 self2.
    apply for_each_outcome_independent. intros acc x s1 s2.
    apply b1_process_status_outcome.
Qed.

(** X7: the result of a decode pass of EC, report or exception, depends on
    the message alone; when the program and progress fields are raw codes
    (ints that are not negative) the pass returns a report. *)
Theorem ec_decode_result_depends_on_the_message_alone :
  (forall message self1 self2,
     snd (EC.process_message message self1)
     = snd (EC.process_message message self2)) /\
  (forall message self, EC.well_typed message ->
     exists self' rep, EC.process_message message self = (self', Return rep)).
Proof.
  split.
  - intros message self1 self2.
    apply for_each_outcome_independent. intros acc x s1 s2.
    apply ec_process_status_outcome.
  - intros message self Hwt. apply ec_process_message_returns, Hwt.
Qed.

Lemma ec_decode_result_witness :
  exists self' rep,
    EC.process_message
      {| protocol_version := 3;
         message_fields := {[ "mode" := VInt 250; "progress" := VInt 3 ]} |}
      (EC.init 2) = (self', Return rep).
Proof.
  apply (proj2 ec_decode_result_depends_on_the_message_alone).
  intros a v [-> | ->] Hv; vm_compute in Hv; inversion Hv; eexists;
    (split; [reflexivity | lia]).
Defined.

(** ** Device A1: what the next command carries *)

(** X8: on A1, a [prompt_tone] set locally is not lost: the next request
    for any other attribute of the device transmits a command whose
    [prompt_tone] field is the value that was set (given a device whose
    state encodes). *)
Theorem a1_prompt_tone_is_sent_with_the_next_command
    `{cls : A1.MessageSetProperties}
    (self : A1.device) (v v' : value) (a : A1.DeviceAttributes) :
  A1.encodable self ->
  a <> A1.prompt_tone ->
  exists m,
    A1.set_attribute (A1.name a) v'
      (fst (A1.set_attribute (A1.name A1.prompt_tone) v self))
    = (A1.assign self A1.prompt_tone v, Return [build_send m]) /\
    request_fields m !! A1.name A1.prompt_tone = Some v.
Proof.
  intros [Hfan [lv Hlv]] Ha.
  assert (Hne : A1.name a <> A1.name A1.prompt_tone)
    by (intros E; apply a1_name_inj in E; contradiction).
  set (attr := A1.name a) in *.
  change (fst (A1.set_attribute (A1.name A1.prompt_tone) v self))
    with (A1.assign self A1.prompt_tone v).
  set (s0 := A1.assign self A1.prompt_tone v).
  assert (He : A1.encodable s0).
  { split; [|exists lv]; unfold s0; rewrite a1_assign_other by discriminate;
      assumption. }
  destruct (a1_encodable_make_message_set s0 He)
    as (c & sp & lv' & _ & _ & _ & Hm).
  destruct (a1_override_returns (A1.message_set_of s0 c sp lv') attr v' s0
              (A1.attribute_is_field a))
    as (m' & Ho & _ & _ & Hf).
  exists m'. split.
  - rewrite (a1_set_attribute_eq attr v' s0 Hne), Hm, Ho. reflexivity.
  - rewrite Hf by congruence.
    destruct (a1_message_set_of_fields s0 c sp lv')
      as (_ & _ & _ & _ & _ & _ & Fpt & _).
    cbn [A1.name]. rewrite Fpt. unfold s0. rewrite a1_assign_same. reflexivity.
Qed.

(** The tone is turned off, then the power is requested on a fresh device. *)
Lemma a1_prompt_tone_is_sent_witness :
  exists m,
    A1.set_attribute (cls := A1.body_read_only) "power" (VBool true)
      (fst (A1.set_attribute (cls := A1.body_read_only) "prompt_tone"
              (VBool false) (A1.init 2)))
    = (A1.assign (A1.init 2) A1.prompt_tone (VBool false),
       Return [build_send m]) /\
    request_fields m !! "prompt_tone" = Some (VBool false).
Proof.
  apply (a1_prompt_tone_is_sent_with_the_next_command
           (cls := A1.body_read_only) (A1.init 2) (VBool false) (VBool true)
           A1.power).
  - apply a1_init_encodable.
  - discriminate.
Defined.

(** X9: on A1, every command built after a decode pass carries the protocol
    version of the decoded message, whether the pass returned or raised: the
    message [make_message_set] builds, and the message [set_attribute]
    transmits for any attribute of the device. *)
Theorem a1_commands_carry_the_decoded_protocol_version
    `{cls : A1.MessageSetProperties}
    (message : MessageResponse) (self : A1.device) :
  (forall s m,
     A1.make_message_set (fst (A1.process_message message self)) = (s, Return m) ->
     request_protocol_version m = protocol_version message) /\
  (forall a v s m,
     A1.set_attribute (A1.name a) v (fst (A1.process_message message self))
     = (s, Return [build_send m]) ->
     request_protocol_version m = protocol_version message).
Proof.
  split.
  - intros s m H. apply (a1_command_carries_decoded_version message self m s H).
  - intros a v s m.
    set (s0 := fst (A1.process_message message self)).
    destruct (decide (a = A1.prompt_tone)) as [->|Hne]; [discriminate|].
    rewrite a1_set_attribute_eq
      by (intros E; apply a1_name_inj in E; contradiction).
    destruct (A1.make_message_set s0) as [s1 [m0|e]] eqn:Hm; [|discriminate].
    destruct (a1_override_returns m0 (A1.name a) v s1 (A1.attribute_is_field a))
      as (m' & -> & _ & Hp & _).
    intros H. inversion H. subst m'. rewrite Hp.
    apply (a1_command_carries_decoded_version message self m0 s1 Hm).
Qed.

(** A device at version 2 decodes a message tagged 3; the command that sets
    the swing afterwards is tagged 3. *)
Lemma a1_commands_carry_version_witness :
  request_protocol_version
    (set_field
       (A1.message_set_of
          (fst (A1.process_message
                  {| protocol_version := 3;
                     message_fields := {[ "power" := VBool true ]} |}
                  (A1.init 2)))
          1 60 50)
       "swing" (VBool true))
  = 3.
Proof.
  apply (proj2 (a1_commands_carry_the_decoded_protocol_version
                  (cls := A1.body_read_only)
                  {| protocol_version := 3;
                     message_fields := {[ "power" := VBool true ]} |}
                  (A1.init 2))
           A1.swing (VBool true)
           (fst (A1.process_message
                   {| protocol_version := 3;
                      message_fields := {[ "power" := VBool true ]} |}
                   (A1.init 2)))).
  vm_compute. reflexivity.
Defined.

(** ** Decode passes that raise *)

Lemma getitem_negative {A : Type} (l : list A) i :
  - len l <= i < 0 ->
  exists x, getitem l i = Return x /\
            nth_error l (Z.to_nat (len l + i)) = Some x.
Proof.
  intros [H0 H1]. unfold getitem.
  destruct (i <? 0) eqn:E; [|apply Z.ltb_ge in E; lia].
  destruct (i + len l <? 0) eqn:E'; [apply Z.ltb_lt in E'; lia|].
  replace (len l + i) with (i + len l) by lia.
  destruct (nth_error l (Z.to_nat (i + len l))) as [x|] eqn:N.
  - exists x. split; reflexivity.
  - apply nth_error_None in N. unfold len in *. lia.
Qed.

Lemma getitem_below {A : Type} (l : list A) i :
  i < - len l -> getitem l i = Raise IndexError.
Proof.
  intros H. unfold getitem. assert (0 <= len l) by (unfold len; lia).
  destruct (i <? 0) eqn:E; [|apply Z.ltb_ge in E; lia].
  destruct (i + len l <? 0) eqn:E'; [reflexivity | apply Z.ltb_ge in E'; lia].
Qed.

(** The loop stops at the first iteration that raises. *)
Lemma for_each_app_raise {S A B : Type} (body : B -> A -> M S B) l1 x l2 :
  forall acc s s1 acc1 s2 e,
    for_each body l1 acc s = (s1, Return acc1) ->
    body acc1 x s1 = (s2, Raise e) ->
    for_each body (l1 ++ x :: l2) acc s = (s2, Raise e).
Proof.
  induction l1 as [|y l1 IH]; intros acc s s1 acc1 s2 e H1 H2.
  - inversion H1. subst. cbn [app for_each]. apply bind_Raise, H2.
  - apply for_each_cons_inv in H1 as (s' & acc' & Hy & Hl).
    cbn [app for_each]. rewrite (bind_Return _ _ _ _ _ Hy).
    apply (IH _ _ _ _ _ _ Hl H2).
Qed.

Lemma for_each_returns_on {S A B : Type} (P : S -> Prop) (body : B -> A -> M S B) l :
  (forall acc x s, In x l -> P s ->
     exists s' acc', body acc x s = (s', Return acc') /\ P s') ->
  forall acc s, P s ->
    exists s' acc', for_each body l acc s = (s', Return acc') /\ P s'.
Proof.
  induction l as [|x l IH]; intros Hbody acc s Hs.
  - exists s, acc. split; [reflexivity | exact Hs].
  - destruct (Hbody acc x s (or_introl eq_refl) Hs) as (s1 & acc1 & H1 & Hs1).
    destruct (IH (fun a y t Hy => Hbody a y t (or_intror Hy)) acc1 s1 Hs1)
      as (s2 & acc2 & H2 & Hs2).
    exists s2, acc2. split; [|exact Hs2].
    cbn [for_each]. rewrite (bind_Return _ _ _ _ _ H1). exact H2.
Qed.

(** An iteration on an attribute stored as it comes, other than the tank
    level, returns on a decodable device. *)
Lemma a1_process_status_plain_returns message new_status status self :
  In status [A1.power; A1.prompt_tone; A1.child_lock] ->
  A1.decodable self ->
  exists self' rep,
    A1.process_status message new_status status self = (self', Return rep) /\
    A1.decodable self'.
Proof.
  intros Hin [[t Ht] [lv Hlv]].
  destruct (getattr message (A1.name status)) as [v|] eqn:Hv.
  2:{ exists self, new_status. split; [apply a1_process_status_absent, Hv|].
      split; eauto. }
  assert (Hd : A1.decoded status v = Return v).
  { simpl in Hin. destruct Hin as [<-|[<-|[<-|[]]]]; reflexivity. }
  assert (Hne : status <> A1.tank /\ status <> A1.water_level_set).
  { simpl in Hin. destruct Hin as [<-|[<-|[<-|[]]]]; split; discriminate. }
  destruct Hne as [Hn1 Hn2].
  set (s1 := A1.assign self status v).
  assert (Ht1 : A1._attributes s1 A1.tank = VInt t)
    by (unfold s1; rewrite a1_assign_other by congruence; exact Ht).
  assert (Hlv1 : int (A1._attributes s1 A1.water_level_set) = Return lv)
    by (unfold s1; rewrite a1_assign_other by congruence; exact Hlv).
  unfold A1.process_status. rewrite Hv. unfold bind.
  rewrite a1_store_decoded, Hd. fold s1.
  rewrite a1_derive_and_report_eq, Hlv1, Ht1.
  assert (exists c, A1.tank_full_calculated (VInt t) lv = Return c) as [c ->].
  { unfold A1.tank_full_calculated, ge_int. cbn [truth as_number].
    destruct (negb (t =? 0)); eauto. }
  destruct (A1.tank_full_stale (A1._attributes s1 A1.tank_full) c).
  - eexists _, _. split; [reflexivity|]. split.
    + exists t. rewrite a1_assign_other by discriminate. exact Ht1.
    + exists lv. rewrite a1_assign_other by discriminate. exact Hlv1.
  - eexists _, _. split; [reflexivity|]. split; eauto.
Qed.

Lemma a1_decoded_mode_raises v e :
  (as_number v = None /\ e = TypeError) \/
  (exists z, v = VInt z /\ z < -4 /\ e = IndexError) ->
  A1.decoded A1.mode v = Raise e.
Proof.
  intros [[Hn ->]|(z & -> & Hz & ->)]; cbn [A1.decoded]; unfold le_int.
  - rewrite Hn. reflexivity.
  - cbn [as_number sub_int].
    destruct (z <=? len A1._modes) eqn:E;
      [|apply Z.leb_gt in E; change (len A1._modes) with 5 in E; lia].
    rewrite getitem_below by (change (len A1._modes) with 5; lia).
    reflexivity.
Qed.

(** The iterations that precede the mode, on a device whose tank level is
    the [int] [t] and whose water level converts to [level]: they assign
    neither of the two, and the first that processes an exposed attribute
    puts [tank_full] in place, where it stays. *)
Section A1_before_the_mode.

Variable message : MessageResponse.
Variables t level : Z.

Lemma a1_process_status_before_the_mode new_status status self self' rep :
  In status [A1.power; A1.prompt_tone; A1.child_lock] ->
  A1._attributes self A1.tank = VInt t ->
  int (A1._attributes self A1.water_level_set) = Return level ->
  A1.process_status message new_status status self = (self', Return rep) ->
  A1._attributes self' A1.tank = VInt t /\
  int (A1._attributes self' A1.water_level_set) = Return level /\
  (getattr message (A1.name status) = None -> self' = self) /\
  (is_Some (getattr message (A1.name status)) ->
     equal (A1._attributes self' A1.tank_full) (VBool (A1.tank_full_of t level))
       = true /\
     (A1._attributes self A1.tank_full = VNone \/
      (exists b, A1._attributes self A1.tank_full = VBool b) ->
      A1._attributes self' A1.tank_full = VBool (A1.tank_full_of t level))) /\
  (equal (A1._attributes self A1.tank_full) (VBool (A1.tank_full_of t level))
     = true ->
   A1._attributes self' A1.tank_full = A1._attributes self A1.tank_full).
Proof.
  intros Hin Ht Hlv H.
  assert (Hne : status <> A1.tank /\ status <> A1.water_level_set /\
                status <> A1.tank_full).
  { simpl in Hin. destruct Hin as [<-|[<-|[<-|[]]]]; repeat split; discriminate. }
  destruct Hne as (Hn1 & Hn2 & Hn3).
  destruct (getattr message (A1.name status)) as [v|] eqn:Hv.
  2:{ rewrite (a1_process_status_absent _ _ _ _ Hv) in H. inversion H. subst.
      split; [exact Ht|]. split; [exact Hlv|]. split; [reflexivity|].
      split; [intros [? E]; discriminate E | reflexivity]. }
  destruct (a1_process_status_inv _ _ _ _ _ _ _ Hv H)
    as (w & wl & c & _ & Hwl & Hc & Hcases).
  rewrite a1_assign_other in Hwl by congruence.
  rewrite a1_assign_other in Hc by congruence.
  rewrite a1_assign_other in Hcases by congruence.
  rewrite Hlv in Hwl. inversion Hwl. subst wl. clear Hwl.
  rewrite Ht in Hc. apply a1_tank_full_calculated_value in Hc.
  cbn [as_number] in Hc. subst c.
  set (c := A1.tank_full_of t level) in *.
  assert (Hcc : equal (VBool c) (VBool c) = true) by (destruct c; reflexivity).
  destruct Hcases as [(St & -> & _)|(St & -> & _)].
  - rewrite !a1_assign_same.
    rewrite !(a1_assign_other _ A1.tank_full) by discriminate.
    rewrite !a1_assign_other by congruence.
    split; [exact Ht|]. split; [exact Hlv|]. split; [discriminate|].
    split; [intros _; split; [exact Hcc | reflexivity]|].
    intros E. exfalso. unfold A1.tank_full_stale in St.
    destruct (A1._attributes self A1.tank_full);
      [discriminate E | | |]; rewrite E in St; discriminate St.
  - rewrite !a1_assign_other by congruence.
    assert (E : equal (A1._attributes self A1.tank_full) (VBool c) = true).
    { unfold A1.tank_full_stale in St.
      destruct (A1._attributes self A1.tank_full); [discriminate St | | |];
        apply negb_false_iff in St; exact St. }
    split; [exact Ht|]. split; [exact Hlv|]. split; [discriminate|].
    split; [|reflexivity].
    intros _. split; [exact E|].
    intros [E0|[b E0]]; rewrite E0 in E |- *; [discriminate E|].
    f_equal. apply py_eq_VBool_inv, E.
Qed.

Lemma a1_loop_before_the_mode l :
  (forall x, In x l -> In x [A1.power; A1.prompt_tone; A1.child_lock]) ->
  forall new_status self self' rep,
    A1._attributes self A1.tank = VInt t ->
    int (A1._attributes self A1.water_level_set) = Return level ->
    for_each (A1.process_status message) l new_status self = (self', Return rep) ->
    A1._attributes self' A1.tank = VInt t /\
    int (A1._attributes self' A1.water_level_set) = Return level /\
    ((forall x, In x l -> getattr message (A1.name x) = None) ->
     A1._attributes self' A1.tank_full = A1._attributes self A1.tank_full) /\
    ((exists x, In x l /\ is_Some (getattr message (A1.name x))) ->
     equal (A1._attributes self' A1.tank_full) (VBool (A1.tank_full_of t level))
       = true /\
     (A1._attributes self A1.tank_full = VNone \/
      (exists b, A1._attributes self A1.tank_full = VBool b) ->
      A1._attributes self' A1.tank_full = VBool (A1.tank_full_of t level))) /\
    (equal (A1._attributes self A1.tank_full) (VBool (A1.tank_full_of t level))
       = true ->
     A1._attributes self' A1.tank_full = A1._attributes self A1.tank_full).
Proof.
  induction l as [|x l IH]; intros Hl ns self self' rep Ht Hlv H.
  - inversion H. subst. split; [exact Ht|]. split; [exact Hlv|].
    split; [reflexivity|]. split; [intros (x & [] & _) | reflexivity].
  - apply for_each_cons_inv in H as (s1 & ns1 & H1 & H2).
    destruct (a1_process_status_before_the_mode _ _ _ _ _
                (Hl x (or_introl eq_refl)) Ht Hlv H1)
      as (Ht1 & Hlv1 & Habs & Hexp & Hkeep).
    destruct (IH (fun y Hy => Hl y (or_intror Hy)) _ _ _ _ Ht1 Hlv1 H2)
      as (Ht2 & Hlv2 & Inone & Isome & Ikeep).
    split; [exact Ht2|]. split; [exact Hlv2|]. split; [|split].
    + intros Hall.
      rewrite (Habs (Hall x (or_introl eq_refl))) in Inone.
      apply Inone. intros y Hy. apply Hall. right. exact Hy.
    + intros (y & Hy & Hexposed).
      destruct (getattr message (A1.name x)) as [v|] eqn:Hv.
      * destruct (Hexp ltac:(eauto)) as [E1 E2].
        rewrite (Ikeep E1). split; [exact E1 | exact E2].
      * rewrite (Habs eq_refl) in Isome. apply Isome.
        destruct Hy as [->|Hy]; [|eauto].
        rewrite Hv in Hexposed. destruct Hexposed as [? E]. discriminate E.
    + intros E. rewrite <- (Hkeep E). apply Ikeep. rewrite (Hkeep E). exact E.
Qed.

End A1_before_the_mode.

(** X10: on an A1 device whose tank level is an [int] and whose water level
    converts with [int], a mode field that is not a number ([None], a
    [str]) makes the decode pass raise [TypeError], and a mode below -4
    makes it raise [IndexError].  The pass stops there, on a device that is
    half updated: the protocol version of the message and the exposed
    [power], [prompt_tone] and [child_lock], which precede the mode, are
    stored; the mode and every attribute after it other than the derived
    [tank_full] keep their previous value.  [tank_full] keeps its value when
    none of the three is exposed; otherwise it has been recomputed, and is
    equal ([==]) to [tank != 0 and tank >= int(water_level_set)], and is
    that very boolean when it was [None] or a [bool] before the pass. *)
Theorem a1_decode_pass_aborted_by_the_mode
    (message : MessageResponse) (self : A1.device) (v : value) (e : exn)
    (t level : Z) :
  A1._attributes self A1.tank = VInt t ->
  int (A1._attributes self A1.water_level_set) = Return level ->
  getattr message (A1.name A1.mode) = Some v ->
  (as_number v = None /\ e = TypeError) \/
  (exists z, v = VInt z /\ z < -4 /\ e = IndexError) ->
  exists self',
    A1.process_message message self = (self', Raise e) /\
    A1._message_protocol_version self' = protocol_version message /\
    (forall a,
       ~ In a [A1.power; A1.prompt_tone; A1.child_lock; A1.tank_full] ->
       A1._attributes self' a = A1._attributes self a) /\
    (forall a w,
       In a [A1.power; A1.prompt_tone; A1.child_lock] ->
       getattr message (A1.name a) = Some w ->
       A1._attributes self' a = w) /\
    ((forall a, In a [A1.power; A1.prompt_tone; A1.child_lock] ->
        getattr message (A1.name a) = None) ->
     A1._attributes self' A1.tank_full = A1._attributes self A1.tank_full) /\
    ((exists a, In a [A1.power; A1.prompt_tone; A1.child_lock] /\
                is_Some (getattr message (A1.name a))) ->
     equal (A1._attributes self' A1.tank_full) (VBool (A1.tank_full_of t level))
       = true /\
     (A1._attributes self A1.tank_full = VNone \/
      (exists b, A1._attributes self A1.tank_full = VBool b) ->
      A1._attributes self' A1.tank_full = VBool (A1.tank_full_of t level))).
Proof.
  intros Ht Hlv Hv He.
  assert (Hdec : A1.decodable self) by (split; eauto).
  pose proof (a1_decoded_mode_raises v e He) as Hraise.
  set (s0 := {| A1._attributes := A1._attributes self;
                A1._message_protocol_version := protocol_version message |}).
  destruct (for_each_returns_on A1.decodable (A1.process_status message)
              [A1.power; A1.prompt_tone; A1.child_lock]
              (fun acc x s Hx Hs => a1_process_status_plain_returns message acc x s Hx Hs)
              ∅ s0 Hdec)
    as (s3 & r3 & H3 & _).
  assert (Hmode : A1.process_status message r3 A1.mode s3 = (s3, Raise e)).
  { unfold A1.process_status. rewrite Hv. unfold bind.
    rewrite a1_store_decoded, Hraise. reflexivity. }
  destruct (a1_loop_before_the_mode message t level
              [A1.power; A1.prompt_tone; A1.child_lock] (fun x Hx => Hx)
              ∅ s0 s3 r3 Ht Hlv H3)
    as (_ & _ & Hnone & Hsome & _).
  exists s3. split; [|split; [|split; [|split; [|split]]]].
  - rewrite a1_process_message_eq. fold s0.
    apply (for_each_app_raise (A1.process_status message)
             [A1.power; A1.prompt_tone; A1.child_lock] A1.mode _ _ _ _ _ _ _
             H3 Hmode).
  - apply (a1_loop_version message _ _ _ _ _ H3).
  - intros a Ha.
    rewrite (a1_loop_frame message _ a _ _ _ _ H3); [reflexivity| |].
    + intros ->. apply Ha. simpl. tauto.
    + left. intros Hin. apply Ha. simpl in *. tauto.
  - intros a w Ha Hw.
    assert (Hne : a <> A1.tank_full)
      by (intros ->; simpl in Ha; intuition discriminate).
    pose proof (a1_loop_assigned message _ a w _ _ _ _ Hne Ha Hw H3) as E.
    assert (Hd : A1.decoded a w = Return w).
    { simpl in Ha. destruct Ha as [<-|[<-|[<-|[]]]]; reflexivity. }
    congruence.
  - exact Hnone.
  - exact Hsome.
Qed.

(** A message whose mode is a string, decoded by a fresh device: the pass
    raises [TypeError] after the power was stored and [tank_full], which was
    [None], was set to false (the tank level is 0). *)
Lemma a1_decode_pass_aborted_witness :
  exists self',
    A1.process_message
      {| protocol_version := 3;
         message_fields := {[ "power" := VBool true; "mode" := VStr "x" ]} |}
      (A1.init 2) = (self', Raise TypeError) /\
    A1._attributes self' A1.power = VBool true /\
    A1._attributes self' A1.tank_full = VBool false.
Proof.
  destruct (a1_decode_pass_aborted_by_the_mode
              {| protocol_version := 3;
                 message_fields := {[ "power" := VBool true; "mode" := VStr "x" ]} |}
              (A1.init 2) (VStr "x") TypeError 0 50)
    as (self' & Hp & _ & _ & Hw & _ & Htf).
  - reflexivity.
  - reflexivity.
  - reflexivity.
  - left. split; reflexivity.
  - exists self'. split; [exact Hp|].
    split; [apply (Hw A1.power); [simpl; tauto | reflexivity]|].
    apply Htf; [|left; reflexivity].
    exists A1.power. split; [simpl; tauto | eexists; reflexivity].
Defined.

Lemma ec_decoded_mode_raises v e :
  (as_number v = None /\ e = TypeError) \/
  (exists z, v = VInt z /\ z < - len EC._mode_list /\ e = IndexError) ->
  EC.decoded EC.mode v = Raise e.
Proof.
  intros [[Hn ->]|(z & -> & Hz & ->)]; cbn [EC.decoded]; unfold lt_int.
  - rewrite Hn. reflexivity.
  - cbn [as_number getitem_value].
    destruct (z <? len EC._mode_list) eqn:E;
      [|apply Z.ltb_ge in E; rewrite ec_mode_list_length in *; lia].
    rewrite getitem_below by exact Hz. reflexivity.
Qed.

(** X11: the guard of the EC program lookup has no lower bound.  A program
    code that is not a number raises [TypeError] and a code below -200
    raises [IndexError]: the pass stops at the mode, with only [cooking],
    which precedes it, stored.  A negative code from -200 to -1 raises
    nothing: it is decoded to the catalog entry counted from the end. *)
Theorem ec_program_code_that_is_negative_or_not_a_number :
  (forall message self v e,
     getattr message (EC.name EC.mode) = Some v ->
     (as_number v = None /\ e = TypeError) \/
     (exists z, v = VInt z /\ z < - len EC._mode_list /\ e = IndexError) ->
     EC.process_message message self =
     (match getattr message (EC.name EC.cooking) with
      | Some w => EC.assign self EC.cooking w
      | None => self
      end, Raise e)) /\
  (forall message self self' rep z,
     - len EC._mode_list <= z < 0 ->
     getattr message (EC.name EC.mode) = Some (VInt z) ->
     EC.process_message message self = (self', Return rep) ->
     exists label,
       nth_error EC._mode_list (Z.to_nat (len EC._mode_list + z)) = Some label /\
       EC._attributes self' EC.mode = VStr label /\
       rep !! EC.name EC.mode = Some (VStr label)).
Proof.
  split.
  - intros message self v e Hv He.
    pose proof (ec_decoded_mode_raises v e He) as Hraise.
    unfold EC.process_message, EC.attribute_keys. cbn [for_each]. unfold bind.
    destruct (getattr message (EC.name EC.cooking)) as [w|] eqn:Hc.
    + rewrite (ec_process_status_decoded _ _ _ _ _ Hc). cbn [EC.decoded].
      rewrite (ec_process_status_decoded _ _ _ _ _ Hv), Hraise. reflexivity.
    + rewrite (ec_process_status_absent _ _ _ _ Hc).
      rewrite (ec_process_status_decoded _ _ _ _ _ Hv), Hraise. reflexivity.
  - intros message self self' rep z Hz Hv H.
    pose proof (plain_loop_assigned EC.name EC._attributes message
                  (EC.process_status message)
                  (ec_process_status_absent message)
                  (ec_process_status_inv message)
                  EC.decoded (ec_process_status_assigned message)
                  EC.attribute_keys EC.mode (VInt z) ∅ self self' rep
                  (ec_attribute_keys_complete _) Hv H) as Hd.
    pose proof (proj1 (plain_loop_report EC.name EC._attributes message
                  (EC.process_status message) ec_name_inj
                  (ec_process_status_absent message)
                  (ec_process_status_inv message)
                  EC.attribute_keys self self' rep ec_attribute_keys_complete H)
                  EC.mode ltac:(rewrite Hv; eauto)) as Hr.
    cbn [EC.decoded lt_int as_number getitem_value] in Hd.
    assert (Hlen : 0 <= len EC._mode_list) by (unfold len; lia).
    destruct (z <? len EC._mode_list) eqn:E; [|apply Z.ltb_ge in E; lia].
    destruct (getitem_negative EC._mode_list z Hz) as (label & Hg & Hn).
    rewrite Hg in Hd. inversion Hd as [Hs].
    exists label. split; [exact Hn|]. split; [reflexivity|].
    rewrite Hr, <- Hs. reflexivity.
Qed.

(** The code -1 is decoded to the last entry of the catalog, "diy". *)
Lemma ec_program_code_negative_witness :
  exists label,
    nth_error EC._mode_list (Z.to_nat (len EC._mode_list + -1)) = Some label /\
    EC._attributes
      (fst (EC.process_message
              {| protocol_version := 2;
                 message_fields := {[ "mode" := VInt (-1) ]} |}
              (EC.init 2))) EC.mode = VStr label /\
    label = "diy".
Proof.
  assert (Hp : EC.process_message
                 {| protocol_version := 2;
                    message_fields := {[ "mode" := VInt (-1) ]} |} (EC.init 2)
               = (fst (EC.process_message
                         {| protocol_version := 2;
                            message_fields := {[ "mode" := VInt (-1) ]} |}
                         (EC.init 2)),
                  Return {[ "mode" := VStr "diy" ]})).
  { vm_compute. reflexivity. }
  assert (Hz : - len EC._mode_list <= -1 < 0)
    by (rewrite ec_mode_list_length; lia).
  assert (Hv : getattr
                 {| protocol_version := 2;
                    message_fields := {[ "mode" := VInt (-1) ]} |}
                 (EC.name EC.mode) = Some (VInt (-1)))
    by (vm_compute; reflexivity).
  destruct (proj2 ec_program_code_that_is_negative_or_not_a_number
              {| protocol_version := 2;
                 message_fields := {[ "mode" := VInt (-1) ]} |}
              (EC.init 2) _ _ (-1) Hz Hv Hp)
    as (label & Hn & Hs & _).
  exists label. split; [exact Hn|]. split; [exact Hs|].
  vm_compute in Hn. inversion Hn. reflexivity.
Defined.

(** ** Devices B1 and EC: the status and progress tables *)

Lemma b1_decoded_status_int z :
  B1.decoded B1.status (VInt z) =
  Return (if (1 <=? z) && (z <=? 6)
          then match nth_error (values B1._status) (Z.to_nat (z - 1)) with
               | Some label => VStr label
               | None => VNone
               end
          else VNone).
Proof.
  destruct (Z_lt_ge_dec z 1) as [Hlo|Hlo]; [|destruct (Z_le_gt_dec z 6) as [Hhi|Hhi]].
  - replace ((1 <=? z) && (z <=? 6)) with false
      by (symmetry; apply andb_false_iff; left; apply Z.leb_gt; lia).
    cbn [B1.decoded]. unfold dict_contains, B1._status.
    cbn [dict_get equal as_number].
    repeat match goal with
           | |- context [?k =? z] => destruct (Z.eqb_spec k z); [lia|]
           end.
    reflexivity.
  - assert (Hc : z = 1 \/ z = 2 \/ z = 3 \/ z = 4 \/ z = 5 \/ z = 6) by lia.
    destruct Hc as [Hk|[Hk|[Hk|[Hk|[Hk|Hk]]]]]; subst z; reflexivity.
  - replace ((1 <=? z) && (z <=? 6)) with false
      by (symmetry; apply andb_false_iff; right; apply Z.leb_gt; lia).
    cbn [B1.decoded]. unfold dict_contains, B1._status.
    cbn [dict_get equal as_number].
    repeat match goal with
           | |- context [?k =? z] => destruct (Z.eqb_spec k z); [lia|]
           end.
    reflexivity.
Qed.

(** X12: the B1 status lookup is an exact-match lookup that never fails.
    After a decode pass over a message whose status field is the int [z], the
    device holds and reports the label at position [z] of the table when [z]
    is from 1 to 6 and [None] for every other int; a status field that is
    [None] or a string also gives [None]. *)
Theorem b1_status_is_looked_up_by_exact_code
    (message : MessageResponse) (self : B1.device) (v : value) :
  getattr message (B1.name B1.status) = Some v ->
  exists self' rep,
    B1.process_message message self = (self', Return rep) /\
    rep !! B1.name B1.status = Some (B1._attributes self' B1.status) /\
    (forall z, v = VInt z ->
       B1._attributes self' B1.status =
       if (1 <=? z) && (z <=? 6)
       then match nth_error (values B1._status) (Z.to_nat (z - 1)) with
            | Some label => VStr label
            | None => VNone
            end
       else VNone) /\
    (as_number v = None -> B1._attributes self' B1.status = VNone).
Proof.
  intros Hv.
  destruct (b1_process_message_returns message self) as (self' & rep & H).
  exists self', rep. split; [exact H|].
  pose proof (plain_loop_assigned B1.name B1._attributes message
                (B1.process_status message)
                (b1_process_status_absent message)
                (b1_process_status_inv message)
                B1.decoded (b1_process_status_assigned message)
                B1.attribute_keys B1.status v ∅ self self' rep
                (b1_attribute_keys_complete _) Hv H) as Hd.
  split; [|split].
  - apply (proj1 (plain_loop_report B1.name B1._attributes message
                    (B1.process_status message) b1_name_inj
                    (b1_process_status_absent message)
                    (b1_process_status_inv message)
                    B1.attribute_keys self self' rep
                    b1_attribute_keys_complete H)).
    rewrite Hv. eauto.
  - intros z ->. rewrite b1_decoded_status_int in Hd. congruence.
  - intros Hn. destruct v as [|b|z|s]; try discriminate Hn;
      cbn in Hd; congruence.
Qed.

(** The status code 3 is decoded to "Working". *)
Lemma b1_status_witness :
  exists self' rep,
    B1.process_message
      {| protocol_version := 2; message_fields := {[ "status" := VInt 3 ]} |}
      (B1.init 2) = (self', Return rep) /\
    B1._attributes self' B1.status = VStr "Working".
Proof.
  destruct (b1_status_is_looked_up_by_exact_code
              {| protocol_version := 2; message_fields := {[ "status" := VInt 3 ]} |}
              (B1.init 2) (VInt 3))
    as (self' & rep & Hp & _ & Hz & _).
  - vm_compute. reflexivity.
  - exists self', rep. split; [exact Hp|]. apply (Hz 3 eq_refl).
Defined.

Lemma ec_unknown_not_in_progress : ~ In "Unknown" EC._progress.
Proof.
  intros H. apply list_elem_of_In in H. revert H.
  apply (bool_decide_eq_false_1 ("Unknown" ∈ EC._progress)). vm_compute. reflexivity.
Qed.

(** X13: the EC progress lookup.  A raw progress code below the length of
    the table (11) is decoded to the entry at that index, a code at or above
    it to "Unknown", which is no entry of the table; the decoded label is
    stored and reported.  The table repeats labels, so the lookup is not
    one to one: the codes 1 and 8 are both decoded to "Cooking". *)
Theorem ec_progress_decodes_by_table_or_unknown
    (message : MessageResponse) (self self' : EC.device)
    (rep : gmap string value) (raw : Z) :
  0 <= raw ->
  getattr message (EC.name EC.progress) = Some (VInt raw) ->
  EC.process_message message self = (self', Return rep) ->
  (raw < len EC._progress ->
     exists label, nth_error EC._progress (Z.to_nat raw) = Some label /\
                   EC._attributes self' EC.progress = VStr label /\
                   rep !! EC.name EC.progress = Some (VStr label)) /\
  (len EC._progress <= raw ->
     EC._attributes self' EC.progress = VStr "Unknown" /\
     rep !! EC.name EC.progress = Some (VStr "Unknown")) /\
  ~ In "Unknown" EC._progress /\
  EC.decoded EC.progress (VInt 1) = EC.decoded EC.progress (VInt 8).
Proof.
  intros H0 Hv H.
  pose proof (plain_loop_assigned EC.name EC._attributes message
                (EC.process_status message)
                (ec_process_status_absent message)
                (ec_process_status_inv message)
                EC.decoded (ec_process_status_assigned message)
                EC.attribute_keys EC.progress (VInt raw) ∅ self self' rep
                (ec_attribute_keys_complete _) Hv H) as Hd.
  pose proof (proj1 (plain_loop_report EC.name EC._attributes message
                (EC.process_status message) ec_name_inj
                (ec_process_status_absent message)
                (ec_process_status_inv message)
                EC.attribute_keys self self' rep ec_attribute_keys_complete H)
                EC.progress ltac:(rewrite Hv; eauto)) as Hr.
  cbn [EC.decoded lt_int as_number getitem_value] in Hd.
  split; [|split; [|split]].
  - intros Hlt.
    destruct (raw <? len EC._progress) eqn:E; [|apply Z.ltb_ge in E; lia].
    destruct (getitem_in_range EC._progress raw) as (label & Hg & Hn); [lia|].
    rewrite Hg in Hd. inversion Hd as [Hs].
    exists label. split; [exact Hn|]. split; [reflexivity|].
    rewrite Hr, <- Hs. reflexivity.
  - intros Hge.
    destruct (raw <? len EC._progress) eqn:E; [apply Z.ltb_lt in E; lia|].
    inversion Hd as [Hs]. split; [reflexivity|].
    rewrite Hr, <- Hs. reflexivity.
  - exact ec_unknown_not_in_progress.
  - reflexivity.
Qed.

(** The progress code 6 is decoded to "Keep-pressure". *)
Lemma ec_progress_decodes_witness :
  exists label,
    nth_error EC._progress (Z.to_nat 6) = Some label /\
    EC._attributes
      (fst (EC.process_message
              {| protocol_version := 2;
                 message_fields := {[ "progress" := VInt 6 ]} |}
              (EC.init 2))) EC.progress = VStr label /\
    label = "Keep-pressure".
Proof.
  assert (Hp : EC.process_message
                 {| protocol_version := 2;
                    message_fields := {[ "progress" := VInt 6 ]} |} (EC.init 2)
               = (fst (EC.process_message
                         {| protocol_version := 2;
                            message_fields := {[ "progress" := VInt 6 ]} |}
                         (EC.init 2)),
                  Return {[ "progress" := VStr "Keep-pressure" ]})).
  { vm_compute. reflexivity. }
  assert (H0 : 0 <= 6) by lia.
  assert (Hv : getattr
                 {| protocol_version := 2;
                    message_fields := {[ "progress" := VInt 6 ]} |}
                 (EC.name EC.progress) = Some (VInt 6))
    by (vm_compute; reflexivity).
  destruct (proj1 (ec_progress_decodes_by_table_or_unknown
                     {| protocol_version := 2;
                        message_fields := {[ "progress" := VInt 6 ]} |}
                     (EC.init 2) _ _ 6 H0 Hv Hp))
    as (label & Hn & Hs & _).
  - change (len EC._progress) with 11. lia.
  - exists label. split; [exact Hn|]. split; [exact Hs|].
    vm_compute in Hn. inversion Hn. reflexivity.
Defined.

(** ** Decoding the same message twice *)

(** X14: on A1, a message delivered twice is harmless.  When the tank
    level is an [int] (in the device and, if exposed, in the message) and
    [tank_full] is [None] or a [bool], the second decode pass changes no
    attribute, the derived [tank_full] included, keeps the protocol version,
    and reports every exposed attribute at the value the first pass
    reported. *)
Theorem a1_decoding_a_message_twice_changes_nothing
    (message : MessageResponse) (self s1 s2 : A1.device)
    (r1 r2 : gmap string value) :
  (forall v, getattr message (A1.name A1.tank) = Some v -> exists z, v = VInt z) ->
  (forall v, getattr message (A1.name A1.tank_full) = Some v ->
     v = VNone \/ exists b, v = VBool b) ->
  (exists t, A1._attributes self A1.tank = VInt t) ->
  (A1._attributes self A1.tank_full = VNone \/
   exists b, A1._attributes self A1.tank_full = VBool b) ->
  A1.process_message message self = (s1, Return r1) ->
  A1.process_message message s1 = (s2, Return r2) ->
  (forall a, A1._attributes s2 a = A1._attributes s1 a) /\
  A1._message_protocol_version s2 = A1._message_protocol_version s1 /\
  (forall a, is_Some (getattr message (A1.name a)) ->
     r2 !! A1.name a = r1 !! A1.name a).
Proof.
  intros Htank Htfm Ht Htf H1 H2.
  assert (Hother : forall a, a <> A1.tank_full ->
            A1._attributes s2 a = A1._attributes s1 a).
  { intros a Ha. pose proof H1 as H1'. pose proof H2 as H2'.
    rewrite a1_process_message_eq in H1', H2'.
    destruct (getattr message (A1.name a)) as [v|] eqn:Hv.
    - pose proof (a1_loop_assigned message _ a v _ _ _ _ Ha
                    (a1_attribute_keys_complete _) Hv H1') as E1.
      pose proof (a1_loop_assigned message _ a v _ _ _ _ Ha
                    (a1_attribute_keys_complete _) Hv H2') as E2.
      congruence.
    - apply (a1_loop_frame message _ a _ _ _ _ H2' Ha). right. exact Hv. }
  assert (Hall : forall a, A1._attributes s2 a = A1._attributes s1 a).
  { intros a. destruct (decide (a = A1.tank_full)) as [->|Ha]; [|apply Hother, Ha].
    destruct (decide (Forall (fun a => getattr message (A1.name a) = None)
                        A1.attribute_keys)) as [Hnone|Hsome].
    - assert (Hn : forall a, getattr message (A1.name a) = None).
      { intros a. rewrite Forall_forall in Hnone. apply Hnone.
        apply list_elem_of_In, a1_attribute_keys_complete. }
      rewrite a1_process_message_eq in H2.
      rewrite (for_each_skips (A1.process_status message)) in H2
        by (intros x _; apply a1_process_status_absent, Hn).
      inversion H2. reflexivity.
    - apply not_Forall_Exists in Hsome; [|intros x; apply _].
      apply Exists_exists in Hsome as (a & _ & Ha). cbn in Ha.
      assert (Hex : exists a, In a A1.attribute_keys /\
                              is_Some (getattr message (A1.name a))).
      { exists a. split; [apply a1_attribute_keys_complete|].
        destruct (getattr message (A1.name a)); [eauto | contradiction]. }
      pose proof H1 as H1'. pose proof H2 as H2'.
      rewrite a1_process_message_eq in H1', H2'.
      assert (Hs1 : A1.tank_full_settled s1).
      { apply (a1_loop_settles message Htank Htfm A1.attribute_keys ∅
                 {| A1._attributes := A1._attributes self;
                    A1._message_protocol_version := protocol_version message |}
                 s1 r1 Ht Htf H1'). right. exact Hex. }
      destruct (a1_settled_weaken s1 Hs1) as [Ht1 Htf1].
      assert (Hs2 : A1.tank_full_settled s2).
      { apply (a1_loop_settles message Htank Htfm A1.attribute_keys ∅
                 {| A1._attributes := A1._attributes s1;
                    A1._message_protocol_version := protocol_version message |}
                 s2 r2 Ht1 Htf1 H2'). right. exact Hex. }
      destruct Hs1 as (t1 & l1 & Et1 & El1 & E1).
      destruct Hs2 as (t2 & l2 & Et2 & El2 & E2).
      rewrite (Hother A1.tank) in Et2 by discriminate.
      rewrite (Hother A1.water_level_set) in El2 by discriminate.
      rewrite E1, E2. congruence. }
  split; [exact Hall|]. split.
  - pose proof (a1_process_message_stores_version message self) as V1.
    pose proof (a1_process_message_stores_version message s1) as V2.
    rewrite H1 in V1. rewrite H2 in V2. cbn [fst] in *. congruence.
  - intros a Ha.
    rewrite (proj1 (a1_process_message_report _ _ _ _ H1) a Ha).
    rewrite (proj1 (a1_process_message_report _ _ _ _ H2) a Ha).
    f_equal. apply Hall.
Qed.

(** Tank 60 and water level 50, decoded twice by a fresh device. *)
Lemma a1_decoding_twice_witness :
  A1._attributes
    (fst (A1.process_message
            {| protocol_version := 3;
               message_fields := {[ "tank" := VInt 60;
                                    "water_level_set" := VInt 50 ]} |}
            (fst (A1.process_message
                    {| protocol_version := 3;
                       message_fields := {[ "tank" := VInt 60;
                                            "water_level_set" := VInt 50 ]} |}
                    (A1.init 2))))) A1.tank_full
  = A1._attributes
      (fst (A1.process_message
              {| protocol_version := 3;
                 message_fields := {[ "tank" := VInt 60;
                                      "water_level_set" := VInt 50 ]} |}
              (A1.init 2))) A1.tank_full.
Proof.
  refine (proj1 (a1_decoding_a_message_twice_changes_nothing
                   {| protocol_version := 3;
                      message_fields := {[ "tank" := VInt 60;
                                           "water_level_set" := VInt 50 ]} |}
                   (A1.init 2) _ _
                   {[ "tank" := VInt 60; "water_level_set" := VStr "50";
                      "tank_full" := VBool true ]}
                   {[ "tank" := VInt 60; "water_level_set" := VStr "50" ]}
                   _ _ _ _ _ _) A1.tank_full).
  - intros v Hv. vm_compute in Hv. inversion Hv. eauto.
  - intros v Hv. vm_compute in Hv. discriminate Hv.
  - exists 0. reflexivity.
  - left. reflexivity.
  - vm_compute. reflexivity.
  - vm_compute. reflexivity.
Defined.

(** X15: on B1 and on EC, a message delivered twice is harmless: when both
    decode passes return, the second one changes no attribute, keeps the
    protocol version and returns the very report of the first. *)
Theorem b1_ec_decoding_a_message_twice_changes_nothing :
  (forall message self s1 r1 s2 r2,
     B1.process_message message self = (s1, Return r1) ->
     B1.process_message message s1 = (s2, Return r2) ->
     (forall a, B1._attributes s2 a = B1._attributes s1 a) /\
     B1._message_protocol_version s2 = B1._message_protocol_version s1 /\
     r2 = r1) /\
  (forall message self s1 r1 s2 r2,
     EC.process_message message self = (s1, Return r1) ->
     EC.process_message message s1 = (s2, Return r2) ->
     (forall a, EC._attributes s2 a = EC._attributes s1 a) /\
     EC._message_protocol_version s2 = EC._message_protocol_version s1 /\
     r2 = r1).
Proof.
  split; intros message self s1 r1 s2 r2 H1 H2; (split; [|split]).
  - intros a. destruct (getattr message (B1.name a)) as [v|] eqn:Hv.
    + pose proof (plain_loop_assigned B1.name B1._attributes message
                    (B1.process_status message)
                    (b1_process_status_absent message)
                    (b1_process_status_inv message)
                    B1.decoded (b1_process_status_assigned message)
                    B1.attribute_keys a v ∅ _ _ _
                    (b1_attribute_keys_complete _) Hv H1) as E1.
      pose proof (plain_loop_assigned B1.name B1._attributes message
                    (B1.process_status message)
                    (b1_process_status_absent message)
                    (b1_process_status_inv message)
                    B1.decoded (b1_process_status_assigned message)
                    B1.attribute_keys a v ∅ _ _ _
                    (b1_attribute_keys_complete _) Hv H2) as E2.
      congruence.
    + apply (plain_loop_frame B1.name B1._attributes message
               (B1.process_status message)
               (b1_process_status_absent message)
               (b1_process_status_inv message)
               B1.attribute_keys a ∅ _ _ _ H2).
      right. exact Hv.
  - pose proof (for_each_keeps
                  (fun s => B1._message_protocol_version s
                            = B1._message_protocol_version s1)
                  (B1.process_status message)
                  (fun acc x s Hs =>
                     eq_trans (b1_process_status_keeps_version message acc x s) Hs)
                  B1.attribute_keys ∅ s1 eq_refl) as V.
    unfold B1.process_message in H2. rewrite H2 in V. exact V.
  - pose proof (for_each_outcome_independent (B1.process_status message)
                  (b1_process_status_outcome message)
                  B1.attribute_keys ∅ self s1) as E.
    unfold B1.process_message in H1, H2. rewrite H1, H2 in E.
    cbn [snd] in E. congruence.
  - intros a. destruct (getattr message (EC.name a)) as [v|] eqn:Hv.
    + pose proof (plain_loop_assigned EC.name EC._attributes message
                    (EC.process_status message)
                    (ec_process_status_absent message)
                    (ec_process_status_inv message)
                    EC.decoded (ec_process_status_assigned message)
                    EC.attribute_keys a v ∅ _ _ _
                    (ec_attribute_keys_complete _) Hv H1) as E1.
      pose proof (plain_loop_assigned EC.name EC._attributes message
                    (EC.process_status message)
                    (ec_process_status_absent message)
                    (ec_process_status_inv message)
                    EC.decoded (ec_process_status_assigned message)
                    EC.attribute_keys a v ∅ _ _ _
                    (ec_attribute_keys_complete _) Hv H2) as E2.
      congruence.
    + apply (plain_loop_frame EC.name EC._attributes message
               (EC.process_status message)
               (ec_process_status_absent message)
               (ec_process_status_inv message)
               EC.attribute_keys a ∅ _ _ _ H2).
      right. exact Hv.
  - pose proof (for_each_keeps
                  (fun s => EC._message_protocol_version s
                            = EC._message_protocol_version s1)
                  (EC.process_status message)
                  (fun acc x s Hs =>
                     eq_trans (ec_process_status_keeps_version message acc x s) Hs)
                  EC.attribute_keys ∅ s1 eq_refl) as V.
    unfold EC.process_message in H2. rewrite H2 in V. exact V.
  - pose proof (for_each_outcome_independent (EC.process_status message)
                  (ec_process_status_outcome message)
                  EC.attribute_keys ∅ self s1) as E.
    unfold EC.process_message in H1, H2. rewrite H1, H2 in E.
    cbn [snd] in E. congruence.
Qed.

(** The status code 3, decoded twice by a fresh B1 device. *)
Lemma b1_ec_decoding_twice_witness :
  B1._attributes
    (fst (B1.process_message
            {| protocol_version := 2;
               message_fields := {[ "status" := VInt 3 ]} |}
            (fst (B1.process_message
                    {| protocol_version := 2;
                       message_fields := {[ "status" := VInt 3 ]} |}
                    (B1.init 2))))) B1.status
  = B1._attributes
      (fst (B1.process_message
              {| protocol_version := 2;
                 message_fields := {[ "status" := VInt 3 ]} |}
              (B1.init 2))) B1.status.
Proof.
  refine (proj1 (proj1 b1_ec_decoding_a_message_twice_changes_nothing
                   {| protocol_version := 2;
                      message_fields := {[ "status" := VInt 3 ]} |}
                   (B1.init 2) _ {[ "status" := VStr "Working" ]}
                   _ {[ "status" := VStr "Working" ]} _ _) B1.status).
  - vm_compute. reflexivity.
  - vm_compute. reflexivity.
Defined.
